(** * journal-club: the site reorganisation script, embedded in Rocq

    The development follows [scripts/reorg-site.sh].  The script is a bash
    pipeline that calls [perl] (asset path rewriting), [python3] (link
    check), [git], [tar], [mkdir] and [cat].  Each of these is embedded as a
    function over an explicit world (working tree, index, history), and the
    script's own functions are written on top of them in an error/state
    monad that mirrors [set -euo pipefail].

    A second copy of the script is stored at the end of
    [docs/assets/js/app.js]; it is embedded in [Module AppJsCopy].  The
    JavaScript the file starts with, and a stand-alone theme toggle, are
    embedded in [Module AppJs] and [Module ThemeToggle] as functions over
    the part of the page they read and write.

    Text is modelled as [string] (a sequence of 8-bit characters).  Case
    folding and white space are those of the ASCII range.

    The script hands its command lines to [eval], which reads them a second
    time.  The embedding takes the words of a command as the script builds
    them; this is what [eval] yields for the names the script works with:
    names free of double quotes, dollars, backquotes and backslashes, and
    redirect targets that hold no line reading [HTML]. *)

From Stdlib Require Import Ascii String List Arith Lia Bool.
From stdpp Require Import gmap strings list fin_maps.

#[local] Arguments String.append !_ _ / : simpl nomatch.

(* ===================================================================== *)
(** * Characters and strings *)
(* ===================================================================== *)

(** The double quote, the single quote and the line feed. *)
Definition dq : ascii := "034"%char.
Definition sq : ascii := "039"%char.
Definition nl : ascii := "010"%char.

Definition str1 (c : ascii) : string := String c "".

(** [strip_prefix p s] is [Some r] when [s = p ++ r]. *)
Fixpoint strip_prefix (p s : string) : option string :=
  match p with
  | EmptyString => Some s
  | String a p' =>
      match s with
      | String b s' => if Ascii.eqb a b then strip_prefix p' s' else None
      | EmptyString => None
      end
  end.

Definition starts_with (p s : string) : bool :=
  match strip_prefix p s with Some _ => true | None => false end.

(** Drop the longest prefix made of characters satisfying [sp]. *)
Fixpoint skip_while (sp : ascii -> bool) (s : string) : string :=
  match s with
  | String c s' => if sp c then skip_while sp s' else s
  | EmptyString => EmptyString
  end.

(* ===================================================================== *)
(** * The path rewriter: [perl -0777 -i -pe 's/.../.../g; ...'] *)
(* ===================================================================== *)

(** [suffix_of r s]: [r] is what is left of [s] after dropping some
    characters from its front. *)
Inductive suffix_of : string -> string -> Prop :=
  | suffix_refl s : suffix_of s s
  | suffix_skip r c s : suffix_of r s -> suffix_of r (String c s).

Module Perl.

(** [\s] on a byte string: space, TAB, LF, VT, FF, CR. *)
Definition space (c : ascii) : bool :=
  match c with
  | "009" | "010" | "011" | "012" | "013" | " " => true
  | _ => false
  end%char.

(** [(href|src)]: the capture group [$1] and the rest. *)
Definition attr_name (s : string) : option (string * string) :=
  match strip_prefix "href" s with
  | Some r => Some ("href", r)
  | None =>
      match strip_prefix "src" s with
      | Some r => Some ("src", r)
      | None => None
      end
  end.

(** One attempt of the pattern [(href|src)\s*=\s*Q<tail>] at the head of
    [s], where Q stands for the double quote.  [tail] recognises what must
    follow the opening quote.  None of the
    pieces can give back characters to the next one, so the first attempt is
    the only one. *)
Definition match_here (tail : string -> option string) (s : string)
  : option (string * string) :=
  match attr_name s with
  | Some (a, r1) =>
      match skip_while space r1 with
      | String "=" r2 =>
          match skip_while space r2 with
          | String "034" r3 =>
              match tail r3 with
              | Some r4 => Some (a, r4)
              | None => None
              end
          | _ => None
          end
      | _ => None
      end
  | None => None
  end.

(** [s/(href|src)\s*=\s*Q<tail>/$1=Q<canon>/g]: scan from the left; at a
    match emit the replacement and go on after the match, otherwise copy one
    character. *)
Fixpoint subst_from (fuel : nat) (tail : string -> option string)
    (canon : string) (s : string) : string :=
  match fuel with
  | 0 => s
  | S n =>
      match s with
      | EmptyString => EmptyString
      | String c s' =>
          match match_here tail s with
          | Some (a, rest) =>
              a +:+ String "=" (String dq (canon +:+ subst_from n tail canon rest))
          | None => String c (subst_from n tail canon s')
          end
      end
  end.

Definition subst (tail : string -> option string) (canon s : string) : string :=
  subst_from (String.length s) tail canon s.

(** The literal tails of [scripts/reorg-site.sh]. *)
Definition lit (legacy : string) : string -> option string := strip_prefix legacy.

(** The six substitutions of [rewrite_asset_paths], in program order. *)
Definition rewrite_html (s : string) : string :=
  let s := subst (lit "./css/") "/assets/css/" s in
  let s := subst (lit "css/") "/assets/css/" s in
  let s := subst (lit "./js/") "/assets/js/" s in
  let s := subst (lit "js/") "/assets/js/" s in
  let s := subst (lit "./img/") "/assets/img/" s in
  let s := subst (lit "img/") "/assets/img/" s in
  s.

(** The tails of the copy in [app.js]: [\.?(\/)?css\/] and the like.  Giving
    up an optional character never helps, since the literal starts with a
    letter. *)
Definition opt (c : ascii) (s : string) : string :=
  match s with
  | String a s' => if Ascii.eqb a c then s' else s
  | EmptyString => EmptyString
  end.

Definition loose (name : string) : string -> option string :=
  fun s => strip_prefix name (opt "/" (opt "." s)).

Definition rewrite_html_appjs (s : string) : string :=
  let s := subst (loose "css/") "/assets/css/" s in
  let s := subst (loose "js/") "/assets/js/" s in
  let s := subst (loose "img/") "/assets/img/" s in
  s.

(** *** Notions used to reason about the scan *)

(** [safe t]: no [h] in [t], and every [s] in [t] is followed, inside [t],
    by something other than [r].  The replacement text starts with [href=]
    or [src=], so such a [t] cannot run into the start of a replacement. *)
Fixpoint safe (t : string) : bool :=
  match t with
  | EmptyString => true
  | String a t' =>
      negb (Ascii.eqb a "h")
      && (if Ascii.eqb a "s"
          then match t' with
               | String b _ => negb (Ascii.eqb b "r")
               | EmptyString => false
               end
          else true)
      && safe t'
  end.

(** [clean tail s]: the pattern matches nowhere in [s]. *)
Fixpoint clean (tail : string -> option string) (s : string) : Prop :=
  match_here tail s = None
  /\ match s with
     | String _ s' => clean tail s'
     | EmptyString => True
     end.

Definition tail_suffix (tail : string -> option string) : Prop :=
  forall s r, tail s = Some r -> suffix_of r s.

End Perl.

(* ===================================================================== *)
(** * The pieces of Python used by the link check *)
(* ===================================================================== *)

Module Py.

(** [str.isspace] and the class [\s], on the ASCII range. *)
Definition space (c : ascii) : bool :=
  match c with
  | "009" | "010" | "011" | "012" | "013" | "028" | "029" | "030" | "031" | " " => true
  | _ => false
  end%char.

Definition lower_char (c : ascii) : ascii :=
  let n := nat_of_ascii c in
  if (65 <=? n) && (n <=? 90) then ascii_of_nat (n + 32) else c.

Fixpoint lower (s : string) : string :=
  match s with
  | EmptyString => EmptyString
  | String c s' => String (lower_char c) (lower s')
  end.

Definition is_empty (s : string) : bool :=
  match s with EmptyString => true | _ => false end.

(** [s.rstrip()] with a predicate for the characters to drop. *)
Fixpoint rstrip_by (sp : ascii -> bool) (s : string) : string :=
  match s with
  | EmptyString => EmptyString
  | String c s' =>
      let r := rstrip_by sp s' in
      if is_empty r && sp c then EmptyString else String c r
  end.

(** [s.strip()] *)
Definition strip (s : string) : string := rstrip_by space (skip_while space s).

(** [s.split(c, 1)[0]] and [s.split(c)[0]]: the text before the first [c]. *)
Fixpoint before (c : ascii) (s : string) : string :=
  match s with
  | EmptyString => EmptyString
  | String a s' => if Ascii.eqb a c then EmptyString else String a (before c s')
  end.

(** [s.lstrip("/")] *)
Definition lstrip_slash (s : string) : string :=
  skip_while (fun c => Ascii.eqb c "/") s.

(** [s.split("/")] *)
Fixpoint split_slash (s : string) : list string :=
  match s with
  | EmptyString => [EmptyString]
  | String c s' =>
      if Ascii.eqb c "/" then EmptyString :: split_slash s'
      else match split_slash s' with
           | w :: ws => String c w :: ws
           | [] => [String c EmptyString]
           end
  end.

(** ["/".join(cs)] *)
Fixpoint join_slash (cs : list string) : string :=
  match cs with
  | [] => EmptyString
  | [c] => c
  | c :: cs' => c +:+ String "/" (join_slash cs')
  end.

(** *** [os.path] (posixpath) *)

Fixpoint last_char (s : string) : option ascii :=
  match s with
  | EmptyString => None
  | String c EmptyString => Some c
  | String _ s' => last_char s'
  end.

Definition ends_with_slash (s : string) : bool :=
  match last_char s with
  | Some c => Ascii.eqb c "/"
  | None => false
  end.

(** [os.path.join(a, b)] *)
Definition join (a b : string) : string :=
  if starts_with "/" b then b
  else if is_empty a || ends_with_slash a then a +:+ b
  else a +:+ String "/" b.

(** [p[:p.rfind("/") + 1]] *)
Fixpoint upto_last_slash (s : string) : string :=
  match s with
  | EmptyString => EmptyString
  | String c s' =>
      let r := upto_last_slash s' in
      if negb (is_empty r) then String c r
      else if Ascii.eqb c "/" then String c EmptyString
      else EmptyString
  end.

(** [os.path.dirname(p)] *)
Definition dirname (p : string) : string :=
  let head := upto_last_slash p in
  if is_empty (lstrip_slash head) then head
  else rstrip_by (fun c => Ascii.eqb c "/") head.

(** The loop of [os.path.normpath] over the components; [acc] holds
    [new_comps] in reverse. *)
Fixpoint norm_comps (rooted : bool) (acc : list string) (cs : list string)
  : list string :=
  match cs with
  | [] => rev acc
  | c :: cs' =>
      if String.eqb c "" || String.eqb c "." then norm_comps rooted acc cs'
      else if negb (String.eqb c "..") then norm_comps rooted (c :: acc) cs'
      else match acc with
           | [] => if rooted then norm_comps rooted acc cs'
                   else norm_comps rooted (c :: acc) cs'
           | top :: acc' =>
               if String.eqb top ".." then norm_comps rooted (c :: acc) cs'
               else norm_comps rooted acc' cs'
           end
  end.

(** [os.path.normpath(p)] *)
Definition normpath (p : string) : string :=
  if is_empty p then "."
  else
    let slashes :=
      if starts_with "/" p
      then if starts_with "//" p && negb (starts_with "///" p) then "//" else "/"
      else "" in
    let body := join_slash (norm_comps (starts_with "/" p) [] (split_slash p)) in
    let r := slashes +:+ body in
    if is_empty r then "." else r.

(** [fn.endswith(".html")] *)
Fixpoint ends_with (suffix s : string) : bool :=
  String.eqb suffix s
  || match s with
     | EmptyString => false
     | String _ s' => ends_with suffix s'
     end.

(** *** The attribute regex

    [(?:href|src)\s*=\s*Q([^Q]+)Q] with [re.IGNORECASE], where Q is either
    quote character. *)

Definition is_quote (c : ascii) : bool := Ascii.eqb c dq || Ascii.eqb c sq.

Fixpoint strip_prefix_ci (p s : string) : option string :=
  match p with
  | EmptyString => Some s
  | String a p' =>
      match s with
      | String b s' =>
          if Ascii.eqb a (lower_char b) then strip_prefix_ci p' s' else None
      | EmptyString => None
      end
  end.

Definition attr_name_ci (s : string) : option string :=
  match strip_prefix_ci "href" s with
  | Some r => Some r
  | None => strip_prefix_ci "src" s
  end.

Fixpoint take_value (s : string) : string * string :=
  match s with
  | EmptyString => (EmptyString, EmptyString)
  | String c s' =>
      if is_quote c then (EmptyString, s)
      else let '(v, r) := take_value s' in (String c v, r)
  end.

(** The quoted value: an opening quote, a non-empty run without quotes, a
    closing quote. *)
Definition quoted_value (s : string) : option (string * string) :=
  match s with
  | String q r =>
      if is_quote q then
        match take_value r with
        | (String c v, String _ rest) => Some (String c v, rest)
        | _ => None
        end
      else None
  | EmptyString => None
  end.

(** One attempt of the regex at the head of [s]; [spaced] tells whether
    [\s*] is allowed around the equals sign. *)
Definition attr_here (spaced : bool) (s : string) : option (string * string) :=
  match attr_name_ci s with
  | Some r1 =>
      match (if spaced then skip_while space r1 else r1) with
      | String "=" r2 => quoted_value (if spaced then skip_while space r2 else r2)
      | _ => None
      end
  | None => None
  end.

(** [attr_re.findall(html)] *)
Fixpoint findall_from (fuel : nat) (spaced : bool) (s : string) : list string :=
  match fuel with
  | 0 => []
  | S n =>
      match s with
      | EmptyString => []
      | String _ s' =>
          match attr_here spaced s with
          | Some (v, rest) => v :: findall_from n spaced rest
          | None => findall_from n spaced s'
          end
      end
  end.

Definition findall (spaced : bool) (s : string) : list string :=
  findall_from (String.length s) spaced s.

End Py.

(* ===================================================================== *)
(** * The world: working tree, index, branches *)
(* ===================================================================== *)

(** A path is the list of its components below the directory the script
    runs in (the repository root).  Whatever lies outside that directory is
    not part of the model: absolute paths and paths leaving it through [..]
    denote nothing. *)
Abbreviation path := (list string).
Abbreviation tree := (gmap (list string) string).

Record world := World {
  inside_repo : bool;           (* git rev-parse --is-inside-work-tree *)
  files : tree;                 (* regular files of the working tree *)
  dirs : gset path;             (* its directories; [[]] always is one *)
  index : tree;                 (* the staged content *)
  branch : string;              (* the branch HEAD points to *)
  branches : gmap string tree;  (* the tip of every born branch *)
  history : list string;        (* messages of the commits created *)
  ignored : path -> bool;       (* .gitignore *)
  clock : string;               (* date +%Y%m%d_%H%M%S *)
  tar_ok : bool                 (* whether tar manages to write the archive *)
}.

Definition set_files (f : tree) (w : world) : world :=
  World (inside_repo w) f (dirs w) (index w) (branch w) (branches w)
        (history w) (ignored w) (clock w) (tar_ok w).
Definition set_dirs (d : gset path) (w : world) : world :=
  World (inside_repo w) (files w) d (index w) (branch w) (branches w)
        (history w) (ignored w) (clock w) (tar_ok w).
Definition set_index (i : tree) (w : world) : world :=
  World (inside_repo w) (files w) (dirs w) i (branch w) (branches w)
        (history w) (ignored w) (clock w) (tar_ok w).
Definition set_branch (b : string) (w : world) : world :=
  World (inside_repo w) (files w) (dirs w) (index w) b (branches w)
        (history w) (ignored w) (clock w) (tar_ok w).
Definition set_branches (bs : gmap string tree) (w : world) : world :=
  World (inside_repo w) (files w) (dirs w) (index w) (branch w) bs
        (history w) (ignored w) (clock w) (tar_ok w).
Definition set_history (h : list string) (w : world) : world :=
  World (inside_repo w) (files w) (dirs w) (index w) (branch w) (branches w)
        h (ignored w) (clock w) (tar_ok w).

(** The tree of HEAD; empty on a branch without commits. *)
Definition head_tree (w : world) : tree := default ∅ (branches w !! branch w).

(** ** Path strings *)

Definition parent (p : path) : path := removelast p.

Definition norm_step (acc : option path) (c : string) : option path :=
  match acc with
  | None => None
  | Some p =>
      if String.eqb c "" || String.eqb c "." then Some p
      else if String.eqb c ".."
           then match p with [] => None | _ => Some (parent p) end
           else Some (p ++ [c])
  end.

(** The path a command line argument denotes, read lexically. *)
Definition norm (s : string) : option path :=
  if Py.is_empty s || starts_with "/" s then None
  else foldl norm_step (Some []) (Py.split_slash s).

Definition is_dir (w : world) (p : path) : bool :=
  bool_decide (p = []) || bool_decide (p ∈ dirs w).
Definition is_file (w : world) (p : path) : bool :=
  bool_decide (is_Some (files w !! p)).
Definition present (w : world) (p : path) : bool := is_dir w p || is_file w p.

(** The path the operating system reaches: every component but the last
    must be an existing directory. *)
Fixpoint resolve_from (w : world) (cur : path) (cs : list string) : option path :=
  match cs with
  | [] => Some cur
  | c :: cs' =>
      if negb (is_dir w cur) then None
      else if String.eqb c "" || String.eqb c "." then resolve_from w cur cs'
      else if String.eqb c ".."
           then match cur with
                | [] => None
                | _ => resolve_from w (parent cur) cs'
                end
           else if present w (cur ++ [c]) then resolve_from w (cur ++ [c]) cs'
                else None
  end.

Definition resolve (w : world) (s : string) : option path :=
  if Py.is_empty s || starts_with "/" s then None
  else resolve_from w [] (Py.split_slash s).

(** [[ -e s ]] and [os.path.exists(s)] *)
Definition exists_at (w : world) (s : string) : bool :=
  match resolve w s with Some _ => true | None => false end.
(** [[ -d s ]] and [os.path.isdir(s)] *)
Definition isdir_at (w : world) (s : string) : bool :=
  match resolve w s with Some p => is_dir w p | None => false end.
(** [[ -f s ]] *)
Definition isfile_at (w : world) (s : string) : bool :=
  match resolve w s with Some p => is_file w p | None => false end.

(** All non-empty prefixes of a path, shortest first. *)
Fixpoint prefixes_from (base : path) (p : path) : list path :=
  match p with
  | [] => []
  | c :: p' => (base ++ [c]) :: prefixes_from (base ++ [c]) p'
  end.
Definition prefixes (p : path) : list path := prefixes_from [] p.

Definition under (r k : path) : bool := bool_decide (r `prefix_of` k).

Definition retarget (s d k : path) : path :=
  if under s k then d ++ drop (length s) k else k.

(** Rename the subtree at [s] to [d] in a map keyed by paths. *)
Definition rekey {V} (s d : path) (m : gmap path V) : gmap path V :=
  map_fold (fun k v acc => <[retarget s d k := v]> acc) ∅ m.

Definition rekey_set (s d : path) (x : gset path) : gset path :=
  set_map (retarget s d) x.

(** ** External commands *)

(** [git status --porcelain] prints nothing: nothing staged, nothing
    modified or deleted, nothing untracked that is not ignored. *)
Definition status_clean (w : world) : bool :=
  bool_decide (index w = head_tree w)
  && bool_decide (map_Forall (fun p c => files w !! p = Some c) (index w))
  && bool_decide (map_Forall (fun p _ => is_Some (index w !! p) \/ ignored w p = true) (files w)).

(** [git ls-files --error-unmatch s]: some index entry is [s] or lies
    below it. *)
Definition tracked (w : world) (s : string) : bool :=
  match norm s with
  | Some p => bool_decide (map_Exists (fun k _ => p `prefix_of` k) (index w))
  | None => false
  end.

(** [mkdir -p s] *)
Definition mkdir_p (s : string) (w : world) : option world :=
  match norm s with
  | Some p =>
      if existsb (is_file w) (prefixes p) then None
      else Some (set_dirs (dirs w ∪ list_to_set (prefixes p)) w)
  | None => None
  end.

Fixpoint mkdir_p_all (ss : list string) (w : world) : option world :=
  match ss with
  | [] => Some w
  | s :: ss' =>
      match mkdir_p s w with
      | Some w' => mkdir_p_all ss' w'
      | None => None
      end
  end.

(** [cat > s]: the redirection creates or truncates the file. *)
Definition write_file (s content : string) (w : world) : option world :=
  match norm s with
  | Some p =>
      if bool_decide (p = []) || is_dir w p || negb (is_dir w (parent p)) then None
      else Some (set_files (<[p := content]> (files w)) w)
  | None => None
  end.

(** [tar -czf archive .]: the archive appears in the working tree.  What it
    contains plays no role. *)
Definition tar_to (archive : string) (w : world) : option world :=
  if tar_ok w then write_file archive "" w else None.

(** [git mv src dst].  An existing directory as destination receives the
    source under its own name; anything else at the destination is an
    error, as is a source that is missing or not tracked. *)
Definition git_mv (src dst : string) (w : world) : option world :=
  match norm src, norm dst with
  | Some s, Some d =>
      let d' := if is_dir w d then d ++ [List.last s ""] else d in
      if bool_decide (s = [])
         || negb (present w s)
         || negb (bool_decide (map_Exists (fun k _ => s `prefix_of` k) (index w)))
         || present w d'
         || negb (is_dir w (parent d'))
         || under s d'
      then None
      else Some (set_index (rekey s d' (index w))
                  (set_dirs (rekey_set s d' (dirs w))
                    (set_files (rekey s d' (files w)) w)))
  | _, _ => None
  end.

(** [git add s1 s2 ...]: every argument must name something present that
    is tracked or not ignored; the files at or below it are staged. *)
Definition addable (w : world) (s : string) : bool :=
  match norm s with
  | Some p =>
      present w p
      && (bool_decide (map_Exists (fun k _ => p `prefix_of` k) (index w))
          || negb (ignored w p))
  | None => false
  end.

Definition stage_one (s : string) (w : world) : world :=
  match norm s with
  | Some p =>
      set_index
        (filter (fun kv => under p kv.1 = true
                           /\ (is_Some (index w !! kv.1) \/ ignored w kv.1 = false))
                (files w)
         ∪ filter (fun kv => under p kv.1 = false \/ is_Some (files w !! kv.1))
                  (index w)) w
  | None => w
  end.

Definition git_add (ss : list string) (w : world) : option world :=
  if forallb (addable w) ss then Some (foldl (fun w s => stage_one s w) w ss)
  else None.

(** [git commit -m msg]: refused when nothing is staged. *)
Definition git_commit (msg : string) (w : world) : option world :=
  if bool_decide (index w = head_tree w) then None
  else Some (set_history (msg :: history w)
              (set_branches (<[branch w := index w]> (branches w)) w)).

(** [git checkout --orphan b]: HEAD moves to the unborn branch [b]; index
    and working tree stay. *)
Definition git_checkout_orphan (b : string) (w : world) : option world :=
  if bool_decide (is_Some (branches w !! b)) then None
  else Some (set_branch b w).

(** [git checkout b]: the two-tree merge of the tree of HEAD and the tip of
    [b] into the index and the working tree. *)
Inductive verdict := Keep | Take | Refuse.

Definition checkout_verdict (w : world) (m : tree) (p : path) : verdict :=
  let i := index w !! p in
  let h := head_tree w !! p in
  if bool_decide (h = m !! p) then Keep
  else if bool_decide (i = m !! p) then Keep
  else if bool_decide (i = h) && bool_decide (files w !! p = i)
          && (bool_decide (is_Some i) || negb (present w p))
       then Take
       else Refuse.

Definition checkout_paths (w : world) (m : tree) : list path :=
  elements (dom (index w) ∪ dom (head_tree w) ∪ dom m).

Definition take_path (m : tree) (w : world) (p : path) : world :=
  match m !! p with
  | Some c =>
      set_index (<[p := c]> (index w))
        (set_dirs (dirs w ∪ list_to_set (prefixes (parent p)))
          (set_files (<[p := c]> (files w)) w))
  | None => set_index (delete p (index w)) (set_files (delete p (files w)) w)
  end.

Definition git_checkout (b : string) (w : world) : option world :=
  match branches w !! b with
  | Some m =>
      let ps := checkout_paths w m in
      if existsb (fun p => match checkout_verdict w m p with
                           | Refuse => true | _ => false end) ps
      then None
      else Some (set_branch b
                  (foldl (take_path m) w
                     (List.filter (fun p => match checkout_verdict w m p with
                                            | Take => true | _ => false end) ps)))
  | None => None
  end.

(** [find root -name '*.html' -type f | while read f; do perl -i ... f; done]
    with the substitution program [rw].  [find] fails on a root that does
    not exist, and [pipefail] makes that the status of the pipeline. *)
Definition html_name (k : path) : bool := Py.ends_with ".html" (List.last k "").

Definition find_perl (rw : string -> string) (root : string) (w : world)
  : option world :=
  match resolve w root with
  | Some r =>
      Some (set_files
              (map_imap (fun k c => Some (if under r k && html_name k then rw c else c))
                        (files w)) w)
  | None => None
  end.

(** [os.walk(root)] restricted to what the link check reads: every regular
    file below [root] whose name ends in [.html], with the path string
    [os.path.join] builds on the way down, and its content. *)
Definition walk_html (w : world) (root : string) : list (string * string) :=
  match resolve w root with
  | Some r =>
      if is_dir w r then
        omap (fun kc : path * string =>
                if under r kc.1 && html_name kc.1
                then Some (foldl Py.join root (drop (length r) kc.1), kc.2)
                else None)
             (map_to_list (files w))
      else []
  | None => []
  end.

(* ===================================================================== *)
(** * The shell: output, executed commands, exit status *)
(* ===================================================================== *)

(** What reaches standard output: a line written by [echo] or [print], a
    header written by [log], or the output of a tool that is not modelled
    in detail. *)
Inductive chunk :=
  | Line (s : string)
  | Header (s : string)
  | Tool (cmd : string).

(** The two copies of the script. *)
Inductive script := Reorg | AppJs.

(** The commands that change the working tree or the repository. *)
Inductive action :=
  | Tar (archive : string)
  | MkdirP (ps : list string)
  | GitMv (src dst : string)
  | Cat (file content : string)
  | GitCheckoutOrphan (b : string)
  | GitCheckout (b : string)
  | GitAdd (ps : list string)
  | GitCommit (msg : string)
  | FindPerl (v : script) (root : string).

Record machine := Machine {
  wld : world;
  out : list chunk;       (* standard output, oldest first *)
  ran : list action       (* the commands that took effect, oldest first *)
}.

Inductive result (A : Type) :=
  | Ok (a : A) (m : machine)
  | Exit (code : nat) (m : machine).
Arguments Ok {A} a m.
Arguments Exit {A} code m.

Definition final {A} (r : result A) : machine :=
  match r with Ok _ m => m | Exit _ m => m end.

Definition status {A} (r : result A) : nat :=
  match r with Ok _ _ => 0 | Exit c _ => c end.

(** Under [set -e] a failing command ends the script: [Exit] is sticky. *)
Definition sh (A : Type) : Type := machine -> result A.

Definition ret {A} (a : A) : sh A := fun m => Ok a m.

Definition bind {A B} (c : sh A) (k : A -> sh B) : sh B :=
  fun m => match c m with
           | Ok a m' => k a m'
           | Exit code m' => Exit code m'
           end.

#[global] Instance sh_ret : MRet sh := @ret.
#[global] Instance sh_bind : MBind sh := fun A B k c => bind c k.

Definition exit {A} (code : nat) : sh A := fun m => Exit code m.

Definition emit (c : chunk) : sh unit :=
  fun m => Ok tt (Machine (wld m) (out m ++ [c]) (ran m)).

Definition echo (s : string) : sh unit := emit (Line s).
Definition log (s : string) : sh unit := emit (Header s).

Definition ask {A} (f : world -> A) : sh A := fun m => Ok (f (wld m)) m.

Definition when (b : bool) (c : sh unit) : sh unit := if b then c else ret tt.

Fixpoint for_each {A} (xs : list A) (body : A -> sh unit) : sh unit :=
  match xs with
  | [] => ret tt
  | x :: xs' => body x ;; for_each xs' body
  end.

(** The truth value Python gives a list. *)
Definition truthy {A} (l : list A) : bool :=
  match l with [] => false | _ => true end.

(** The bytes a chunk stands for. *)
Definition esc : ascii := "027"%char.
Definition render (c : chunk) : string :=
  match c with
  | Line s => s +:+ str1 nl
  | Header s =>
      str1 nl +:+ str1 esc +:+ "[1m" +:+ s +:+ str1 esc +:+ "[0m" +:+ str1 nl
  | Tool _ => ""
  end.

(** The headers, in the order they were printed: the phases a run reports. *)
Definition phases (o : list chunk) : list string :=
  omap (fun c => match c with Header s => Some s | _ => None end) o.

(** ** Running commands *)

Definition rewriter (v : script) : string -> string :=
  match v with
  | Reorg => Perl.rewrite_html
  | AppJs => Perl.rewrite_html_appjs
  end.

Definition effect (a : action) (w : world) : option world :=
  match a with
  | Tar f => tar_to f w
  | MkdirP ps => mkdir_p_all ps w
  | GitMv s d => git_mv s d w
  | Cat f c => write_file f c w
  | GitCheckoutOrphan b => git_checkout_orphan b w
  | GitCheckout b => git_checkout b w
  | GitAdd ps => git_add ps w
  | GitCommit msg => git_commit msg w
  | FindPerl v root => find_perl (rewriter v) root w
  end.

(** The exit status of a command that fails. *)
Definition failure (a : action) : nat :=
  match a with
  | Tar _ => 2
  | GitMv _ _ | GitCheckoutOrphan _ | GitAdd _ => 128
  | _ => 1
  end.

(** A command at top level: its failure ends the script. *)
Definition exec (a : action) : sh unit :=
  fun m =>
    match effect a (wld m) with
    | Some w' => Ok tt (Machine w' (out m) (ran m ++ [a]))
    | None => Exit (failure a) m
    end.

(** [command >/dev/null 2>&1 || true] *)
Definition attempt (a : action) : sh unit :=
  fun m =>
    match effect a (wld m) with
    | Some w' => Ok tt (Machine w' (out m) (ran m ++ [a]))
    | None => Ok tt m
    end.

(** [run]: with DRYRUN=1 the command line is printed, otherwise it is
    evaluated.  [text] is the command line, [body] what evaluating it does. *)
Definition run (dry : bool) (text : string) (body : sh unit) : sh unit :=
  if dry then echo ("[DRYRUN] " +:+ text) else body.

Definition quoted (s : string) : string := str1 dq +:+ s +:+ str1 dq.

Definition is_slash (c : ascii) : bool := Ascii.eqb c "/".

(** [dirname] of coreutils. *)
Definition sh_dirname (s : string) : string :=
  let t := Py.rstrip_by is_slash s in
  if Py.is_empty t then (if Py.is_empty s then "." else "/")
  else
    let h := Py.upto_last_slash t in
    if Py.is_empty h then "."
    else let h' := Py.rstrip_by is_slash h in
         if Py.is_empty h' then "/" else h'.

Definition unlines (ls : list string) : string :=
  foldr (fun l acc => l +:+ String nl acc) "" ls.

(* ===================================================================== *)
(** * [scripts/reorg-site.sh] *)
(* ===================================================================== *)

(** The script is run with [WEBROOT] and [DRYRUN] from the environment;
    they are the parameters [root] and [dry] below.  The embedding reads
    command lines the way bash does when [root] holds no character that is
    special inside double quotes. *)

Module ReorgSite.

Definition require_clean_git : sh unit :=
  inside ← ask inside_repo;
  (if negb inside
   then echo "ERROR: Not inside a git repository." ;; exit 1
   else ret tt) ;;
  clean ← ask status_clean;
  if negb clean
  then echo "ERROR: Working tree not clean. Commit/stash first." ;;
       emit (Tool "git status --porcelain") ;;
       exit 1
  else ret tt.

Definition backup_name (w : world) : string :=
  "backup_before_reorg_" +:+ clock w +:+ ".tar.gz".

Definition backup_repo (dry : bool) : sh unit :=
  backup ← ask backup_name;
  log ("Creating backup: " +:+ backup) ;;
  run dry ("tar --exclude='./.git' --exclude='./node_modules' -czf '"
           +:+ backup +:+ "' .")
      (exec (Tar backup)) ;;
  echo ("Backup created: " +:+ backup).

Definition is_tracked (p : string) : sh bool := ask (fun w => tracked w p).

Definition git_mv_if_exists_and_tracked (dry : bool) (src dst : string) : sh unit :=
  e ← ask (fun w => exists_at w src);
  t ← (if e then is_tracked src else ret false);
  if e && t
  then run dry ("mkdir -p " +:+ quoted (sh_dirname dst))
           (exec (MkdirP [sh_dirname dst])) ;;
       run dry ("git mv " +:+ quoted src +:+ " " +:+ quoted dst)
           (exec (GitMv src dst))
  else echo ("Skipping (not tracked or missing): " +:+ src).

(** The document of the redirect stub. *)
Definition stub_html (target : string) : string :=
  unlines
    [ "<!DOCTYPE html>";
      "<html lang=" +:+ quoted "en" +:+ ">";
      "<head>";
      "  <meta charset=" +:+ quoted "UTF-8" +:+ " />";
      "  <meta http-equiv=" +:+ quoted "refresh" +:+ " content="
        +:+ quoted ("0; url=" +:+ target) +:+ " />";
      "  <link rel=" +:+ quoted "canonical" +:+ " href=" +:+ quoted target +:+ " />";
      "  <title>Redirecting…</title>";
      "  <script>window.location.replace(" +:+ quoted target +:+ ");</script>";
      "</head>";
      "<body>";
      "  <p>This page has moved. <a href=" +:+ quoted target
        +:+ ">Click here if you are not redirected.</a></p>";
      "</body>";
      "</html>" ].

Definition write_redirect_stub (dry : bool) (file target : string) : sh unit :=
  run dry ("cat > " +:+ quoted file +:+ " <<'HTML'" +:+ str1 nl
           +:+ stub_html target +:+ "HTML")
      (exec (Cat file (stub_html target))).

Definition rewrite_asset_paths (dry : bool) (root : string) : sh unit :=
  log "Rewriting asset paths in HTML to /assets/... (safe for nested pages)" ;;
  if dry then echo ("[DRYRUN] Would rewrite paths under " +:+ root)
  else exec (FindPerl Reorg root).

(** *** The Python program of [link_check] *)

Definition is_ignored (u : string) : bool :=
  let u := Py.strip u in
  if Py.is_empty u || starts_with "#" u then true
  else
    let low := Py.lower u in
    starts_with "http://" low || starts_with "https://" low
    || starts_with "mailto:" low || starts_with "tel:" low
    || starts_with "javascript:" low
    || starts_with "data:" low.

Definition normalize_url (u : string) : string :=
  Py.strip (Py.before "?" (Py.before "#" u)).

(** The two tests that make the loop [continue]. *)
Definition skipped (url : string) : bool := is_ignored url || starts_with "//" url.

(** The file a local reference is expected at. *)
Definition candidate (root file url : string) : string :=
  if starts_with "/" url then Py.join root (Py.lstrip_slash url)
  else Py.normpath (Py.join (Py.dirname file) url).

Definition with_index (w : world) (target : string) : string :=
  if isdir_at w target then Py.join target "index.html" else target.

(** The body of the loop over [attr_re.findall(html)]: the entries one
    reference adds to [bad]. *)
Definition check_ref (w : world) (root file raw : string)
  : list (string * string * string) :=
  let url := normalize_url raw in
  if is_ignored url then []
  else if starts_with "//" url then []
  else
    let target := with_index w (candidate root file url) in
    if exists_at w target then [] else [(file, url, target)].

(** The list [bad] when the loops are done. *)
Definition check_links (w : world) (root : string) : list (string * string * string) :=
  flat_map (fun fh : string * string =>
              flat_map (check_ref w root fh.1) (Py.findall true fh.2))
           (walk_html w root).

Definition report (v : string * string * string) : list string :=
  [ "- In: " +:+ v.1.1; "  url: " +:+ v.1.2; "  expected: " +:+ v.2; "" ].

Definition link_check (dry : bool) (root : string) : sh unit :=
  log "Running local link check (href/src → file exists)" ;;
  if dry then echo ("[DRYRUN] Would run link check under " +:+ root)
  else
    bad ← ask (fun w => check_links w root);
    if truthy bad
    then echo "" ;; echo "BROKEN LINKS FOUND:" ;;
         for_each (flat_map report bad) echo ;;
         exit 2
    else echo "Link check passed.".

(** *** [main] *)

Definition top_level_dirs : list string := ["css"; "js"; "img"; "downloads"; "JC"].

Definition top_level_files : list string :=
  [ "index.html"; "jc_guide.html"; "jc-october-2025.html"; "JC-2025-10-14.html";
    "JC-JAN-2026.html"; "summary-2025.html"; "JC-Pre-session-Sept-2025.pdf" ].

Definition commit_if_changed (dry : bool) (msg otherwise : string) : sh unit :=
  when (negb dry)
    (clean ← ask status_clean;
     if negb clean then exec (GitCommit msg) else echo otherwise).

(** Step 1: move the tracked site content into the web root. *)
Definition flatten (dry : bool) (root : string) : sh unit :=
  log ("Moving tracked site content into " +:+ root +:+ " (git mv)") ;;
  for_each top_level_dirs
    (fun d => git_mv_if_exists_and_tracked dry d (root +:+ "/" +:+ d)) ;;
  for_each top_level_files
    (fun f => git_mv_if_exists_and_tracked dry f (root +:+ "/" +:+ f)) ;;
  commit_if_changed dry
    ("chore: move site content into " +:+ root +:+ " web root")
    "No tracked moves detected (maybe already moved).".

Definition mkdirs (dry : bool) (ps : list string) : sh unit :=
  run dry ("mkdir -p " +:+ String.concat " " (quoted <$> ps)) (exec (MkdirP ps)).

Definition move_assets (dry : bool) (root : string) : sh unit :=
  for_each ["css"; "js"; "img"]
    (fun a =>
       d ← ask (fun w => isdir_at w (root +:+ "/" +:+ a));
       when d (git_mv_if_exists_and_tracked dry (root +:+ "/" +:+ a)
                 (root +:+ "/assets/" +:+ a))).

Definition git_mv_run (dry : bool) (src dst : string) : sh unit :=
  run dry ("git mv " +:+ quoted src +:+ " " +:+ quoted dst) (exec (GitMv src dst)).

Definition git_add_unless (dry : bool) (ps : list string) : sh unit :=
  when (negb dry) (exec (GitAdd ps)).

Definition relocate_guide (dry : bool) (root : string) : sh unit :=
  g ← ask (fun w => isfile_at w (root +:+ "/jc_guide.html"));
  when g
    (git_mv_run dry (root +:+ "/jc_guide.html") (root +:+ "/guide/index.html") ;;
     run dry "git checkout --orphan __tmp__ >/dev/null 2>&1 || true"
         (attempt (GitCheckoutOrphan "__tmp__")) ;;
     run dry "git checkout main >/dev/null 2>&1 || true"
         (attempt (GitCheckout "main")) ;;
     write_redirect_stub dry (root +:+ "/jc_guide.html") "/guide/" ;;
     git_add_unless dry [root +:+ "/jc_guide.html"]).

Definition relocate_october (dry : bool) (root : string) : sh unit :=
  dated ← ask (fun w => isfile_at w (root +:+ "/JC-2025-10-14.html"));
  named ← ask (fun w => isfile_at w (root +:+ "/jc-october-2025.html"));
  let oct_src :=
    if (dated : bool) then root +:+ "/JC-2025-10-14.html"
    else if (named : bool) then root +:+ "/jc-october-2025.html"
    else "" in
  when (negb (Py.is_empty oct_src))
    (git_mv_run dry oct_src (root +:+ "/sessions/2025/10/index.html") ;;
     write_redirect_stub dry (root +:+ "/JC-2025-10-14.html") "/sessions/2025/10/" ;;
     write_redirect_stub dry (root +:+ "/jc-october-2025.html") "/sessions/2025/10/" ;;
     git_add_unless dry
       [root +:+ "/JC-2025-10-14.html"; root +:+ "/jc-october-2025.html"]).

Definition relocate_page (dry : bool) (root legacy dest target : string) : sh unit :=
  f ← ask (fun w => isfile_at w (root +:+ "/" +:+ legacy));
  when f
    (git_mv_run dry (root +:+ "/" +:+ legacy) (root +:+ "/" +:+ dest) ;;
     write_redirect_stub dry (root +:+ "/" +:+ legacy) target ;;
     git_add_unless dry [root +:+ "/" +:+ legacy]).

(** Step 2: build the clean structure inside the web root. *)
Definition restructure (dry : bool) (root : string) : sh unit :=
  log ("Creating clean structure under " +:+ root) ;;
  mkdirs dry [root +:+ "/assets/css"; root +:+ "/assets/js"; root +:+ "/assets/img"] ;;
  mkdirs dry [root +:+ "/guide"] ;;
  mkdirs dry [root +:+ "/sessions/2025/10"; root +:+ "/sessions/2026/01"] ;;
  mkdirs dry [root +:+ "/summaries/2025"] ;;
  move_assets dry root ;;
  relocate_guide dry root ;;
  relocate_october dry root ;;
  relocate_page dry root "JC-JAN-2026.html" "sessions/2026/01/index.html"
    "/sessions/2026/01/" ;;
  relocate_page dry root "summary-2025.html" "summaries/2025/index.html"
    "/summaries/2025/".

Definition next_steps (root : string) : sh unit :=
  log "DONE" ;;
  echo "Next steps:" ;;
  echo ("1) GitHub: Settings → Pages → Source: main branch → Folder: /" +:+ root) ;;
  echo ("2) DreamHost: upload " +:+ root +:+ "/* to your web root") ;;
  echo "3) Test legacy URLs and new clean URLs".

Definition main (dry : bool) (root : string) : sh unit :=
  require_clean_git ;;
  backup_repo dry ;;
  log ("Preparing web root: " +:+ root) ;;
  mkdirs dry [root] ;;
  flatten dry root ;;
  restructure dry root ;;
  rewrite_asset_paths dry root ;;
  link_check dry root ;;
  commit_if_changed dry
    "refactor: organize site into sessions, guide, assets with legacy redirects"
    "No changes to commit (already organized?)." ;;
  next_steps root.

End ReorgSite.

(* ===================================================================== *)
(** * The copy of the script kept at the end of [docs/assets/js/app.js] *)
(* ===================================================================== *)

Module AppJsCopy.

Definition require_clean_git : sh unit :=
  inside ← ask inside_repo;
  (if negb inside
   then echo "ERROR: Not inside a git repository." ;; exit 1
   else ret tt) ;;
  clean ← ask status_clean;
  if negb clean
  then echo "ERROR: Working tree not clean. Commit or stash first." ;;
       emit (Tool "git status --porcelain") ;;
       exit 1
  else ret tt.

Definition backup_repo (dry : bool) : sh unit :=
  backup ← ask ReorgSite.backup_name;
  log ("Creating backup: " +:+ backup) ;;
  run dry ("tar     --exclude='./.git'     --exclude='./node_modules'"
           +:+ "     --exclude='backup_before_reorg_*.tar.gz'     -czf '"
           +:+ backup +:+ "' .")
      (exec (Tar backup)) ;;
  echo ("Backup written: " +:+ backup +:+ " (local only)").

Definition git_mv_if_tracked (dry : bool) (src dst : string) : sh unit :=
  e ← ask (fun w => exists_at w src);
  t ← (if e then ReorgSite.is_tracked src else ret false);
  if e && t
  then run dry ("mkdir -p " +:+ quoted (sh_dirname dst))
           (exec (MkdirP [sh_dirname dst])) ;;
       run dry ("git mv " +:+ quoted src +:+ " " +:+ quoted dst)
           (exec (GitMv src dst))
  else echo ("Skipping (not tracked or missing): " +:+ src).

Definition stub_html (target : string) : string :=
  unlines
    [ "<!DOCTYPE html>";
      "<html lang=" +:+ quoted "en" +:+ ">";
      "<head>";
      "  <meta charset=" +:+ quoted "UTF-8" +:+ " />";
      "  <meta http-equiv=" +:+ quoted "refresh" +:+ " content="
        +:+ quoted ("0; url=" +:+ target) +:+ " />";
      "  <link rel=" +:+ quoted "canonical" +:+ " href=" +:+ quoted target +:+ " />";
      "  <title>Redirecting…</title>";
      "  <script>window.location.replace(" +:+ quoted target +:+ ");</script>";
      "</head>";
      "<body>";
      "  <p>This page has moved.";
      "     <a href=" +:+ quoted target +:+ ">Click here if not redirected.</a></p>";
      "</body>";
      "</html>" ].

Definition write_redirect_stub (dry : bool) (file target : string) : sh unit :=
  run dry ("cat > " +:+ quoted file +:+ " <<HTML" +:+ str1 nl
           +:+ stub_html target +:+ "HTML")
      (exec (Cat file (stub_html target))).

Definition rewrite_asset_paths (dry : bool) (root : string) : sh unit :=
  log "Normalizing asset paths to /assets/..." ;;
  if dry then echo "[DRYRUN] Skipping rewrite"
  else exec (FindPerl AppJs root).

Definition ignore (u : string) : bool :=
  let u := Py.lower (Py.strip u) in
  Py.is_empty u || starts_with "#" u
  || existsb (fun p => starts_with p u)
       ["http:"; "https:"; "mailto:"; "tel:"; "javascript:"; "data:"; "//"].

Definition check_ref (w : world) (root file raw : string)
  : list (string * string * string) :=
  if ignore raw then []
  else
    let u := Py.before "?" (Py.before "#" raw) in
    let tgt := ReorgSite.with_index w (ReorgSite.candidate root file u) in
    if exists_at w tgt then [] else [(file, u, tgt)].

Definition check_links (w : world) (root : string) : list (string * string * string) :=
  flat_map (fun fh : string * string =>
              flat_map (check_ref w root fh.1) (Py.findall false fh.2))
           (walk_html w root).

Definition report (v : string * string * string) : list string :=
  [ "- " +:+ v.1.1; "  " +:+ v.1.2 +:+ " → " +:+ v.2 ].

Definition link_check (dry : bool) (root : string) : sh unit :=
  log "Running internal link check" ;;
  if dry then echo "[DRYRUN] Skipping link check"
  else
    bad ← ask (fun w => check_links w root);
    if truthy bad
    then echo "BROKEN LINKS:" ;;
         for_each (flat_map report bad) echo ;;
         exit 2
    else echo "Link check passed.".

Definition phase1 (dry : bool) (root : string) : sh unit :=
  log "Phase 1: moving tracked content" ;;
  for_each ReorgSite.top_level_dirs
    (fun d => git_mv_if_tracked dry d (root +:+ "/" +:+ d)) ;;
  for_each ReorgSite.top_level_files
    (fun f => git_mv_if_tracked dry f (root +:+ "/" +:+ f)).

Definition structure_dirs (root : string) : list string :=
  [ root +:+ "/assets/css"; root +:+ "/assets/js"; root +:+ "/assets/img";
    root +:+ "/guide"; root +:+ "/sessions/2025/10"; root +:+ "/sessions/2026/01";
    root +:+ "/summaries/2025" ].

Definition phase2 (dry : bool) (root : string) : sh unit :=
  log "Phase 2: sessions, guide, assets, redirects" ;;
  run dry ("mkdir -p     " +:+ String.concat "     " (quoted <$> structure_dirs root))
      (exec (MkdirP (structure_dirs root))) ;;
  for_each ["css"; "js"; "img"]
    (fun a => git_mv_if_tracked dry (root +:+ "/" +:+ a) (root +:+ "/assets/" +:+ a)) ;;
  g ← ask (fun w => isfile_at w (root +:+ "/jc_guide.html"));
  when g
    (ReorgSite.git_mv_run dry (root +:+ "/jc_guide.html") (root +:+ "/guide/index.html") ;;
     write_redirect_stub dry (root +:+ "/jc_guide.html") "/guide/") ;;
  dated ← ask (fun w => isfile_at w (root +:+ "/JC-2025-10-14.html"));
  when dated
    (ReorgSite.git_mv_run dry (root +:+ "/JC-2025-10-14.html")
       (root +:+ "/sessions/2025/10/index.html") ;;
     write_redirect_stub dry (root +:+ "/JC-2025-10-14.html") "/sessions/2025/10/" ;;
     named ← ask (fun w => isfile_at w (root +:+ "/jc-october-2025.html"));
     when named
       (write_redirect_stub dry (root +:+ "/jc-october-2025.html") "/sessions/2025/10/")).

Definition next_steps (root : string) : sh unit :=
  log "Reorganization complete" ;;
  echo "Next:" ;;
  echo "  • Review changes" ;;
  echo "  • git commit" ;;
  echo "  • git push" ;;
  echo ("  • Enable GitHub Pages → /" +:+ root).

Definition main (dry : bool) (root : string) : sh unit :=
  require_clean_git ;;
  backup_repo dry ;;
  log ("Preparing publish root: " +:+ root) ;;
  run dry ("mkdir -p " +:+ quoted root) (exec (MkdirP [root])) ;;
  phase1 dry root ;;
  phase2 dry root ;;
  rewrite_asset_paths dry root ;;
  link_check dry root ;;
  next_steps root.

End AppJsCopy.

(* ===================================================================== *)
(** * Specification side *)
(* ===================================================================== *)

(** ** Triples

    [hoare P c Q E]: from a machine satisfying [P], the command [c] either
    returns [a] in a machine satisfying [Q a], or ends the script in a
    machine satisfying [E]. *)
Definition hoare {A} (P : machine -> Prop) (c : sh A)
    (Q : A -> machine -> Prop) (E : machine -> Prop) : Prop :=
  forall m, P m ->
    match c m with
    | Ok a m' => Q a m'
    | Exit _ m' => E m'
    end.

(** A property of the world and of the commands that ran, whatever was
    printed. *)
Definition quiet (P : machine -> Prop) : Prop :=
  forall w o o' r, P (Machine w o r) -> P (Machine w o' r).

(** ** The link checker as the specification words it

    A value is ignorable when it is empty, anchor-only, or prefixed by a
    known scheme or by two slashes. *)
Module Spec.






(** A message that describes a step names it: [word] occurs in some chunk
    of the output. *)
Definition mentions (word : string) (o : list chunk) : bool :=
  existsb (fun c => match String.index 0 word (render c) with
                    | Some _ => true
                    | None => false
                    end) o.

End Spec.

(** ** The relocations of step 2: legacy name, new place, redirect target *)
Definition relocations : list (string * string * string) :=
  [ ("jc_guide.html", "guide/index.html", "/guide/");
    ("JC-2025-10-14.html", "sessions/2025/10/index.html", "/sessions/2025/10/");
    ("jc-october-2025.html", "sessions/2025/10/index.html", "/sessions/2025/10/");
    ("JC-JAN-2026.html", "sessions/2026/01/index.html", "/sessions/2026/01/");
    ("summary-2025.html", "summaries/2025/index.html", "/summaries/2025/") ].

(** [contains x s]: [x] occurs in [s]. *)
Definition contains (x s : string) : Prop :=
  exists pre post, s = pre +:+ x +:+ post.

(** A run of the script from a world. *)
Definition start (w : world) : machine := Machine w [] [].

(* ===================================================================== *)
(** * Example repositories *)
(* ===================================================================== *)

(** A clean repository on branch [main] whose last commit holds exactly the
    files [fl]; backup archives are ignored by git; [tar] works. *)
Definition committed (fl : list (path * string)) : world :=
  World true (list_to_map fl)
    (list_to_set (flat_map (fun kc : path * string => prefixes (parent kc.1)) fl))
    (list_to_map fl) "main" {[ "main" := list_to_map fl ]} []
    (fun p => match p with
              | [f] => starts_with "backup_before_reorg_" f
              | _ => false
              end)
    "20260101_000000" true.

Definition anchor (href text : string) : string :=
  "<a href=" +:+ quoted href +:+ ">" +:+ text +:+ "</a>".

(** A guide and a home page that link to each other. *)
Definition small_site : world :=
  committed [ (["jc_guide.html"], anchor "index.html" "home");
              (["index.html"], anchor "jc_guide.html" "guide") ].

(** A guide that loads a style sheet through a legacy path; the style sheet
    already sits under the publish root. *)
Definition styled_site : world :=
  committed [ (["jc_guide.html"], "<link href=" +:+ quoted "css/site.css" +:+ ">");
              (["docs"; "assets"; "css"; "site.css"], "body{}") ].

(** A published page with a reference that carries only a query, and one
    whose target is missing. *)
Definition query_site : world :=
  committed [ (["docs"; "a.html"], anchor "?page=2" "next") ].



(* ===================================================================== *)
(** * Properties of a run *)
(* ===================================================================== *)

(** ** Output and phases *)

(** The machine after the chunks [cs] were printed. *)
Definition printed (m : machine) (cs : list chunk) : machine :=
  Machine (wld m) (out m ++ cs) (ran m).

(** What the rewriter [rw] makes of the files below [r]. *)
Definition rewrite_files (rw : string -> string) (r : path) (f : tree) : tree :=
  map_imap (fun k c => Some (if under r k && html_name k then rw c else c)) f.

(** The run has reported the phases [l], in this order. *)
Definition reported (l : list string) (m : machine) : Prop := phases (out m) = l.

(** The headers of a complete run, in order. *)
Definition phase_list (root : string) (w : world) : list string :=
  [ "Creating backup: " +:+ ReorgSite.backup_name w;
    "Preparing web root: " +:+ root;
    "Moving tracked site content into " +:+ root +:+ " (git mv)";
    "Creating clean structure under " +:+ root;
    "Rewriting asset paths in HTML to /assets/... (safe for nested pages)";
    "Running local link check (href/src → file exists)";
    "DONE" ].

(** [main] after the preflight check. *)
Definition after_preflight (dry : bool) (root : string) : sh unit :=
  ReorgSite.backup_repo dry ;;
  log ("Preparing web root: " +:+ root) ;;
  ReorgSite.mkdirs dry [root] ;;
  ReorgSite.flatten dry root ;;
  ReorgSite.restructure dry root ;;
  ReorgSite.rewrite_asset_paths dry root ;;
  ReorgSite.link_check dry root ;;
  ReorgSite.commit_if_changed dry
    "refactor: organize site into sessions, guide, assets with legacy redirects"
    "No changes to commit (already organized?)." ;;
  ReorgSite.next_steps root.



(** ** Commits *)



Definition final_commit : string :=
  "refactor: organize site into sessions, guide, assets with legacy redirects".

(** ** Relocations and stubs *)

(** A slash occurs in [s]. *)
Fixpoint has_slash (s : string) : bool :=
  match s with
  | EmptyString => false
  | String c s' => Ascii.eqb c "/" || has_slash s'
  end.

(** The command that relocates the page [l] to [d] under [root]. *)
Definition relo (root l d : string) : action :=
  GitMv (root +:+ "/" +:+ l) (root +:+ "/" +:+ d).

(** The path rewriter has not run yet. *)
Definition unrewritten (root : string) (m : machine) : Prop :=
  ~ In (FindPerl Reorg root) (ran m).

(** Every relocation among [ls] that has taken place left its stub. *)
Definition stubbed_for (root : string) (dir : path) (ls : list string)
    (m : machine) : Prop :=
  forall l d t, In (l, d, t) relocations -> In l ls ->
    In (relo root l d) (ran m) ->
    files (wld m) !! (dir ++ [l]) = Some (ReorgSite.stub_html t).

(** No relocation among [ls] has taken place. *)
Definition pending (root : string) (ls : list string) (m : machine) : Prop :=
  forall l d t, In (l, d, t) relocations -> In l ls -> ~ In (relo root l d) (ran m).

(** The legacy names of the relocations. *)
Definition legacy_names : list string := (fun r => r.1.1) <$> relocations.

(** Step 2 under way: the pages in [done] are dealt with, those in [todo]
    are still to come. *)
Definition underway (root : string) (dir : path) (done todo : list string)
    (m : machine) : Prop :=
  unrewritten root m /\ stubbed_for root dir done m /\ pending root todo m.

(** A command that is no relocation. *)
Definition not_relo (root : string) (a : action) : Prop :=
  forall l d t, In (l, d, t) relocations -> a <> relo root l d.

(** The legacy names, in the order step 2 has dealt with them at its end. *)
Definition all_done : list string :=
  ["summary-2025.html"; "JC-JAN-2026.html"; "jc-october-2025.html";
   "JC-2025-10-14.html"; "jc_guide.html"].

(** ** One path in the world *)

(** Nothing at [p]: no file, no directory, no index entry. *)
Definition absent (p : path) (w : world) : Prop :=
  files w !! p = None /\ (p ∉ dirs w) /\ index w !! p = None.

(** A tracked regular file with content [c] at [p]. *)
Definition holds (p : path) (c : string) (w : world) : Prop :=
  files w !! p = Some c /\ (p ∉ dirs w) /\ is_Some (index w !! p).

(** The command leaves [p] as it is in the working tree and in the index,
    and does not move HEAD. *)
Definition leaves (p : path) (w w' : world) : Prop :=
  files w' !! p = files w !! p /\ (p ∈ dirs w' <-> p ∈ dirs w)
  /\ index w' !! p = index w !! p /\ head_tree w' = head_tree w.

(** ** The guide *)

(** The places of the guide: at the top level, below the root, and where
    the relocation puts it. *)
Definition top_guide : path := ["jc_guide.html"].
Definition legacy_guide (root : string) : path := [root; "jc_guide.html"].
Definition guide_index (root : string) : path := [root; "guide"; "index.html"].

(** The relocation of the guide took place. *)
Definition guide_moved (root : string) (m : machine) : Prop :=
  In (relo root "jc_guide.html" "guide/index.html") (ran m).

(** The guide is the tracked file at [here], nothing is at the places in
    [gone], and HEAD has nothing at the place the guide is to reach. *)
Definition tracks (root c : string) (here : path) (gone : list path)
    (w : world) : Prop :=
  holds here c w /\ Forall (fun p => absent p w) gone
  /\ head_tree w !! guide_index root = None.

(** The root exists and the guide waits at [here]. *)
Definition before_move (root c : string) (here : path) (gone : list path)
    (m : machine) : Prop :=
  unrewritten root m /\ [root] ∈ dirs (wld m) /\ tracks root c here gone (wld m).

(** The guide is at its new place, not yet rewritten. *)
Definition after_move (root c : string) (m : machine) : Prop :=
  unrewritten root m /\ guide_moved root m
  /\ files (wld m) !! guide_index root = Some c.

(** The guide is at its new place, rewritten. *)
Definition rewritten (root c : string) (m : machine) : Prop :=
  guide_moved root m
  /\ files (wld m) !! guide_index root = Some (Perl.rewrite_html c).

(** The tree a run starts from, and the same once the preflight passed. *)
Definition at_start (root c : string) (m : machine) : Prop :=
  unrewritten root m /\ has_slash (clock (wld m)) = false
  /\ holds top_guide c (wld m)
  /\ absent (legacy_guide root) (wld m) /\ absent (guide_index root) (wld m).

Definition checked (root c : string) (m : machine) : Prop :=
  unrewritten root m /\ has_slash (clock (wld m)) = false
  /\ tracks root c top_guide [legacy_guide root; guide_index root] (wld m).

(** The guide just moved: staged at its new place, unknown to HEAD. *)
Definition staged (root c : string) (m : machine) : Prop :=
  after_move root c m
  /\ is_Some (index (wld m) !! guide_index root)
  /\ head_tree (wld m) !! guide_index root = None.

(** ** Characters of a text *)

(** The character [c] occurs in [s]. *)
Fixpoint occurs (c : ascii) (s : string) : bool :=
  match s with
  | EmptyString => false
  | String a s' => Ascii.eqb a c || occurs c s'
  end.

(** ** Further example repositories *)

(** A published site with both October pages, the session directory made. *)
Definition october_site : world :=
  let w := committed [ (["docs"; "JC-2025-10-14.html"], "<h1>14 October</h1>");
                       (["docs"; "jc-october-2025.html"], "<h1>October</h1>") ] in
  default w (mkdir_p "docs/sessions/2025/10" w).

(** A reorganised site under [docs] whose ignore rules are empty. *)
Definition unignored_site : world :=
  World true {[ ["docs"; "index.html"] := "<p>home</p>" ]} {[ ["docs"] ]}
    {[ ["docs"; "index.html"] := "<p>home</p>" ]} "main"
    {[ "main" := {[ ["docs"; "index.html"] := "<p>home</p>" ]} ]} []
    (fun _ => false) "20260101_000000" true.

(** A published site with a style sheet, [assets/css] made. *)
Definition assets_site : world :=
  let w := committed [ (["docs"; "css"; "site.css"], "body{}") ] in
  default w (mkdir_p "docs/assets/css" w).

(** ** An asset directory before [move_assets] *)

(** The file [rest] of the asset directory [a] is tracked below the root,
    [assets/a] is a directory already, and nothing is at the place
    [assets/a/a/rest]. *)
Definition asset_waiting (root a : string) (rest : path) (c : string)
    (m : machine) : Prop :=
  [root] ∈ dirs (wld m) /\ [root; a] ∈ dirs (wld m)
  /\ [root; "assets"; a] ∈ dirs (wld m)
  /\ holds ([root; a] ++ rest) c (wld m)
  /\ absent ([root; "assets"; a; a] ++ rest) (wld m).

(** The file is tracked at [assets/a/a/rest]. *)
Definition asset_nested (root a : string) (rest : path) (c : string)
    (m : machine) : Prop :=
  holds ([root; "assets"; a; a] ++ rest) c (wld m).

(** ** A repository with nothing to move *)

(** None of the top-level names the script moves is present, and the
    archive [b] is neither tracked nor ignored. *)
Definition nothing_to_move (b : string) (w : world) : Prop :=
  index w !! [b] = None /\ ignored w [b] = false
  /\ forall x, In x (ReorgSite.top_level_dirs ++ ReorgSite.top_level_files) ->
       present w [x] = false.

(** The state after the backup: the archive lies in the working tree and
    nothing is staged. *)
Definition archive_untracked (b : string) (m : machine) : Prop :=
  is_Some (files (wld m) !! [b]) /\ index (wld m) = head_tree (wld m)
  /\ nothing_to_move b (wld m).

(* ===================================================================== *)
(** * The page scripts *)
(* ===================================================================== *)

(** The browser side of the site: the classes of [docs/assets/js/app.js]
    (lines 1-319) and a second, stand-alone theme toggle.  The scripts
    act on a handful of elements and on [localStorage]; the state below
    holds what they read and write there.  JavaScript text is given by its
    UTF-8 bytes; [null] and a missing attribute are [None]. *)

Module Dom.

(** [classList], an ordered set of tokens. *)
Definition contains (tok : string) (l : list string) : bool := bool_decide (tok ∈ l).

Definition add (tok : string) (l : list string) : list string :=
  if contains tok l then l else l ++ [tok].

Definition remove (tok : string) (l : list string) : list string :=
  filter (fun c => c <> tok) l.

(** [classList.toggle(tok, force)] *)
Definition toggle_force (tok : string) (force : bool) (l : list string) : list string :=
  if force then add tok l else remove tok l.

(** [localStorage].  A browser may refuse reads, writes or both (storage
    switched off, private browsing, quota); the refused call throws. *)
Record local_storage := {
  items : gmap string string;
  reads : bool;
  writes : bool;
}.

(** [localStorage.getItem(k)]; [None] stands for the exception. *)
Definition getItem (k : string) (ls : local_storage) : option (option string) :=
  if reads ls then Some (items ls !! k) else None.

(** [localStorage.setItem(k, v)]; [None] stands for the exception. *)
Definition setItem (k v : string) (ls : local_storage) : option local_storage :=
  if writes ls
  then Some {| items := <[k := v]> (items ls); reads := reads ls; writes := writes ls |}
  else None.

(** [String(b)] *)
Definition String_of_bool (b : bool) : string := if b then "true" else "false".

(** [s.replace(/c/g, rep)] for a single character [c]. *)
Fixpoint replace_all (c : ascii) (rep : string) (s : string) : string :=
  match s with
  | EmptyString => EmptyString
  | String a s' =>
      if Ascii.eqb a c then rep +:+ replace_all c rep s'
      else String a (replace_all c rep s')
  end.

End Dom.

Module AppJs.

(** [safeTitle] of [printSection], from [document.title]. *)
Definition safeTitle (title : string) : string :=
  Dom.replace_all ">" "&gt;"
    (Dom.replace_all "<" "&lt;"
       (Dom.replace_all "&" "&amp;"
          (match title with EmptyString => "Print" | _ => title end))).

(** ** [class ThemeManager] *)
Module ThemeManager.

Definition KEY : string := "theme".
Definition LIGHT : string := "light".
Definition DARK : string := "dark".

(** What the class reads and writes: the [data-theme] attribute of the
    root element, the storage, and the elements [cache] collects: the
    [display] style of every [.sun-icon] and [.moon-icon], tag name and
    text of every [.theme-label], and the [aria-pressed] attribute of
    [#themeToggle] and [#mobileThemeToggle] where the page has them. *)
Record page := {
  data_theme : option string;
  storage : Dom.local_storage;
  sun : list string;
  moon : list string;
  labels : list (string * string);
  toggle_pressed : option (option string);
  mobile_pressed : option (option string);
}.

Definition set (theme : string) (pg : page) : page :=
  let isDark := String.eqb theme DARK in
  {| data_theme := Some theme;
     storage := match Dom.setItem KEY theme (storage pg) with
                | Some ls => ls
                | None => storage pg
                end;
     sun := map (fun _ => if isDark then "block" else "none") (sun pg);
     moon := map (fun _ => if isDark then "none" else "block") (moon pg);
     labels := map (fun n : string * string =>
                      if String.eqb n.1 "SPAN"
                      then (n.1, if isDark then "Light" else "Dark")
                      else n)
                   (labels pg);
     toggle_pressed := (fun _ => Some (Dom.String_of_bool isDark)) <$> toggle_pressed pg;
     mobile_pressed := (fun _ => Some (Dom.String_of_bool isDark)) <$> mobile_pressed pg |}.

Definition toggle (pg : page) : page :=
  let now := data_theme pg in
  set (if bool_decide (now = Some DARK) then LIGHT else DARK) pg.

(** [pref || this.LIGHT]: the empty string is falsy as [null] is. *)
Definition applyInitial (pg : page) : page :=
  let pref := match Dom.getItem KEY (storage pg) with
              | Some v => v
              | None => None
              end in
  let initial := match pref with
                 | Some EmptyString | None => LIGHT
                 | Some p => p
                 end in
  set initial pg.

(** [init]: [cache] and [bind] leave the page as it is; [bind] makes a
    click on either button call [toggle]. *)
Definition init (pg : page) : page := applyInitial pg.

(** The page after [init] and [n] clicks on the buttons. *)
Definition clicks (n : nat) (pg : page) : page := Nat.iter n toggle (init pg).

End ThemeManager.

(** ** [class MobileMenu] *)
Module MobileMenu.

(** The field [isOpen] with what the class writes on the page: the
    classes of [#hamburger] and [#mobileMenu], [aria-expanded] of the
    former, [aria-hidden] of the latter, and [document.body.style.overflow]. *)
Record state := {
  isOpen : bool;
  hamburger_class : list string;
  menu_class : list string;
  aria_expanded : option string;
  aria_hidden : option string;
  overflow : string;
}.

Definition open (s : state) : state :=
  {| isOpen := true;
     hamburger_class := Dom.add "active" (hamburger_class s);
     menu_class := Dom.add "active" (menu_class s);
     aria_expanded := Some "true";
     aria_hidden := Some "false";
     overflow := "hidden" |}.

Definition close (s : state) : state :=
  {| isOpen := false;
     hamburger_class := Dom.remove "active" (hamburger_class s);
     menu_class := Dom.remove "active" (menu_class s);
     aria_expanded := Some "false";
     aria_hidden := Some "true";
     overflow := "" |}.

Definition toggle (s : state) : state := if isOpen s then close s else open s.

(** Where a click lands: inside [#hamburger]; inside [#mobileMenu], on a
    [.mobile-menu-link] or elsewhere; or outside both. *)
Inductive target := Hamburger | MenuLink | MenuElsewhere | Outside.

Inductive event := Click (t : target) | KeyDown (key : string).

(** [_onDocClick] for a click that is outside the hamburger; [in_menu]
    tells whether it is inside the menu. *)
Definition onDocClick (in_menu : bool) (s : state) : state :=
  if negb (isOpen s) then s
  else if negb in_menu then close s else s.

Definition onKeyDown (key : string) (s : state) : state :=
  if String.eqb key "Escape" && isOpen s then close s else s.

(** The listeners [bind] installs.  The hamburger's listener stops the
    propagation, so the document's does not run after it; a click in the
    menu reaches the menu's listener and then the document's. *)
Definition handle (s : state) (e : event) : state :=
  match e with
  | Click Hamburger => toggle s
  | Click MenuLink => onDocClick true (close s)
  | Click MenuElsewhere => onDocClick true s
  | Click Outside => onDocClick false s
  | KeyDown key => onKeyDown key s
  end.

End MobileMenu.

End AppJs.

(** ** The stand-alone theme toggle *)
Module ThemeToggle.

(** The classes of the root element and the storage. *)
Record state := {
  root_class : list string;
  storage : Dom.local_storage;
}.

Definition apply (theme : string) (s : state) : state :=
  {| root_class := Dom.toggle_force "dark" (String.eqb theme "dark") (root_class s);
     storage := match Dom.setItem "theme" theme (storage s) with
                | Some ls => ls
                | None => storage s
                end |}.

Definition toggle (s : state) : state :=
  apply (if Dom.contains "dark" (root_class s) then "light" else "dark") s.

End ThemeToggle.

(** ** Statements about the page scripts *)

(** One character of a title, escaped. *)
Definition escaped (a : ascii) : string :=
  if Ascii.eqb a "&" then "&amp;"
  else if Ascii.eqb a "<" then "&lt;"
  else if Ascii.eqb a ">" then "&gt;"
  else String a EmptyString.

(** The theme shown after [n] clicks when the page came up with [t0]. *)
Definition theme_after (n : nat) (t0 : string) : string :=
  match n with
  | 0 => t0
  | S _ => if xorb (Nat.odd n) (String.eqb t0 AppJs.ThemeManager.DARK)
           then AppJs.ThemeManager.DARK else AppJs.ThemeManager.LIGHT
  end.

(** The theme [applyInitial] picks on a page with the storage [ls]. *)
Definition initial_theme (ls : Dom.local_storage) : string :=
  match Dom.getItem AppJs.ThemeManager.KEY ls with
  | Some (Some (String a p)) => String a p
  | _ => AppJs.ThemeManager.LIGHT
  end.

(** The menu's flags on the page agree with [isOpen]. *)
Definition in_sync (s : AppJs.MobileMenu.state) : Prop :=
  let o := AppJs.MobileMenu.isOpen s in
  Dom.contains "active" (AppJs.MobileMenu.hamburger_class s) = o
  /\ Dom.contains "active" (AppJs.MobileMenu.menu_class s) = o
  /\ AppJs.MobileMenu.aria_expanded s = Some (Dom.String_of_bool o)
  /\ AppJs.MobileMenu.aria_hidden s = Some (Dom.String_of_bool (negb o))
  /\ AppJs.MobileMenu.overflow s = (if o then "hidden" else "").

(** An event that opens or closes the menu whatever its state. *)
Definition decisive (e : AppJs.MobileMenu.event) : bool :=
  match e with
  | AppJs.MobileMenu.Click AppJs.MobileMenu.Hamburger
  | AppJs.MobileMenu.Click AppJs.MobileMenu.MenuLink => true
  | _ => false
  end.

(** A title escaped character by character. *)
Fixpoint escape_each (s : string) : string :=
  match s with
  | EmptyString => EmptyString
  | String a s' => escaped a +:+ escape_each s'
  end.

(** ** Example pages *)

(** A page as the server sends it: no theme set, light controls shown. *)
Definition fresh_page (ls : Dom.local_storage) : AppJs.ThemeManager.page :=
  {| AppJs.ThemeManager.data_theme := None;
     AppJs.ThemeManager.storage := ls;
     AppJs.ThemeManager.sun := ["none"];
     AppJs.ThemeManager.moon := ["block"];
     AppJs.ThemeManager.labels := [("SPAN", "Dark"); ("BUTTON", "Theme")];
     AppJs.ThemeManager.toggle_pressed := Some None;
     AppJs.ThemeManager.mobile_pressed := None |}.

Definition empty_storage : Dom.local_storage :=
  {| Dom.items := ∅; Dom.reads := true; Dom.writes := true |}.

(** A menu whose markup was left open by hand while the script's field
    says closed. *)
Definition stale_menu : AppJs.MobileMenu.state :=
  {| AppJs.MobileMenu.isOpen := false;
     AppJs.MobileMenu.hamburger_class := ["btn"; "active"];
     AppJs.MobileMenu.menu_class := ["menu"];
     AppJs.MobileMenu.aria_expanded := None;
     AppJs.MobileMenu.aria_hidden := Some "false";
     AppJs.MobileMenu.overflow := "" |}.

(* ===================================================================== *)
(** * Theorems *)
(* ===================================================================== *)

Example rewrite_html_css :
  Perl.rewrite_html ("<link href =" +:+ str1 dq +:+ "css/site.css" +:+ str1 dq +:+ ">")
  = "<link href=" +:+ str1 dq +:+ "/assets/css/site.css" +:+ str1 dq +:+ ">".
Proof. vm_compute. reflexivity. Qed.

(* --------------------------------------------------------------------- *)
(** ** Suffixes: every matcher hands back a suffix of its input *)
(* --------------------------------------------------------------------- *)

#[local] Hint Constructors suffix_of : core.

Lemma suffix_of_trans r s t : suffix_of r s -> suffix_of s t -> suffix_of r t.
Proof. intros Hrs Hst. induction Hst; auto. Qed.

Lemma suffix_of_length r s : suffix_of r s -> String.length r <= String.length s.
Proof. induction 1; simpl; lia. Qed.

Lemma strip_prefix_suffix p s r : strip_prefix p s = Some r -> suffix_of r s.
Proof.
  revert s. induction p as [|a p IH]; intros s H; simpl in H.
  - injection H as <-. auto.
  - destruct s as [|b s]; [discriminate|].
    destruct (Ascii.eqb a b); [|discriminate]. auto.
Qed.

Lemma skip_while_suffix sp s : suffix_of (skip_while sp s) s.
Proof. induction s as [|c s IH]; simpl; auto. destruct (sp c); auto. Qed.

Lemma strip_prefix_cons a p s r :
  strip_prefix (String a p) s = Some r ->
  exists s', s = String a s' /\ strip_prefix p s' = Some r.
Proof.
  simpl. destruct s as [|b s]; [discriminate|].
  destruct (Ascii.eqb_spec a b) as [->|]; [|discriminate]. eauto.
Qed.

Lemma strip_prefix_app p r : strip_prefix p (p +:+ r) = Some r.
Proof. induction p as [|a p IH]; simpl; auto. rewrite Ascii.eqb_refl. exact IH. Qed.

Lemma strip_prefix_Some p s r : strip_prefix p s = Some r -> s = p +:+ r.
Proof.
  revert s. induction p as [|a p IH]; intros s H.
  - simpl in H. injection H as <-. reflexivity.
  - apply strip_prefix_cons in H as (s' & -> & H). simpl. f_equal. auto.
Qed.

Module PerlFacts.
Import Perl.

Lemma lit_suffix t : tail_suffix (lit t).
Proof. intros s r. apply strip_prefix_suffix. Qed.

Lemma attr_name_inv s a r :
  attr_name s = Some (a, r) ->
  (a = "href" /\ s = "href" +:+ r) \/ (a = "src" /\ s = "src" +:+ r).
Proof.
  unfold attr_name. intros H.
  destruct (strip_prefix "href" s) eqn:E1.
  - injection H as <- <-. left. split; [reflexivity|]. now apply strip_prefix_Some.
  - destruct (strip_prefix "src" s) eqn:E2; [|discriminate].
    injection H as <- <-. right. split; [reflexivity|]. now apply strip_prefix_Some.
Qed.

Lemma match_here_inv tail s a rest :
  match_here tail s = Some (a, rest) ->
  exists r1 r2 r3,
    attr_name s = Some (a, r1)
    /\ skip_while space r1 = String "=" r2
    /\ skip_while space r2 = String dq r3
    /\ tail r3 = Some rest.
Proof.
  unfold match_here. intros H.
  destruct (attr_name s) as [[a' r1]|]; [|discriminate].
  destruct (skip_while space r1) as [|c1 r2] eqn:E1; [discriminate|].
  destruct (Ascii.eqb_spec c1 "=") as [->|Hne].
  2:{ exfalso. destruct c1 as [[] [] [] [] [] [] [] []]; try discriminate H. now apply Hne. }
  destruct (skip_while space r2) as [|c2 r3] eqn:E2; [discriminate|].
  destruct (Ascii.eqb_spec c2 dq) as [->|Hne].
  2:{ exfalso. destruct c2 as [[] [] [] [] [] [] [] []]; try discriminate H. now apply Hne. }
  destruct (tail r3) as [r4|] eqn:E3; [|discriminate].
  injection H as <- <-. exists r1, r2, r3. auto.
Qed.

Lemma match_here_intro tail s a r1 r2 r3 rest :
  attr_name s = Some (a, r1) ->
  skip_while space r1 = String "=" r2 ->
  skip_while space r2 = String dq r3 ->
  tail r3 = Some rest ->
  match_here tail s = Some (a, rest).
Proof. unfold match_here. intros -> -> -> ->. reflexivity. Qed.

Lemma match_here_suffix tail s a rest :
  tail_suffix tail -> match_here tail s = Some (a, rest) ->
  exists c s', s = String c s' /\ suffix_of rest s'.
Proof.
  intros Ht H. apply match_here_inv in H as (r1 & r2 & r3 & Ha & H1 & H2 & H3).
  assert (suffix_of rest r2).
  { apply Ht in H3. eapply suffix_of_trans; [exact H3|].
    pose proof (skip_while_suffix space r2) as S2. rewrite H2 in S2.
    eapply suffix_of_trans; [|exact S2]. auto. }
  assert (suffix_of rest r1).
  { pose proof (skip_while_suffix space r1) as S1. rewrite H1 in S1.
    eapply suffix_of_trans; [|exact S1]. auto. }
  apply attr_name_inv in Ha as [[_ ->]|[_ ->]]; simpl; eauto 10.
Qed.

(** *** The scan never runs out of fuel *)

Lemma subst_from_enough tail canon :
  tail_suffix tail ->
  forall n m s, String.length s <= n -> String.length s <= m ->
    subst_from n tail canon s = subst_from m tail canon s.
Proof.
  intros Ht. induction n as [|n IH]; intros m s Hn Hm.
  - destruct s; [|simpl in Hn; lia]. destruct m; reflexivity.
  - destruct m as [|m]; [destruct s; [reflexivity|simpl in Hm; lia]|].
    destruct s as [|c s]; [reflexivity|]. simpl in Hn, Hm.
    cbn [subst_from].
    destruct (match_here tail (String c s)) as [[a rest]|] eqn:E.
    + apply match_here_suffix in E as (c' & s' & Heq & Hsuf); [|exact Ht].
      injection Heq as <- <-. apply suffix_of_length in Hsuf.
      rewrite (IH m rest); [reflexivity|lia|lia].
    + rewrite (IH m s); [reflexivity|lia|lia].
Qed.

Lemma subst_nil tail canon : subst tail canon "" = "".
Proof. reflexivity. Qed.

Lemma subst_hit tail canon c s a rest :
  tail_suffix tail ->
  match_here tail (String c s) = Some (a, rest) ->
  subst tail canon (String c s)
  = a +:+ String "=" (String dq (canon +:+ subst tail canon rest)).
Proof.
  intros Ht E. unfold subst. cbn [String.length subst_from]. rewrite E.
  apply match_here_suffix in E as (c' & s' & Heq & Hsuf); [|exact Ht].
  injection Heq as <- <-. apply suffix_of_length in Hsuf.
  rewrite (subst_from_enough tail canon Ht _ (String.length rest) rest); [reflexivity|lia|lia].
Qed.

Lemma subst_miss tail canon c s :
  match_here tail (String c s) = None ->
  subst tail canon (String c s) = String c (subst tail canon s).
Proof. intros E. unfold subst. cbn [String.length subst_from]. rewrite E. reflexivity. Qed.

(** *** What a substitution can and cannot create *)

Lemma clean_suffix tail r s : suffix_of r s -> clean tail s -> clean tail r.
Proof. induction 1; intros Hc; auto. apply IHsuffix_of. apply Hc. Qed.

Section Scan.
Variable tj : string -> option string.
Variable cj : string.
Hypothesis Hj : tail_suffix tj.

#[local] Abbreviation sub := (subst tj cj).

Lemma sub_copied s a X :
  sub s = String a X ->
  (a <> "h"%char /\ a <> "s"%char) \/ (forall Y, X <> String "r" Y) ->
  exists s0, s = String a s0 /\ X = sub s0 /\ match_here tj s = None.
Proof.
  intros Hs Hside. destruct s as [|c s]; [discriminate|].
  destruct (match_here tj (String c s)) as [[a' rest]|] eqn:E.
  - exfalso. rewrite (subst_hit _ _ _ _ _ _ Hj E) in Hs.
    apply match_here_inv in E as (r1 & _ & _ & Ha & _).
    apply attr_name_inv in Ha as [[-> _]|[-> _]]; simpl in Hs;
      injection Hs as <- <-; destruct Hside as [[H1 H2]|H]; try congruence;
      eapply H; reflexivity.
  - rewrite (subst_miss _ _ _ _ E) in Hs. injection Hs as <- <-. eauto.
Qed.

Lemma lit_through t : safe t = true ->
  forall s r, strip_prefix t (sub s) = Some r ->
    exists r0, strip_prefix t s = Some r0 /\ r = sub r0.
Proof.
  induction t as [|a t IH]; intros Hsafe s r H.
  - simpl in H. injection H as <-. exists s. auto.
  - apply strip_prefix_cons in H as (Y & HY & Hrest).
    simpl in Hsafe. apply andb_prop in Hsafe as [Hsafe Hst].
    apply andb_prop in Hsafe as [Hh Hs].
    apply negb_true_iff in Hh. apply Ascii.eqb_neq in Hh.
    apply sub_copied in HY as (s0 & -> & -> & _).
    + destruct (IH Hst _ _ Hrest) as (r0 & Hr0 & ->).
      exists r0. split; [|reflexivity]. simpl. rewrite Ascii.eqb_refl. exact Hr0.
    + destruct (Ascii.eqb_spec a "s") as [->|Hns]; [|left; auto].
      right. intros Y' ->. destruct t as [|b t]; [discriminate|].
      apply negb_true_iff in Hs. apply Ascii.eqb_neq in Hs.
      apply strip_prefix_cons in Hrest as (? & Heq & _). congruence.
Qed.

Lemma attr_name_through c s a r :
  attr_name (String c (sub s)) = Some (a, r) ->
  exists r0, attr_name (String c s) = Some (a, r0) /\ r = sub r0.
Proof.
  intros H. unfold attr_name in *.
  destruct (strip_prefix "href" (String c (sub s))) as [r'|] eqn:E1.
  - injection H as <- <-.
    apply strip_prefix_cons in E1 as (Y & Heq & E1). injection Heq as -> <-.
    apply lit_through in E1 as (r0 & E1 & ->); [|reflexivity].
    exists r0. cbn [strip_prefix] in *. rewrite Ascii.eqb_refl, E1. auto.
  - destruct (strip_prefix "src" (String c (sub s))) as [r'|] eqn:E2; [|discriminate].
    injection H as <- <-.
    apply strip_prefix_cons in E2 as (Y & Heq & E2). injection Heq as -> <-.
    apply lit_through in E2 as (r0 & E2 & ->); [|reflexivity].
    exists r0. cbn [strip_prefix] in *. rewrite Ascii.eqb_refl, E2.
    change (Ascii.eqb "h" "s") with false. cbn iota. auto.
Qed.

Lemma skip_through x s R :
  x <> "h"%char -> x <> "s"%char ->
  skip_while space (sub s) = String x R ->
  exists s0, skip_while space s = String x s0 /\ R = sub s0.
Proof.
  intros Hh Hs. induction s as [|c s IH]; intros H; [discriminate|].
  destruct (match_here tj (String c s)) as [[a' rest]|] eqn:E.
  - exfalso. rewrite (subst_hit _ _ _ _ _ _ Hj E) in H.
    apply match_here_inv in E as (r1 & _ & _ & Ha & _).
    apply attr_name_inv in Ha as [[-> _]|[-> _]]; simpl in H; congruence.
  - rewrite (subst_miss _ _ _ _ E) in H. simpl in H |- *.
    destruct (space c); [auto|]. injection H as <- <-. eauto.
Qed.

(** A match found in the output was a match of the input, at a place the
    scan copied. *)
Lemma match_through ti s a r :
  (forall s r, ti (sub s) = Some r -> exists r0, ti s = Some r0 /\ r = sub r0) ->
  (forall X, ti (cj +:+ X) = None) ->
  match_here ti (sub s) = Some (a, r) ->
  match_here tj s = None /\ exists r0, match_here ti s = Some (a, r0) /\ r = sub r0.
Proof.
  intros T1 T2 H. destruct s as [|c s]; [discriminate|].
  destruct (match_here tj (String c s)) as [[a' rest]|] eqn:E.
  - exfalso. rewrite (subst_hit _ _ _ _ _ _ Hj E) in H.
    apply match_here_inv in E as (r1 & _ & _ & Ha & _).
    apply attr_name_inv in Ha as [[-> _]|[-> _]];
      unfold match_here in H; simpl in H; rewrite T2 in H; discriminate.
  - split; [reflexivity|]. rewrite (subst_miss _ _ _ _ E) in H.
    apply match_here_inv in H as (r1 & r2 & r3 & Ha & H1 & H2 & H3).
    apply attr_name_through in Ha as (s1 & Ha & ->).
    apply skip_through in H1 as (s2 & H1 & ->); [|discriminate..].
    apply skip_through in H2 as (s3 & H2 & ->); [|discriminate..].
    apply T1 in H3 as (r0 & H3 & ->).
    exists r0. split; [|reflexivity]. eapply match_here_intro; eauto.
Qed.

Lemma clean_sub_id s : clean tj s -> sub s = s.
Proof.
  induction s as [|c s IH]; intros [Hm Hc]; [reflexivity|].
  rewrite (subst_miss _ _ _ _ Hm). f_equal. auto.
Qed.

Lemma attr_name_safe a c Y :
  safe (String a c) = true -> attr_name (String a (c +:+ Y)) = None.
Proof.
  simpl. intros H. apply andb_prop in H as [H _]. apply andb_prop in H as [Hh Hs].
  apply negb_true_iff in Hh. apply Ascii.eqb_neq in Hh.
  unfold attr_name. cbn [strip_prefix].
  destruct (Ascii.eqb_spec "h" a) as [<-|_]; [congruence|].
  destruct (Ascii.eqb_spec "s" a) as [<-|_]; [|reflexivity].
  cbn in Hs. destruct c as [|b c]; [discriminate|]. cbn [String.append].
  apply negb_true_iff in Hs. apply Ascii.eqb_neq in Hs.
  destruct (Ascii.eqb_spec "r" b) as [<-|_]; [congruence|reflexivity].
Qed.

Lemma clean_safe_app ti c Y : safe c = true -> clean ti Y -> clean ti (c +:+ Y).
Proof.
  induction c as [|a c IH]; intros Hs HY; [exact HY|].
  split.
  - cbn [String.append]. unfold match_here. now rewrite attr_name_safe.
  - apply IH; [|exact HY]. simpl in Hs. now apply andb_prop in Hs as [_ ?].
Qed.

Lemma clean_replacement ti a Y :
  (forall X, ti (cj +:+ X) = None) -> safe cj = true ->
  a = "href" \/ a = "src" ->
  clean ti Y -> clean ti (a +:+ String "=" (String dq (cj +:+ Y))).
Proof.
  intros T2 Hc Ha HY.
  assert (Hin : clean ti (cj +:+ Y)) by now apply clean_safe_app.
  destruct Ha as [-> | ->]; cbn [String.append clean];
    repeat (split; [first [reflexivity | unfold match_here; simpl; now rewrite T2]|]);
    exact Hin.
Qed.

(** After the substitution no match of its own pattern is left, and it
    creates no match of a pattern that had none. *)
Lemma clean_sub ti :
  (forall s r, ti (sub s) = Some r -> exists r0, ti s = Some r0 /\ r = sub r0) ->
  (forall X, ti (cj +:+ X) = None) -> safe cj = true ->
  forall s, clean ti s \/ ti = tj -> clean ti (sub s).
Proof.
  intros T1 T2 Hc s. remember (String.length s) as n eqn:Hn.
  revert s Hn. induction n as [n IH] using lt_wf_ind. intros s -> Hs.
  destruct s as [|c s]; [split; [reflexivity|exact I]|].
  destruct (match_here tj (String c s)) as [[a rest]|] eqn:E.
  - rewrite (subst_hit _ _ _ _ _ _ Hj E).
    pose proof E as E'. apply match_here_suffix in E' as (c' & s' & Heq & Hsuf); [|exact Hj].
    injection Heq as <- <-.
    apply clean_replacement; [exact T2|exact Hc| |].
    + apply match_here_inv in E as (r1 & _ & _ & Ha & _).
      apply attr_name_inv in Ha as [[-> _]|[-> _]]; auto.
    + eapply IH; [|reflexivity|].
      * apply suffix_of_length in Hsuf. simpl. lia.
      * destruct Hs as [Hs|Hs]; [left|now right].
        eapply clean_suffix; [|exact Hs]. auto.
  - rewrite (subst_miss _ _ _ _ E). split.
    + destruct (match_here ti (String c (sub s))) as [[a r]|] eqn:Ei; [|reflexivity].
      exfalso. rewrite <- (subst_miss _ _ _ _ E) in Ei.
      apply (match_through ti _ _ _ T1 T2) in Ei as (_ & r0 & Ei & _).
      destruct Hs as [[Hs _] | ->]; congruence.
    + eapply IH; [|reflexivity|]; [simpl; lia|].
      destruct Hs as [[_ Hs]|Hs]; [now left|now right].
Qed.

End Scan.

(** *** One pass of [rewrite_html] leaves nothing to rewrite *)

Ltac through_pass :=
  apply (clean_sub _ _ (lit_suffix _));
  [ apply (lit_through _ _ (lit_suffix _)); reflexivity
  | intros ?; reflexivity
  | reflexivity
  | first [ right; reflexivity | left; through_pass ] ].

Lemma rewrite_html_clean s :
  clean (lit "./css/") (rewrite_html s) /\ clean (lit "css/") (rewrite_html s)
  /\ clean (lit "./js/") (rewrite_html s) /\ clean (lit "js/") (rewrite_html s)
  /\ clean (lit "./img/") (rewrite_html s) /\ clean (lit "img/") (rewrite_html s).
Proof. unfold rewrite_html. repeat split; through_pass. Qed.

Lemma rewrite_html_fixed s :
  clean (lit "./css/") s -> clean (lit "css/") s ->
  clean (lit "./js/") s -> clean (lit "js/") s ->
  clean (lit "./img/") s -> clean (lit "img/") s ->
  rewrite_html s = s.
Proof.
  intros H1 H2 H3 H4 H5 H6. unfold rewrite_html.
  rewrite (clean_sub_id _ _ s H1), (clean_sub_id _ _ s H2), (clean_sub_id _ _ s H3),
    (clean_sub_id _ _ s H4), (clean_sub_id _ _ s H5), (clean_sub_id _ _ s H6).
  reflexivity.
Qed.

Lemma rewrite_html_idem s : rewrite_html (rewrite_html s) = rewrite_html s.
Proof.
  destruct (rewrite_html_clean s) as (H1 & H2 & H3 & H4 & H5 & H6).
  now apply rewrite_html_fixed.
Qed.

End PerlFacts.

(* --------------------------------------------------------------------- *)
(** ** Evaluating the shell monad *)
(* --------------------------------------------------------------------- *)

Ltac sh_unfold :=
  unfold mbind, sh_bind, bind, mret, sh_ret, ret, ask, echo, log, emit, when,
    exit, run in *.

Lemma bind_ok {A B} (c : sh A) (k : A -> sh B) m a m' :
  c m = Ok a m' -> (c ≫= k) m = k a m'.
Proof. sh_unfold. now intros ->. Qed.

Lemma bind_exit {A B} (c : sh A) (k : A -> sh B) m code m' :
  c m = Exit code m' -> (c ≫= k) m = Exit code m'.
Proof. sh_unfold. now intros ->. Qed.

(* --------------------------------------------------------------------- *)
(** ** C3: the tracked move skips what is missing or untracked *)
(* --------------------------------------------------------------------- *)

(** C3.  When the source does not exist, or exists but is not tracked, the
    tracked move of either copy of the script returns normally, prints the
    line [Skipping (not tracked or missing): src], and leaves the world and
    the list of executed commands as they were. *)
Theorem tracked_move_skips (dry : bool) (src dst : string) (m : machine) :
  exists_at (wld m) src = false \/ tracked (wld m) src = false ->
  let skipped :=
    Ok tt (Machine (wld m)
             (out m ++ [Line ("Skipping (not tracked or missing): " +:+ src)])
             (ran m)) in
  ReorgSite.git_mv_if_exists_and_tracked dry src dst m = skipped
  /\ AppJsCopy.git_mv_if_tracked dry src dst m = skipped.
Proof.
  intros H skipped. subst skipped.
  unfold ReorgSite.git_mv_if_exists_and_tracked, AppJsCopy.git_mv_if_tracked,
    ReorgSite.is_tracked.
  sh_unfold. cbn.
  destruct (exists_at (wld m) src) eqn:E; cbn; [|auto].
  destruct H as [H|H]; [discriminate|]. rewrite H. cbn. auto.
Qed.

Lemma tracked_move_skips_witness :
  ReorgSite.git_mv_if_exists_and_tracked false "js" "docs/js" (start small_site)
  = Ok tt (Machine small_site [Line "Skipping (not tracked or missing): js"] []).
Proof.
  apply (tracked_move_skips false "js" "docs/js" (start small_site)).
  left. vm_compute. reflexivity.
Defined.

(* --------------------------------------------------------------------- *)
(** ** C5: which references the link check leaves alone *)
(* --------------------------------------------------------------------- *)

Lemma skipped_check_ref w root file raw :
  ReorgSite.skipped (ReorgSite.normalize_url raw) = true ->
  ReorgSite.check_ref w root file raw = [].
Proof.
  unfold ReorgSite.skipped, ReorgSite.check_ref. intros H.
  destruct (ReorgSite.is_ignored _); [reflexivity|].
  simpl in H. now rewrite H.
Qed.




(* --------------------------------------------------------------------- *)
(** ** Strings: association and containment *)
(* --------------------------------------------------------------------- *)

Lemma app_assoc_s (a b c : string) : (a +:+ b) +:+ c = a +:+ (b +:+ c).
Proof. induction a as [|x a IH]; simpl; [reflexivity|]. now rewrite IH. Qed.

Lemma app_nil_s (a : string) : a +:+ "" = a.
Proof. induction a as [|x a IH]; simpl; [reflexivity|]. now rewrite IH. Qed.

Ltac str_norm :=
  unfold quoted, str1;
  repeat (progress (cbn [String.append]) || rewrite !app_assoc_s).

Lemma contains_within x pre post : contains x (pre +:+ x +:+ post).
Proof. now exists pre, post. Qed.

Lemma contains_before x s t : contains x s -> contains x (s +:+ t).
Proof.
  intros (pre & post & ->). exists pre, (post +:+ t). now rewrite !app_assoc_s.
Qed.

Lemma contains_after x s t : contains x t -> contains x (s +:+ t).
Proof.
  intros (pre & post & ->). exists (s +:+ pre), post. now rewrite !app_assoc_s.
Qed.

Lemma contains_line x l rest : contains x l -> contains x (l +:+ String nl rest).
Proof. apply contains_before. Qed.

Lemma contains_later x l rest : contains x rest -> contains x (l +:+ String nl rest).
Proof. intros H. apply contains_after. now apply (contains_after x (String nl "") rest). Qed.

(* --------------------------------------------------------------------- *)
(** ** C4: the redirect stub *)
(* --------------------------------------------------------------------- *)

Lemma write_file_inv file c w w' :
  write_file file c w = Some w' ->
  exists p, norm file = Some p /\ p <> [] /\ is_dir w p = false
            /\ is_dir w (parent p) = true
            /\ w' = set_files (<[p := c]> (files w)) w.
Proof.
  unfold write_file. destruct (norm file) as [p|]; [|discriminate].
  destruct (bool_decide (p = [])) eqn:E1; [discriminate|].
  destruct (is_dir w p) eqn:E2; [discriminate|].
  destruct (is_dir w (parent p)) eqn:E3; [|discriminate].
  cbn. intros [= <-]. exists p. apply bool_decide_eq_false in E1. auto.
Qed.

Lemma write_file_again file c w w' :
  write_file file c w = Some w' -> write_file file c w' = Some w'.
Proof.
  intros H. apply write_file_inv in H as (p & Hn & Hp & Hd & Hpar & ->).
  unfold write_file. rewrite Hn.
  rewrite (bool_decide_eq_false_2 _ Hp).
  change (is_dir (set_files _ w) p) with (is_dir w p).
  change (is_dir (set_files _ w) (parent p)) with (is_dir w (parent p)).
  rewrite Hd, Hpar. cbn. unfold set_files. cbn. now rewrite insert_insert_eq.
Qed.

(** C4.  When [write_redirect_stub] completes, the file at the given path
    holds the stub for the given target; that document contains the
    meta-refresh tag with content [0; url=target], the canonical link to the
    target, the inline script calling [location.replace] on the target and
    the fallback anchor to the target; and calling it again with the same
    arguments succeeds and leaves the world exactly as it was: the content
    is a function of the target alone. *)
Theorem stub_written (file target : string) (m m' : machine) :
  ReorgSite.write_redirect_stub false file target m = Ok tt m' ->
  let doc := ReorgSite.stub_html target in
  (exists p, norm file = Some p /\ files (wld m') !! p = Some doc)
  /\ contains ("<meta http-equiv=" +:+ quoted "refresh" +:+ " content="
               +:+ quoted ("0; url=" +:+ target) +:+ " />") doc
  /\ contains ("<link rel=" +:+ quoted "canonical" +:+ " href="
               +:+ quoted target +:+ " />") doc
  /\ contains ("<script>window.location.replace(" +:+ quoted target
               +:+ ");</script>") doc
  /\ contains ("<a href=" +:+ quoted target
               +:+ ">Click here if you are not redirected.</a>") doc
  /\ exists m'', ReorgSite.write_redirect_stub false file target m' = Ok tt m''
                 /\ wld m'' = wld m'.
Proof.
  intros H doc. unfold ReorgSite.write_redirect_stub, run, exec in *.
  cbn [effect] in *.
  destruct (write_file file (ReorgSite.stub_html target) (wld m)) as [w'|] eqn:E;
    [|discriminate].
  injection H as <-. cbn [wld].
  split; [|split; [|split; [|split; [|split]]]].
  - apply write_file_inv in E as (p & Hn & _ & _ & _ & ->).
    exists p. split; [exact Hn|]. cbn. apply lookup_insert_eq.
  - subst doc. unfold ReorgSite.stub_html, unlines. cbn [foldr].
    do 4 apply contains_later. apply contains_line.
    exists "  ", "". str_norm. reflexivity.
  - subst doc. unfold ReorgSite.stub_html, unlines. cbn [foldr].
    do 5 apply contains_later. apply contains_line.
    exists "  ", "". str_norm. reflexivity.
  - subst doc. unfold ReorgSite.stub_html, unlines. cbn [foldr].
    do 7 apply contains_later. apply contains_line.
    exists "  ", "". str_norm. reflexivity.
  - subst doc. unfold ReorgSite.stub_html, unlines. cbn [foldr].
    do 10 apply contains_later. apply contains_line.
    exists "  <p>This page has moved. ", "</p>". str_norm. reflexivity.
  - rewrite (write_file_again _ _ _ _ E). eauto.
Qed.

(** The stub written into the publish root of the query site. *)
Lemma stub_written_witness :
  let m' := final (ReorgSite.write_redirect_stub false "docs/old.html" "/guide/"
                     (start query_site)) in
  (exists p, norm "docs/old.html" = Some p
             /\ files (wld m') !! p = Some (ReorgSite.stub_html "/guide/"))
  /\ exists m'', ReorgSite.write_redirect_stub false "docs/old.html" "/guide/" m'
                 = Ok tt m''
                 /\ wld m'' = wld m'.
Proof.
  cbv zeta.
  destruct (stub_written "docs/old.html" "/guide/" (start query_site)
              (final (ReorgSite.write_redirect_stub false "docs/old.html" "/guide/"
                        (start query_site))))
    as (H1 & _ & _ & _ & _ & H2).
  - vm_compute. reflexivity.
  - split; [exact H1|exact H2].
Defined.

(* --------------------------------------------------------------------- *)
(** ** C6: failures before the first mutation *)
(* --------------------------------------------------------------------- *)

Lemma require_clean_git_eval m :
  ReorgSite.require_clean_git m =
    if negb (inside_repo (wld m))
    then Exit 1 (printed m [Line "ERROR: Not inside a git repository."])
    else if negb (status_clean (wld m))
         then Exit 1 (printed m [Line "ERROR: Working tree not clean. Commit/stash first.";
                                 Tool "git status --porcelain"])
         else Ok tt m.
Proof.
  unfold ReorgSite.require_clean_git, printed. sh_unfold. cbn.
  destruct (inside_repo (wld m)); cbn; [|reflexivity].
  destruct (status_clean (wld m)); cbn; [reflexivity|].
  now rewrite <- app_assoc.
Qed.




(* --------------------------------------------------------------------- *)
(** ** C2: rewriting twice is rewriting once *)
(* --------------------------------------------------------------------- *)

Lemma resolve_from_ext w w' :
  dirs w' = dirs w -> (forall p, is_file w' p = is_file w p) ->
  forall cs cur, resolve_from w' cur cs = resolve_from w cur cs.
Proof.
  intros Hd Hf.
  assert (Hdir : forall p, is_dir w' p = is_dir w p)
    by (intros p; unfold is_dir; now rewrite Hd).
  assert (Hpres : forall p, present w' p = present w p)
    by (intros p; unfold present; now rewrite Hdir, Hf).
  induction cs as [|c cs IH]; intros cur; [reflexivity|].
  cbn [resolve_from]. rewrite Hdir, Hpres, !IH. reflexivity.
Qed.

Lemma resolve_ext w w' s :
  dirs w' = dirs w -> (forall p, is_file w' p = is_file w p) ->
  resolve w' s = resolve w s.
Proof. intros Hd Hf. unfold resolve. now rewrite (resolve_from_ext w w' Hd Hf). Qed.

Lemma rewrite_files_lookup rw r f k :
  rewrite_files rw r f !! k
  = (fun c => if under r k && html_name k then rw c else c) <$> f !! k.
Proof.
  unfold rewrite_files. rewrite map_lookup_imap.
  now destruct (f !! k).
Qed.

Lemma rewrite_files_idem rw r f :
  (forall s, rw (rw s) = rw s) ->
  rewrite_files rw r (rewrite_files rw r f) = rewrite_files rw r f.
Proof.
  intros Hrw. apply map_eq. intros k. rewrite !rewrite_files_lookup.
  destruct (f !! k) as [c|]; [|reflexivity]. cbn.
  destruct (under r k && html_name k); [|reflexivity]. now rewrite Hrw.
Qed.

Lemma find_perl_again rw root w w' :
  (forall s, rw (rw s) = rw s) ->
  find_perl rw root w = Some w' -> find_perl rw root w' = Some w'.
Proof.
  intros Hrw. unfold find_perl.
  destruct (resolve w root) as [r|] eqn:Er; [|discriminate].
  intros [= <-].
  rewrite (resolve_ext w); [rewrite Er| reflexivity |].
  - fold (rewrite_files rw r (files w)). cbn [files set_files].
    fold (rewrite_files rw r (rewrite_files rw r (files w))).
    rewrite rewrite_files_idem by exact Hrw. reflexivity.
  - intros p. unfold is_file. cbn [files set_files].
    fold (rewrite_files rw r (files w)). rewrite rewrite_files_lookup.
    apply bool_decide_ext. rewrite !is_Some_alt. now destruct (files w !! p).
Qed.

(** C2.  Whatever the working tree, the dry-run flag and the publish root,
    running [rewrite_asset_paths] a second time leaves the world that the
    first run produced: every file holds the same bytes.  The reason is the
    one the specification gives: the text a pass produces has no place left
    where one of the six legacy patterns matches, so another pass is the
    identity on it. *)
Theorem rewrite_asset_paths_idempotent (dry : bool) (root : string) (m : machine) :
  let once := final (ReorgSite.rewrite_asset_paths dry root m) in
  let twice := final (ReorgSite.rewrite_asset_paths dry root once) in
  wld twice = wld once
  /\ forall s, Perl.rewrite_html (Perl.rewrite_html s) = Perl.rewrite_html s.
Proof.
  split; [|apply PerlFacts.rewrite_html_idem].
  unfold ReorgSite.rewrite_asset_paths, exec. sh_unfold.
  destruct dry; [reflexivity|]. cbn [effect rewriter wld].
  destruct (find_perl Perl.rewrite_html root (wld m)) as [w'|] eqn:E; cbn [final wld].
  - rewrite (find_perl_again _ _ _ _ PerlFacts.rewrite_html_idem E). reflexivity.
  - rewrite E. reflexivity.
Qed.

(* --------------------------------------------------------------------- *)
(** ** Rules for triples *)
(* --------------------------------------------------------------------- *)

Section Rules.
Context {A B : Type}.
Implicit Types P E : machine -> Prop.

Lemma hoare_ret P (a : A) (Q : A -> machine -> Prop) E :
  (forall m, P m -> Q a m) -> hoare P (ret a) Q E.
Proof. intros H m Hm. now apply H. Qed.

Lemma hoare_bind P (c : sh A) (k : A -> sh B) Q R E :
  hoare P c Q E -> (forall a, hoare (Q a) (k a) R E) -> hoare P (c ≫= k) R E.
Proof.
  intros Hc Hk m Hm. specialize (Hc m Hm). sh_unfold.
  destruct (c m) as [a m'|code m']; [|exact Hc]. now apply Hk.
Qed.

Lemma hoare_weaken P P' (c : sh A) Q Q' E E' :
  hoare P' c Q' E' ->
  (forall m, P m -> P' m) -> (forall a m, Q' a m -> Q a m) ->
  (forall m, E' m -> E m) ->
  hoare P c Q E.
Proof.
  intros H HP HQ HE m Hm. specialize (H m (HP m Hm)).
  destruct (c m); auto.
Qed.

Lemma hoare_exit P code (Q : A -> machine -> Prop) E :
  (forall m, P m -> E m) -> hoare P (exit code) Q E.
Proof. intros H m Hm. now apply H. Qed.

Lemma hoare_ask P (f : world -> A) (Q : A -> machine -> Prop) E :
  (forall m, P m -> Q (f (wld m)) m) -> hoare P (ask f) Q E.
Proof. intros H m Hm. now apply H. Qed.

Lemma hoare_if P (b : bool) (c1 c2 : sh A) Q E :
  (b = true -> hoare P c1 Q E) -> (b = false -> hoare P c2 Q E) ->
  hoare P (if b then c1 else c2) Q E.
Proof. intros H1 H2. destruct b; [now apply H1|now apply H2]. Qed.

End Rules.

Lemma hoare_emit P c (Q : unit -> machine -> Prop) E :
  (forall m, P m -> Q tt (printed m [c])) -> hoare P (emit c) Q E.
Proof. intros H m Hm. now apply H. Qed.

Lemma hoare_when P (b : bool) (c : sh unit) (Q : unit -> machine -> Prop) E :
  (b = true -> hoare P c Q E) -> (b = false -> forall m, P m -> Q tt m) ->
  hoare P (when b c) Q E.
Proof. destruct b; intros H1 H2; [auto|]. intros m Hm. now apply H2. Qed.

Lemma hoare_for_each {X} (I : machine -> Prop) (xs : list X) (body : X -> sh unit) E :
  (forall x, In x xs -> hoare I (body x) (fun _ => I) E) ->
  hoare I (for_each xs body) (fun _ => I) E.
Proof.
  induction xs as [|x xs IH]; intros H.
  - now apply hoare_ret.
  - cbn [for_each]. eapply hoare_bind; [apply H; now left|].
    intros ?. apply IH. intros y Hy. apply H. now right.
Qed.

(** A command that took effect: the world changed as [effect] says and the
    command was recorded. *)
Lemma hoare_exec P a (Q : unit -> machine -> Prop) E :
  (forall m w', P m -> effect a (wld m) = Some w' ->
     Q tt (Machine w' (out m) (ran m ++ [a]))) ->
  (forall m, P m -> effect a (wld m) = None -> E m) ->
  hoare P (exec a) Q E.
Proof.
  intros Hok Hno m Hm. unfold exec.
  destruct (effect a (wld m)) eqn:Ee; eauto.
Qed.

Lemma hoare_attempt P a (Q : unit -> machine -> Prop) E :
  (forall m w', P m -> effect a (wld m) = Some w' ->
     Q tt (Machine w' (out m) (ran m ++ [a]))) ->
  (forall m, P m -> effect a (wld m) = None -> Q tt m) ->
  hoare P (attempt a) Q E.
Proof.
  intros Hok Hno m Hm. unfold attempt.
  destruct (effect a (wld m)) eqn:Ee; eauto.
Qed.

(** Under DRYRUN=1 [run] only prints. *)
Lemma quiet_printed I m cs : quiet I -> I m -> I (printed m cs).
Proof. intros Hq. destruct m as [w o r]. apply Hq. Qed.

Lemma run_dry text body m :
  run true text body m = Ok tt (printed m [Line ("[DRYRUN] " +:+ text)]).
Proof. reflexivity. Qed.

(** *** Walking through a script with an invariant

    [walk emit_tac exec_tac] decomposes a triple [hoare I c (fun _ => I) E]
    along the structure of [c].  What is left to the caller: the invariant
    across a printed chunk ([emit_tac]) and across a command that took
    effect or failed ([exec_tac]). *)

Lemma hoare_seq {A B} (I : machine -> Prop) (c : sh A) (k : A -> sh B) Q E :
  hoare I c (fun _ => I) E -> (forall a, hoare I (k a) Q E) ->
  hoare I (c ≫= k) Q E.
Proof. intros Hc Hk. eapply hoare_bind; [exact Hc|exact Hk]. Qed.


Lemma hoare_exc {A} (I E E' : machine -> Prop) (c : sh A) Q :
  hoare I c Q E' -> (forall m, E' m -> E m) -> hoare I c Q E.
Proof. intros H HE. eapply hoare_weaken; [exact H|auto..]. Qed.

Lemma hoare_run I (dry : bool) text body (Q : unit -> machine -> Prop) E :
  (dry = true -> hoare I (echo ("[DRYRUN] " +:+ text)) Q E) ->
  (dry = false -> hoare I body Q E) ->
  hoare I (run dry text body) Q E.
Proof. intros H1 H2. destruct dry; [now apply H1|now apply H2]. Qed.

Ltac walk emit_tac exec_tac :=
  repeat
    lazymatch goal with
    | |- hoare _ (mbind _ _) _ _ => apply hoare_seq; [|intros ?]
    | |- hoare _ (mret _) _ _ => apply hoare_ret; intros ? ?; assumption
    | |- hoare _ (ret _) _ _ => apply hoare_ret; intros ? ?; assumption
    | |- hoare _ (exit _) _ _ => apply hoare_exit; intros ? ?; exec_tac
    | |- hoare _ (ask _) _ _ => apply hoare_ask; intros ? ?; assumption
    | |- hoare _ (ReorgSite.is_tracked _) _ _ => apply hoare_ask; intros ? ?; assumption
    | |- hoare _ (emit _) _ _ => apply hoare_emit; intros ? ?; emit_tac
    | |- hoare _ (echo _) _ _ => apply hoare_emit; intros ? ?; emit_tac
    | |- hoare _ (log _) _ _ => apply hoare_emit; intros ? ?; emit_tac
    | |- hoare _ (when _ _) _ _ =>
        apply hoare_when;
        [ let Hb := fresh "Hb" in intros Hb; cbn in Hb; try discriminate Hb
        | intros ? ? ?; assumption ]
    | |- hoare _ (for_each _ _) _ _ => apply hoare_for_each; intros ? ?
    | |- hoare _ (run _ _ _) _ _ =>
        apply hoare_run;
        let Hb := fresh "Hb" in intros Hb; try discriminate Hb
    | |- hoare _ (exec _) _ _ => apply hoare_exec; intros; exec_tac
    | |- hoare _ (attempt _) _ _ => apply hoare_attempt; intros; exec_tac
    | |- hoare _ (if _ then _ else _) _ _ =>
        apply hoare_if;
        let Hb := fresh "Hb" in intros Hb; try discriminate Hb
    | |- hoare _ (match ?x with _ => _ end) _ _ => destruct x
    | |- hoare _ (let _ := _ in _) _ _ => cbv zeta
    end.

Ltac unfold_reorg :=
  unfold ReorgSite.main, ReorgSite.require_clean_git, ReorgSite.backup_repo,
    ReorgSite.flatten, ReorgSite.restructure, ReorgSite.rewrite_asset_paths,
    ReorgSite.link_check, ReorgSite.commit_if_changed, ReorgSite.next_steps,
    ReorgSite.mkdirs, ReorgSite.move_assets, ReorgSite.relocate_guide,
    ReorgSite.relocate_october, ReorgSite.relocate_page,
    ReorgSite.git_mv_if_exists_and_tracked, ReorgSite.write_redirect_stub,
    ReorgSite.git_mv_run, ReorgSite.git_add_unless.


(* --------------------------------------------------------------------- *)
(** ** C8: the dry run *)
(* --------------------------------------------------------------------- *)

(** With DRYRUN=1 a quiet property of the machine survives the whole of
    [main], in either copy of the script. *)
Lemma dry_main_keeps (I : machine -> Prop) root :
  quiet I -> hoare I (ReorgSite.main true root) (fun _ => I) I.
Proof.
  intros Hq. unfold_reorg.
  walk ltac:(now apply quiet_printed) ltac:(first [assumption | congruence]).
Qed.


(** *** The phases a run reports *)

Lemma phases_app o o' : phases (o ++ o') = phases o ++ phases o'.
Proof. unfold phases. apply omap_app. Qed.

Lemma reported_line l m s : reported l m -> reported l (printed m [Line s]).
Proof. unfold reported, printed. cbn. rewrite phases_app. cbn. now rewrite app_nil_r. Qed.

Lemma reported_tool l m s : reported l m -> reported l (printed m [Tool s]).
Proof. unfold reported, printed. cbn. rewrite phases_app. cbn. now rewrite app_nil_r. Qed.

Lemma reported_header l m s : reported l m -> reported (l ++ [s]) (printed m [Header s]).
Proof. unfold reported, printed. cbn. rewrite phases_app. cbn. now intros ->. Qed.

Lemma hoare_log l s (E : machine -> Prop) :
  hoare (reported l) (log s) (fun _ => reported (l ++ [s])) E.
Proof. apply hoare_emit. intros m. apply reported_header. Qed.

(** A step that prints no header keeps the phases; if it ends the script,
    the run was not a dry run. *)
Ltac keeps_phases :=
  walk ltac:(first [now apply reported_line | now apply reported_tool])
       ltac:(first [ assumption
                   | progress (unfold reported in *; cbn [out] in *); assumption
                   | hnf;
                     match goal with
                     | H : negb ?d = true |- ?d = false => now destruct d
                     | H : ?d = false |- ?d = false => exact H
                     end ]).

Ltac after_log :=
  eapply hoare_bind; [apply hoare_log|intros ?].

Section Phases.
Variable dry : bool.
Variable root : string.
Let E : machine -> Prop := fun _ => dry = false.

Lemma backup_repo_phases m0 :
  hoare (fun m => m = m0) (ReorgSite.backup_repo dry)
    (fun _ => reported (phases (out m0)
                        ++ ["Creating backup: " +:+ ReorgSite.backup_name (wld m0)]))
    E.
Proof.
  unfold ReorgSite.backup_repo.
  apply hoare_bind with (Q := fun a m => m = m0 /\ a = ReorgSite.backup_name (wld m0)).
  { apply hoare_ask. intros m ->. auto. }
  intros a m [-> ->].
  assert (H : hoare (reported (phases (out m0)))
                (log ("Creating backup: " +:+ ReorgSite.backup_name (wld m0)) ;;
                 run dry ("tar --exclude='./.git' --exclude='./node_modules' -czf '"
                          +:+ ReorgSite.backup_name (wld m0) +:+ "' .")
                   (exec (Tar (ReorgSite.backup_name (wld m0)))) ;;
                 echo ("Backup created: " +:+ ReorgSite.backup_name (wld m0)))
                (fun _ => reported (phases (out m0)
                   ++ ["Creating backup: " +:+ ReorgSite.backup_name (wld m0)])) E).
  { after_log. keeps_phases. }
  exact (H m0 eq_refl).
Qed.

Lemma flatten_phases l :
  hoare (reported l) (ReorgSite.flatten dry root)
    (fun _ => reported (l ++ ["Moving tracked site content into " +:+ root +:+ " (git mv)"]))
    E.
Proof. unfold_reorg. after_log. keeps_phases. Qed.

Lemma restructure_phases l :
  hoare (reported l) (ReorgSite.restructure dry root)
    (fun _ => reported (l ++ ["Creating clean structure under " +:+ root])) E.
Proof. unfold_reorg. after_log. keeps_phases. Qed.

Lemma rewrite_phases l :
  hoare (reported l) (ReorgSite.rewrite_asset_paths dry root)
    (fun _ => reported
       (l ++ ["Rewriting asset paths in HTML to /assets/... (safe for nested pages)"])) E.
Proof. unfold_reorg. after_log. keeps_phases. Qed.

Lemma link_check_phases l :
  hoare (reported l) (ReorgSite.link_check dry root)
    (fun _ => reported (l ++ ["Running local link check (href/src → file exists)"])) E.
Proof. unfold_reorg. after_log. keeps_phases. Qed.

Lemma commit_phases l msg other :
  hoare (reported l) (ReorgSite.commit_if_changed dry msg other)
    (fun _ => reported l) E.
Proof. unfold_reorg. keeps_phases. Qed.

Lemma next_steps_phases l :
  hoare (reported l) (ReorgSite.next_steps root) (fun _ => reported (l ++ ["DONE"])) E.
Proof. unfold_reorg. after_log. keeps_phases. Qed.

Lemma mkdirs_phases l ps :
  hoare (reported l) (ReorgSite.mkdirs dry ps) (fun _ => reported l) E.
Proof. unfold_reorg. keeps_phases. Qed.

End Phases.

Lemma main_unfold dry root :
  ReorgSite.main dry root = (ReorgSite.require_clean_git ;; after_preflight dry root).
Proof. reflexivity. Qed.

Lemma after_preflight_phases dry root w :
  hoare (fun m => m = start w) (after_preflight dry root)
    (fun _ => reported (phase_list root w)) (fun _ => dry = false).
Proof.
  unfold after_preflight, phase_list.
  eapply hoare_bind; [apply backup_repo_phases|]. intros ?. cbn [start out wld phases omap app].
  eapply hoare_bind; [apply hoare_log|]. intros ?. cbn [app].
  eapply hoare_bind; [apply mkdirs_phases|]. intros ?.
  eapply hoare_bind; [apply flatten_phases|]. intros ?. cbn [app].
  eapply hoare_bind; [apply restructure_phases|]. intros ?. cbn [app].
  eapply hoare_bind; [apply rewrite_phases|]. intros ?. cbn [app].
  eapply hoare_bind; [apply link_check_phases|]. intros ?. cbn [app].
  eapply hoare_bind; [apply commit_phases|]. intros ?.
  eapply hoare_weaken; [apply next_steps_phases| | |]; cbn [app]; eauto.
Qed.

Lemma dry_run_changes_nothing_aux root w :
  wld (final (ReorgSite.main true root (start w))) = w
  /\ ran (final (ReorgSite.main true root (start w))) = [].
Proof.
  pose proof (dry_main_keeps (fun m => wld m = w /\ ran m = []) root) as H.
  specialize (H ltac:(intros ? ? ? ? ?; assumption) (start w) (conj eq_refl eq_refl)).
  destruct (ReorgSite.main true root (start w)); exact H.
Qed.

(** C8, as the code has it.  With the dry-run option set, a run of [main]
    leaves the world exactly as it found it and no command takes effect.
    Every command handed to [run] is replaced by a line that shows it; the
    steps the script guards by the flag itself, [git add] and [git commit],
    are left out without a word.  Whenever the real run from the same world
    goes through to the end, the dry run does too and reports the same
    sequence of phases. *)
Theorem dry_run_changes_nothing (root : string) (w : world) :
  let r := ReorgSite.main true root (start w) in
  wld (final r) = w /\ ran (final r) = []
  /\ (forall text body m,
        run true text body m = Ok tt (printed m [Line ("[DRYRUN] " +:+ text)]))
  /\ (forall ps msg otherwise m,
        ReorgSite.git_add_unless true ps m = Ok tt m
        /\ ReorgSite.commit_if_changed true msg otherwise m = Ok tt m)
  /\ (forall m', ReorgSite.main false root (start w) = Ok tt m' ->
        exists m'', r = Ok tt m'' /\ phases (out m'') = phases (out m')).
Proof.
  intros r.
  destruct (dry_run_changes_nothing_aux root w) as [Hw Hr]. split; [exact Hw|]. split; [exact Hr|].
  split; [intros; apply run_dry|].
  split; [intros; split; reflexivity|].
  intros m' Hreal. subst r. rewrite main_unfold in *.
  pose proof (require_clean_git_eval (start w)) as Hpre. cbn [wld start] in Hpre.
  destruct (inside_repo w); cbn [negb] in Hpre;
    [|erewrite bind_exit in Hreal by exact Hpre; discriminate].
  destruct (status_clean w); cbn [negb] in Hpre;
    [|erewrite bind_exit in Hreal by exact Hpre; discriminate].
  erewrite bind_ok in Hreal by exact Hpre.
  erewrite bind_ok by exact Hpre.
  pose proof (after_preflight_phases false root w (start w) eq_refl) as Hf.
  rewrite Hreal in Hf.
  pose proof (after_preflight_phases true root w (start w) eq_refl) as Hd.
  destruct (after_preflight true root (start w)) as [[] m''|code m'']; [|discriminate].
  exists m''. split; [reflexivity|]. unfold reported in *. congruence.
Qed.

(** The dry run on the small site reports the phases of the real run. *)
Lemma dry_run_changes_nothing_witness :
  exists m'',
    ReorgSite.main true "docs" (start small_site) = Ok tt m''
    /\ phases (out m'')
       = phases (out (final (ReorgSite.main false "docs" (start small_site)))).
Proof.
  destruct (dry_run_changes_nothing "docs" small_site) as (_ & _ & _ & _ & H).
  apply (H (final (ReorgSite.main false "docs" (start small_site)))).
  assert (Hok : match ReorgSite.main false "docs" (start small_site) with
                | Ok _ _ => true
                | Exit _ _ => false
                end = true) by (vm_compute; reflexivity).
  destruct (ReorgSite.main false "docs" (start small_site)) as [[] m|code m];
    [reflexivity|discriminate Hok].
Defined.

(** On the small site the real run stages the stub of the guide, commits
    and relocates the guide; the output of the dry run names none of these
    steps. *)
Lemma dry_run_skips_silently :
  let real := final (ReorgSite.main false "docs" (start small_site)) in
  let dry := final (ReorgSite.main true "docs" (start small_site)) in
  (In (GitCommit final_commit) (ran real)
   /\ Spec.mentions "commit" (out dry) = false)
  /\ (In (GitAdd ["docs/jc_guide.html"]) (ran real)
      /\ Spec.mentions "git add" (out dry) = false)
  /\ (In (GitMv "docs/jc_guide.html" "docs/guide/index.html") (ran real)
      /\ Spec.mentions "guide/index.html" (out dry) = false).
Proof. vm_compute. intuition. Qed.

(* --------------------------------------------------------------------- *)
(** ** What each command leaves alone *)
(* --------------------------------------------------------------------- *)


Lemma foldl_keeps {X} (P : world -> Prop) (f : world -> X -> world) xs :
  (forall w x, P w -> P (f w x)) -> forall w, P w -> P (foldl f w xs).
Proof. intros Hf. induction xs as [|x xs IH]; intros w Hw; cbn; auto. Qed.


(* --------------------------------------------------------------------- *)
(** ** C9: where commits come from *)
(* --------------------------------------------------------------------- *)














(* --------------------------------------------------------------------- *)
(** ** C1: the link check *)
(* --------------------------------------------------------------------- *)










(* --------------------------------------------------------------------- *)
(** ** C10: the two copies of the script *)
(* --------------------------------------------------------------------- *)






(* --------------------------------------------------------------------- *)
(** ** Paths under the publish root *)
(* --------------------------------------------------------------------- *)

Lemma split_slash_nonempty s : Py.split_slash s <> [].
Proof.
  induction s as [|c s IH]; cbn; [discriminate|].
  destruct (Ascii.eqb c "/"); [discriminate|].
  destruct (Py.split_slash s); [contradiction|discriminate].
Qed.

Lemma split_slash_app a b :
  Py.split_slash (a +:+ String "/" b) = Py.split_slash a ++ Py.split_slash b.
Proof.
  induction a as [|c a IH]; [reflexivity|].
  cbn [String.append Py.split_slash]. rewrite IH.
  destruct (Ascii.eqb c "/"); [reflexivity|].
  pose proof (split_slash_nonempty a) as Hne.
  destruct (Py.split_slash a); [contradiction|reflexivity].
Qed.

Lemma norm_below root dir rel :
  norm root = Some dir ->
  norm (root +:+ String "/" rel) = foldl norm_step (Some dir) (Py.split_slash rel).
Proof.
  unfold norm. destruct root as [|c root]; [discriminate|].
  rewrite split_slash_app, foldl_app.
  unfold starts_with. cbn [Py.is_empty orb String.append strip_prefix].
  destruct (Ascii.eqb "/" c); [discriminate|].
  now intros ->.
Qed.

Lemma norm_child root dir name :
  norm root = Some dir -> Py.split_slash name = [name] ->
  name <> "" -> name <> "." -> name <> ".." ->
  norm (root +:+ "/" +:+ name) = Some (dir ++ [name]).
Proof.
  intros Hr Hs H1 H2 H3. cbn [String.append].
  rewrite (norm_below _ _ _ Hr), Hs. cbn.
  apply String.eqb_neq in H1, H2, H3. now rewrite H1, H2, H3.
Qed.

(** *** Renaming a subtree leaves the rest of a map alone *)

Lemma retarget_elsewhere (s d k p : path) :
  ~ (s `prefix_of` p) -> ~ (d `prefix_of` p) -> k <> p -> retarget s d k <> p.
Proof.
  intros Hs Hd Hk. unfold retarget, under. case_bool_decide; [|exact Hk].
  intros <-. apply Hd. now apply prefix_app_r.
Qed.

Lemma lookup_rekey_frame {V} (s d : path) (m : gmap path V) (p : path) :
  ~ (s `prefix_of` p) -> ~ (d `prefix_of` p) -> rekey s d m !! p = m !! p.
Proof.
  intros Hs Hd. unfold rekey.
  apply (map_fold_weak_ind (fun r m => r !! p = m !! p)); [reflexivity|].
  intros k v m0 r _ IH. destruct (decide (k = p)) as [->|Hk].
  - unfold retarget, under. rewrite bool_decide_eq_false_2 by exact Hs.
    now rewrite !lookup_insert_eq.
  - rewrite lookup_insert_ne by now apply retarget_elsewhere.
    now rewrite lookup_insert_ne.
Qed.

Lemma git_mv_inv src dst w w' :
  git_mv src dst w = Some w' ->
  exists s d d',
    norm src = Some s /\ norm dst = Some d
    /\ (d' = d \/ d' = d ++ [List.last s ""])
    /\ present w d' = false
    /\ w' = set_index (rekey s d' (index w))
              (set_dirs (rekey_set s d' (dirs w))
                 (set_files (rekey s d' (files w)) w)).
Proof.
  unfold git_mv. destruct (norm src) as [s|]; [|discriminate].
  destruct (norm dst) as [d|]; [|discriminate].
  set (d' := if is_dir w d then d ++ [List.last s ""] else d).
  destruct (bool_decide (s = []) || _ || _ || present w d' || _ || _) eqn:E;
    [discriminate|].
  intros [= <-]. exists s, d, d'. repeat split; auto.
  - subst d'. destruct (is_dir w d); auto.
  - repeat (apply orb_false_iff in E as [E ?]). assumption.
Qed.

Lemma git_mv_files_frame src dst w w' s d p :
  git_mv src dst w = Some w' -> norm src = Some s -> norm dst = Some d ->
  ~ (s `prefix_of` p) -> ~ (d `prefix_of` p) ->
  files w' !! p = files w !! p.
Proof.
  intros H Hs Hd Hsp Hdp.
  apply git_mv_inv in H as (s0 & d0 & d' & Hs0 & Hd0 & Hd' & _ & ->).
  rewrite Hs in Hs0. rewrite Hd in Hd0. injection Hs0 as <-. injection Hd0 as <-.
  cbn. apply lookup_rekey_frame; [exact Hsp|].
  destruct Hd' as [-> | ->]; [exact Hdp|].
  intros Hp. apply Hdp. eapply prefix_app_l. exact Hp.
Qed.

(* --------------------------------------------------------------------- *)
(** ** C7: relocations and their stubs *)
(* --------------------------------------------------------------------- *)

Lemma has_slash_app a b : has_slash (a +:+ b) = has_slash a || has_slash b.
Proof. induction a as [|c a IH]; [reflexivity|]. cbn. now rewrite IH, orb_assoc. Qed.

Lemma app_inv_head_s a b c : a +:+ b = a +:+ c -> b = c.
Proof. induction a as [|x a IH]; cbn; [auto|]. intros [= H]. auto. Qed.

Lemma relo_inj root l d l' d' : relo root l d = relo root l' d' -> l = l' /\ d = d'.
Proof.
  unfold relo. intros [= H1 H2].
  apply app_inv_head_s in H1, H2. cbn in H1, H2. split; congruence.
Qed.

Lemma not_relo_plain root x y : has_slash x = false -> not_relo root (GitMv x y).
Proof.
  intros Hx l d t _ [= H _]. rewrite H in Hx.
  rewrite has_slash_app in Hx. cbn in Hx. now rewrite orb_true_r in Hx.
Qed.

Lemma not_relo_asset root a y :
  In a ["css"; "js"; "img"] -> not_relo root (GitMv (root +:+ "/" +:+ a) y).
Proof.
  intros Ha l d t Hin [= H _]. apply app_inv_head_s in H. cbn in H. injection H as <-.
  cbn in Ha, Hin.
  repeat (destruct Hin as [Hin|Hin]; [injection Hin as <- _ _; intuition discriminate|]).
  exact Hin.
Qed.

Lemma tops_plain x :
  In x ReorgSite.top_level_dirs \/ In x ReorgSite.top_level_files -> has_slash x = false.
Proof.
  cbn. intros [H|H];
    repeat (destruct H as [<-|H]; [reflexivity|]); destruct H.
Qed.

Section Relocations.
Variable root : string.
Variable dir : path.
Hypothesis Hroot : norm root = Some dir.

Lemma underway_printed done todo m cs :
  underway root dir done todo m -> underway root dir done todo (printed m cs).
Proof. intros H. exact H. Qed.

(** Before the first relocation nothing is done: any command that is
    neither the rewriter nor a relocation keeps it so. *)
Lemma nothing_done_step m a w' o :
  underway root dir [] legacy_names m ->
  not_relo root a -> a <> FindPerl Reorg root ->
  underway root dir [] legacy_names (Machine w' o (ran m ++ [a])).
Proof.
  intros (Hu & _ & Hp) Hr Hf. split; [|split].
  - unfold unrewritten. cbn. rewrite in_app_iff. intros [H|[H|[]]]; [now apply Hu|congruence].
  - intros l d t _ [].
  - intros l d t Hin Hl. cbn. rewrite in_app_iff. intros [H|[H|[]]].
    + now apply (Hp l d t).
    + now apply (Hr l d t).
Qed.

Ltac nothing_done :=
  walk ltac:(now apply underway_printed)
       ltac:(first
         [ assumption
         | apply nothing_done_step;
           [ assumption
           | first [ apply not_relo_plain; apply tops_plain; solve [auto]
                   | apply not_relo_asset; assumption
                   | intros ? ? ? ? ?; discriminate ]
           | discriminate ]
         | match goal with H : underway _ _ _ _ _ |- unrewritten _ _ => apply H end ]).

(** The paths the relocations speak about. *)
Lemma reloc_norm l d t :
  In (l, d, t) relocations ->
  norm (root +:+ "/" +:+ l) = Some (dir ++ [l])
  /\ exists ds, norm (root +:+ "/" +:+ d) = Some (dir ++ ds) /\ 2 <= length ds.
Proof.
  intros Hin. cbn in Hin.
  repeat (destruct Hin as [[= <- <- <-]|Hin];
    [ split;
      [ apply norm_child; [exact Hroot|reflexivity|discriminate..]
      | cbn [String.append]; rewrite (norm_below _ _ _ Hroot); cbn;
        rewrite <- ?app_assoc; eexists; split; [reflexivity|cbn; lia] ]
    | ]).
  destruct Hin.
Qed.

Lemma reloc_target l d t d' t' :
  In (l, d, t) relocations -> In (l, d', t') relocations -> t = t'.
Proof.
  cbn. intros H H'.
  repeat (destruct H as [H|H]; [|try contradiction]);
    repeat (destruct H' as [H'|H']; [|try contradiction]);
    congruence.
Qed.

Lemma not_under_sibling (l l0 : string) : l <> l0 -> ~ ((dir ++ [l]) `prefix_of` (dir ++ [l0])).
Proof.
  intros Hne [k Hk]. rewrite <- app_assoc in Hk. apply app_inv_head in Hk.
  injection Hk as Hk _. congruence.
Qed.

Lemma not_under_deeper ds (l0 : string) :
  2 <= length ds -> ~ ((dir ++ ds) `prefix_of` (dir ++ [l0])).
Proof.
  intros Hlen [k Hk]. rewrite <- app_assoc in Hk. apply app_inv_head in Hk.
  apply (f_equal length) in Hk. rewrite length_app in Hk. cbn in Hk. lia.
Qed.

Lemma underway_weaken done todo todo' m :
  underway root dir done todo m -> (forall l, In l todo' -> In l todo) ->
  underway root dir done todo' m.
Proof.
  intros (Hu & Hs & Hp) Hsub. repeat split; auto.
  intros l d t Hin Hl. apply (Hp l d t Hin). auto.
Qed.

(** A relocation that did not take place counts as dealt with. *)
Lemma underway_skip done todo l m :
  underway root dir done (l :: todo) m -> underway root dir (l :: done) todo m.
Proof.
  intros (Hu & Hs & Hp). repeat split; [exact Hu| |].
  - intros l0 d t Hin [<-|Hl] Hran.
    + exfalso. apply (Hp l d t Hin); [now left|exact Hran].
    + now apply (Hs l0 d t).
  - intros l0 d t Hin Hl. apply (Hp l0 d t Hin). now right.
Qed.

(** The move of a relocation. *)
Lemma underway_move done todo l d t m w' o :
  underway root dir done (l :: todo) m ->
  In (l, d, t) relocations -> ~ In l done -> ~ In l todo ->
  effect (relo root l d) (wld m) = Some w' ->
  underway root dir done todo (Machine w' o (ran m ++ [relo root l d])).
Proof.
  intros (Hu & Hs & Hp) Hin Hd Ht He.
  destruct (reloc_norm l d t Hin) as (Hnl & ds & Hnd & Hlen).
  split; [|split].
  - unfold unrewritten. cbn [ran]. rewrite in_app_iff.
    intros [H|[H|[]]]; [now apply Hu|discriminate].
  - intros l0 d0 t0 Hin0 Hl0. cbn [ran wld]. rewrite in_app_iff. intros [Hran|[Heq|[]]].
    + rewrite <- (Hs l0 d0 t0 Hin0 Hl0 Hran).
      eapply git_mv_files_frame; [exact He|exact Hnl|exact Hnd| |].
      * apply not_under_sibling. congruence.
      * now apply not_under_deeper.
    + apply relo_inj in Heq as [-> _]. contradiction.
  - intros l0 d0 t0 Hin0 Hl0. cbn [ran]. rewrite in_app_iff. intros [Hran|[Heq|[]]].
    + apply (Hp l0 d0 t0 Hin0); [now right|exact Hran].
    + apply relo_inj in Heq as [-> _]. contradiction.
Qed.

(** A command that touches no stub and is neither a relocation nor the
    rewriter. *)
Lemma underway_step done todo m a w' o :
  underway root dir done todo m ->
  not_relo root a -> a <> FindPerl Reorg root ->
  (forall l, In l done -> files w' !! (dir ++ [l]) = files (wld m) !! (dir ++ [l])) ->
  underway root dir done todo (Machine w' o (ran m ++ [a])).
Proof.
  intros (Hu & Hs & Hp) Hr Hf Hfiles. split; [|split].
  - unfold unrewritten. cbn [ran]. rewrite in_app_iff.
    intros [H|[H|[]]]; [now apply Hu|congruence].
  - intros l d t Hin Hl. cbn [ran wld]. rewrite in_app_iff. intros [Hran|[Heq|[]]].
    + rewrite Hfiles by exact Hl. now apply (Hs l d t).
    + now apply (Hr l d t) in Heq.
  - intros l d t Hin Hl. cbn [ran]. rewrite in_app_iff. intros [Hran|[Heq|[]]].
    + now apply (Hp l d t Hin).
    + now apply (Hr l d t) in Heq.
Qed.

(** Writing the stub of a relocation. *)
Lemma underway_stub done todo l d t m w' o :
  underway root dir done todo m ->
  In (l, d, t) relocations ->
  effect (Cat (root +:+ "/" +:+ l) (ReorgSite.stub_html t)) (wld m) = Some w' ->
  underway root dir (l :: done) todo
    (Machine w' o (ran m ++ [Cat (root +:+ "/" +:+ l) (ReorgSite.stub_html t)])).
Proof.
  intros (Hu & Hs & Hp) Hin He.
  destruct (reloc_norm l d t Hin) as (Hnl & _).
  cbn [effect] in He. apply write_file_inv in He as (p & Hn & _ & _ & _ & ->).
  rewrite Hnl in Hn. injection Hn as <-.
  split; [|split].
  - unfold unrewritten. cbn [ran]. rewrite in_app_iff.
    intros [H|[H|[]]]; [now apply Hu|discriminate].
  - intros l0 d0 t0 Hin0 Hl0. cbn [ran wld files set_files]. rewrite in_app_iff.
    intros Hran. destruct (decide (l0 = l)) as [->|Hne].
    + rewrite lookup_insert_eq. f_equal. f_equal. eapply reloc_target; eauto.
    + rewrite lookup_insert_ne by (intros Heq; apply app_inv_head in Heq; congruence).
      destruct Hl0 as [->|Hl0]; [congruence|].
      destruct Hran as [Hran|[Heq|[]]]; [|discriminate].
      now apply (Hs l0 d0 t0).
  - intros l0 d0 t0 Hin0 Hl0. cbn [ran]. rewrite in_app_iff.
    intros [Hran|[Heq|[]]]; [|discriminate]. now apply (Hp l0 d0 t0 Hin0).
Qed.

Lemma git_add_files ps w w' : git_add ps w = Some w' -> files w' = files w.
Proof.
  unfold git_add. destruct (forallb _ _); [|discriminate]. intros [= <-].
  apply (foldl_keeps (fun x => files x = files w)); [|reflexivity].
  intros x p Hx. unfold stage_one. destruct (norm p); exact Hx.
Qed.

Lemma underway_add done todo ps m w' o :
  underway root dir done todo m -> effect (GitAdd ps) (wld m) = Some w' ->
  underway root dir done todo (Machine w' o (ran m ++ [GitAdd ps])).
Proof.
  intros H He. apply underway_step; [exact H| |discriminate|].
  - intros ? ? ? ? ?. discriminate.
  - intros l _. cbn [effect] in He. now rewrite (git_add_files _ _ _ He).
Qed.

Lemma underway_unrewritten done todo m : underway root dir done todo m -> unrewritten root m.
Proof. now intros [H _]. Qed.

(** One relocation block of step 2. *)
Lemma relocate_page_underway done todo l d t :
  In (l, d, t) relocations -> ~ In l done -> ~ In l todo ->
  hoare (underway root dir done (l :: todo))
    (ReorgSite.relocate_page false root l d t)
    (fun _ => underway root dir (l :: done) todo)
    (unrewritten root).
Proof.
  intros Hin Hd Ht. unfold ReorgSite.relocate_page.
  apply hoare_seq; [apply hoare_ask; auto|]. intros f.
  apply hoare_when; [intros _|intros _ m H; now apply underway_skip].
  unfold ReorgSite.git_mv_run, ReorgSite.write_redirect_stub,
    ReorgSite.git_add_unless, run, when. cbn [negb].
  apply hoare_bind with (Q := fun _ => underway root dir done todo).
  { apply hoare_exec; [|intros m H _; now apply underway_unrewritten in H].
    intros m w' H He. eapply underway_move; eauto. }
  intros ?. apply hoare_bind with (Q := fun _ => underway root dir (l :: done) todo).
  { apply hoare_exec; [|intros m H _; now apply underway_unrewritten in H].
    intros m w' H He. eapply underway_stub; eauto. }
  intros ?. apply hoare_exec; [|intros m H _; now apply underway_unrewritten in H].
  intros m w' H He. now apply underway_add.
Qed.

Lemma relocate_guide_underway todo :
  ~ In "jc_guide.html" todo ->
  hoare (underway root dir [] ("jc_guide.html" :: todo))
    (ReorgSite.relocate_guide false root)
    (fun _ => underway root dir ["jc_guide.html"] todo)
    (unrewritten root).
Proof.
  intros Ht. unfold ReorgSite.relocate_guide.
  apply hoare_seq; [apply hoare_ask; auto|]. intros g.
  apply hoare_when; [intros _|intros _ m H; now apply underway_skip].
  unfold ReorgSite.git_mv_run, ReorgSite.write_redirect_stub,
    ReorgSite.git_add_unless, run, when. cbn [negb].
  assert (Hin : In ("jc_guide.html", "guide/index.html", "/guide/") relocations)
    by (cbn; auto).
  apply hoare_bind with (Q := fun _ => underway root dir [] todo).
  { apply hoare_exec; [|intros m H _; now apply underway_unrewritten in H].
    intros m w' H He.
    apply (underway_move [] todo "jc_guide.html" "guide/index.html" "/guide/");
      auto. }
  intros ?. apply hoare_bind with (Q := fun _ => underway root dir [] todo).
  { apply hoare_attempt; [|auto]. intros m w' H He.
    apply underway_step; [exact H| |discriminate|intros ? []].
    intros ? ? ? ? ?. discriminate. }
  intros ?. apply hoare_bind with (Q := fun _ => underway root dir [] todo).
  { apply hoare_attempt; [|auto]. intros m w' H He.
    apply underway_step; [exact H| |discriminate|intros ? []].
    intros ? ? ? ? ?. discriminate. }
  intros ?. apply hoare_bind with (Q := fun _ => underway root dir ["jc_guide.html"] todo).
  { apply hoare_exec; [|intros m H _; now apply underway_unrewritten in H].
    intros m w' H He.
    apply (underway_stub [] todo "jc_guide.html" "guide/index.html" "/guide/"); auto. }
  intros ?. apply hoare_exec; [|intros m H _; now apply underway_unrewritten in H].
  intros m w' H He. now apply underway_add.
Qed.

Lemma not_empty_below rel : Py.is_empty (root +:+ String "/" rel) = false.
Proof. now destruct root. Qed.

Lemma relocate_october_underway done todo :
  let dated := "JC-2025-10-14.html" in
  let named := "jc-october-2025.html" in
  ~ In dated done -> ~ In named done -> ~ In dated todo -> ~ In named todo ->
  hoare (underway root dir done (dated :: named :: todo))
    (ReorgSite.relocate_october false root)
    (fun _ => underway root dir (named :: dated :: done) todo)
    (unrewritten root).
Proof.
  intros dated named Hdd Hnd Hdt Hnt. unfold ReorgSite.relocate_october.
  assert (Hind : In (dated, "sessions/2025/10/index.html", "/sessions/2025/10/") relocations)
    by (cbn; auto).
  assert (Hinn : In (named, "sessions/2025/10/index.html", "/sessions/2025/10/") relocations)
    by (cbn; auto).
  apply hoare_seq; [apply hoare_ask; auto|]. intros isd.
  apply hoare_seq; [apply hoare_ask; auto|]. intros isn.
  cbv zeta.
  assert (Hstubs : forall done' todo',
    hoare (underway root dir done' todo')
      (ReorgSite.write_redirect_stub false (root +:+ "/JC-2025-10-14.html")
         "/sessions/2025/10/" ;;
       ReorgSite.write_redirect_stub false (root +:+ "/jc-october-2025.html")
         "/sessions/2025/10/" ;;
       ReorgSite.git_add_unless false
         [root +:+ "/JC-2025-10-14.html"; root +:+ "/jc-october-2025.html"])
      (fun _ => underway root dir (named :: dated :: done') todo')
      (unrewritten root)).
  { intros done' todo'.
    unfold ReorgSite.write_redirect_stub, ReorgSite.git_add_unless, run, when.
    cbn [negb].
    apply hoare_bind with (Q := fun _ => underway root dir (dated :: done') todo').
    { apply hoare_exec; [|intros m H _; now apply underway_unrewritten in H].
      intros m w' H He.
      apply (underway_stub done' todo' dated "sessions/2025/10/index.html"
               "/sessions/2025/10/"); auto. }
    intros ?.
    apply hoare_bind with (Q := fun _ => underway root dir (named :: dated :: done') todo').
    { apply hoare_exec; [|intros m H _; now apply underway_unrewritten in H].
      intros m w' H He.
      apply (underway_stub (dated :: done') todo' named "sessions/2025/10/index.html"
               "/sessions/2025/10/"); auto. }
    intros ?. apply hoare_exec; [|intros m H _; now apply underway_unrewritten in H].
    intros m w' H He. now apply underway_add. }
  destruct isd; [|destruct isn].
  - rewrite not_empty_below. cbn [negb when].
    apply hoare_bind with (Q := fun _ => underway root dir done (named :: todo)).
    { unfold ReorgSite.git_mv_run, run.
      apply hoare_exec; [|intros m H _; now apply underway_unrewritten in H].
      intros m w' H He.
      apply (underway_move done (named :: todo) dated "sessions/2025/10/index.html"
               "/sessions/2025/10/"); auto.
      intros [Heq|Hin]; [discriminate|contradiction]. }
    intros ?. eapply hoare_weaken; [apply (Hstubs done (named :: todo))|auto| |auto].
    intros ? m H. eapply underway_weaken; [exact H|]. intros l Hl. now right.
  - rewrite not_empty_below. cbn [negb when].
    apply hoare_bind with (Q := fun _ => underway root dir done (dated :: todo)).
    { unfold ReorgSite.git_mv_run, run.
      apply hoare_exec; [|intros m H _; now apply underway_unrewritten in H].
      intros m w' H He.
      apply (underway_move done (dated :: todo) named "sessions/2025/10/index.html"
               "/sessions/2025/10/"); auto.
      - destruct H as (Hu & Hs & Hp). repeat split; auto.
        intros l d t Hin Hl. apply (Hp l d t Hin). cbn in Hl |- *. tauto.
      - intros [Heq|Hin]; [discriminate|contradiction]. }
    intros ?. eapply hoare_weaken; [apply (Hstubs done (dated :: todo))|auto| |auto].
    intros ? m H. eapply underway_weaken; [exact H|]. intros l Hl. now right.
  - cbn [Py.is_empty negb when]. apply hoare_ret. intros m H.
    now apply underway_skip, underway_skip.
Qed.

(** The rewriter leaves a stub as it is: it holds no legacy reference. *)
Lemma stub_fixed l d t :
  In (l, d, t) relocations ->
  Perl.rewrite_html (ReorgSite.stub_html t) = ReorgSite.stub_html t.
Proof.
  unfold relocations. intros H.
  repeat (destruct H as [[= _ _ <-]|H]; [vm_compute; reflexivity|]).
  destruct H.
Qed.

Lemma stubbed_step ls m a w' o :
  stubbed_for root dir ls m -> not_relo root a -> files w' = files (wld m) ->
  stubbed_for root dir ls (Machine w' o (ran m ++ [a])).
Proof.
  intros Hs Hr Hf l d t Hin Hl. cbn [ran wld]. rewrite in_app_iff, Hf.
  intros [Hran|[Heq|[]]]; [now apply (Hs l d t)|now apply (Hr l d t) in Heq].
Qed.

Lemma stubbed_rewrite ls m w' o :
  stubbed_for root dir ls m ->
  effect (FindPerl Reorg root) (wld m) = Some w' ->
  stubbed_for root dir ls (Machine w' o (ran m ++ [FindPerl Reorg root])).
Proof.
  intros Hs He l d t Hin Hl. cbn [ran wld]. rewrite in_app_iff.
  intros [Hran|[Heq|[]]]; [|discriminate].
  cbn [effect rewriter] in He. unfold find_perl in He.
  destruct (resolve (wld m) root) as [r|]; [|discriminate]. injection He as <-.
  cbn [files set_files]. fold (rewrite_files Perl.rewrite_html r (files (wld m))).
  rewrite rewrite_files_lookup, (Hs l d t Hin Hl Hran). cbn [fmap option_fmap option_map].
  destruct (_ && _); [|reflexivity]. f_equal. exact (stub_fixed l d t Hin).
Qed.

Lemma restructure_underway :
  hoare (underway root dir [] legacy_names) (ReorgSite.restructure false root)
    (fun _ => underway root dir all_done []) (unrewritten root).
Proof.
  unfold ReorgSite.restructure.
  apply hoare_seq; [unfold_reorg; nothing_done|]. intros ?.
  apply hoare_seq; [unfold_reorg; nothing_done|]. intros ?.
  apply hoare_seq; [unfold_reorg; nothing_done|]. intros ?.
  apply hoare_seq; [unfold_reorg; nothing_done|]. intros ?.
  apply hoare_seq; [unfold_reorg; nothing_done|]. intros ?.
  apply hoare_seq; [unfold_reorg; nothing_done|]. intros ?.
  eapply hoare_bind; [apply relocate_guide_underway|intros ?];
    [cbn; intuition discriminate|].
  eapply hoare_bind; [apply relocate_october_underway|intros ?];
    [cbn; intuition discriminate..|].
  eapply hoare_bind;
    [apply (relocate_page_underway _ _ _ _ "/sessions/2026/01/")|intros ?];
    [cbn; intuition discriminate..|].
  apply (relocate_page_underway _ _ _ _ "/summaries/2025/");
    cbn; intuition discriminate.
Qed.

Lemma main_stubs :
  hoare (underway root dir [] legacy_names) (ReorgSite.main false root)
    (fun _ => stubbed_for root dir all_done)
    (fun m => unrewritten root m \/ stubbed_for root dir all_done m).
Proof.
  unfold ReorgSite.main.
  assert (HE : forall m, unrewritten root m ->
                 unrewritten root m \/ stubbed_for root dir all_done m) by auto.
  apply hoare_bind with (Q := fun _ => underway root dir [] legacy_names).
  { apply hoare_exc with (E' := unrewritten root); [|auto].
    unfold_reorg. nothing_done. }
  intros ?. apply hoare_bind with (Q := fun _ => underway root dir [] legacy_names).
  { apply hoare_exc with (E' := unrewritten root); [|auto].
    unfold_reorg. nothing_done. }
  intros ?. apply hoare_bind with (Q := fun _ => underway root dir [] legacy_names).
  { apply hoare_emit. auto. }
  intros ?. apply hoare_bind with (Q := fun _ => underway root dir [] legacy_names).
  { apply hoare_exc with (E' := unrewritten root); [|auto].
    unfold_reorg. nothing_done. }
  intros ?. apply hoare_bind with (Q := fun _ => underway root dir [] legacy_names).
  { apply hoare_exc with (E' := unrewritten root); [|auto].
    unfold_reorg. nothing_done. }
  intros ?. apply hoare_bind with (Q := fun _ => underway root dir all_done []).
  { eapply hoare_weaken; [apply restructure_underway|auto..]. }
  intros ?. apply hoare_bind with (Q := fun _ => stubbed_for root dir all_done).
  { unfold ReorgSite.rewrite_asset_paths.
    apply hoare_bind with (Q := fun _ => underway root dir all_done []);
      [apply hoare_emit; auto|]. intros ?. cbn iota.
    apply hoare_exec.
    - intros m w' (_ & Hs & _) He. now apply stubbed_rewrite.
    - intros m (Hu & _) _. now left. }
  assert (HS : forall m, stubbed_for root dir all_done m ->
                 unrewritten root m \/ stubbed_for root dir all_done m) by auto.
  intros ?. apply hoare_bind with (Q := fun _ => stubbed_for root dir all_done).
  { apply hoare_exc with (E' := stubbed_for root dir all_done); [|auto].
    unfold_reorg. walk ltac:(assumption) ltac:(assumption). }
  intros ?. apply hoare_bind with (Q := fun _ => stubbed_for root dir all_done).
  { apply hoare_exc with (E' := stubbed_for root dir all_done); [|auto].
    unfold_reorg.
    walk ltac:(assumption)
         ltac:(first [ assumption
                     | apply stubbed_step;
                       [ assumption
                       | intros ? ? ? ? ?; discriminate
                       | match goal with
                         | H : effect (GitCommit _) _ = Some _ |- _ =>
                             cbn [effect] in H; unfold git_commit in H;
                             destruct (bool_decide _); [discriminate|];
                             injection H as <-; reflexivity
                         end ] ]). }
  intros ?. apply hoare_exc with (E' := stubbed_for root dir all_done); [|auto].
  unfold_reorg. walk ltac:(assumption) ltac:(assumption).
Qed.

End Relocations.

(* --------------------------------------------------------------------- *)
(** ** Following one file through the run *)
(* --------------------------------------------------------------------- *)

Lemma retarget_hits (s d k : path) : retarget s d k = d -> k = s \/ k = d.
Proof.
  unfold retarget, under. case_bool_decide as Hu; [|auto].
  intros H. left. destruct Hu as [rest ->].
  rewrite drop_app_length in H.
  assert (rest = []) as -> by (apply (app_inv_head d); now rewrite app_nil_r).
  now rewrite app_nil_r.
Qed.

Lemma retarget_self (s d : path) : retarget s d s = d.
Proof.
  unfold retarget, under. rewrite bool_decide_eq_true_2 by reflexivity.
  now rewrite drop_all, app_nil_r.
Qed.

(** The entry at the source arrives at the destination, when nothing is at
    the destination yet. *)
Lemma lookup_rekey_moved {V} (s d : path) (m : gmap path V) :
  m !! d = None -> rekey s d m !! d = m !! s.
Proof.
  unfold rekey.
  apply (map_fold_weak_ind
           (fun r m => m !! d = None -> r !! d = m !! s)); [reflexivity|].
  intros k v m0 r Hk IH Hd.
  destruct (decide (k = d)) as [->|Hkd]; [now rewrite lookup_insert_eq in Hd|].
  rewrite lookup_insert_ne in Hd by exact Hkd.
  destruct (decide (k = s)) as [->|Hks].
  - now rewrite retarget_self, !lookup_insert_eq.
  - rewrite (lookup_insert_ne m0) by exact Hks.
    rewrite lookup_insert_ne; [now apply IH|].
    intros Hr. apply retarget_hits in Hr as [Hr|Hr]; contradiction.
Qed.

Lemma elem_of_rekey_set (s d : path) (x : gset path) (p : path) :
  p ∈ rekey_set s d x <-> exists k, k ∈ x /\ retarget s d k = p.
Proof.
  unfold rekey_set. rewrite elem_of_map. split; intros (k & H1 & H2); eauto.
Qed.

Lemma rekey_set_frame (s d : path) (x : gset path) (p : path) :
  ~ (s `prefix_of` p) -> ~ (d `prefix_of` p) -> (p ∈ rekey_set s d x <-> p ∈ x).
Proof.
  intros Hs Hd. rewrite elem_of_rekey_set. split.
  - intros (k & Hk & Hr). destruct (decide (k = p)) as [->|Hne]; [exact Hk|].
    now apply (retarget_elsewhere s d k p) in Hr.
  - intros Hp. exists p. split; [exact Hp|]. unfold retarget, under.
    now rewrite bool_decide_eq_false_2.
Qed.

(** *** What a path is in a world *)

Lemma leaves_absent p w w' : leaves p w w' -> absent p w -> absent p w'.
Proof.
  intros (Hf & Hd & Hi & _) (H1 & H2 & H3). repeat split; [congruence| |congruence].
  now rewrite Hd.
Qed.

Lemma leaves_holds p c w w' : leaves p w w' -> holds p c w -> holds p c w'.
Proof.
  intros (Hf & Hd & Hi & _) (H1 & H2 & H3). repeat split; [congruence| |congruence].
  now rewrite Hd.
Qed.

Lemma git_mv_leaves src dst w w' s d p :
  git_mv src dst w = Some w' -> norm src = Some s -> norm dst = Some d ->
  ~ (s `prefix_of` p) -> ~ (d `prefix_of` p) -> leaves p w w'.
Proof.
  intros H Hs Hd Hsp Hdp.
  apply git_mv_inv in H as (s0 & d0 & d' & Hs0 & Hd0 & Hd' & _ & ->).
  rewrite Hs in Hs0. rewrite Hd in Hd0. injection Hs0 as <-. injection Hd0 as <-.
  assert (Hd'p : ~ (d' `prefix_of` p)).
  { destruct Hd' as [-> | ->]; [exact Hdp|].
    intros Hp. apply Hdp. eapply prefix_app_l. exact Hp. }
  repeat split; cbn.
  - now apply lookup_rekey_frame.
  - now apply rekey_set_frame.
  - now apply rekey_set_frame.
  - now apply lookup_rekey_frame.
Qed.

Lemma prefixes_from_spec (base p q : path) :
  In q (prefixes_from base p) <->
  exists a b, p = a ++ b /\ a <> [] /\ q = base ++ a.
Proof.
  revert base. induction p as [|c p IH]; intros base; cbn.
  - split; [intros []|]. intros (a & b & H & Ha & _).
    symmetry in H. apply app_eq_nil in H as [-> _]. contradiction.
  - rewrite IH. split.
    + intros [<-|(a & b & -> & Ha & ->)].
      * exists [c], p. auto.
      * exists (c :: a), b. rewrite <- app_assoc. auto.
    + intros (a & b & H & Ha & ->). destruct a as [|x a]; [contradiction|].
      cbn in H. injection H as <- ->. destruct a as [|y a].
      * left. reflexivity.
      * right. exists (y :: a), b. rewrite <- app_assoc. auto.
Qed.

Lemma prefixes_spec (p q : path) :
  In q (prefixes p) <-> q <> [] /\ q `prefix_of` p.
Proof.
  unfold prefixes. rewrite prefixes_from_spec. cbn. split.
  - intros (a & b & -> & Ha & ->). split; [exact Ha|]. now exists b.
  - intros (Hq & b & ->). exists q, b. auto.
Qed.

Lemma mkdir_p_leaves s w w' p q :
  mkdir_p s w = Some w' -> norm s = Some q -> ~ (p `prefix_of` q) -> leaves p w w'.
Proof.
  unfold mkdir_p. intros H Hn Hp. rewrite Hn in H.
  destruct (existsb _ _); [discriminate|]. injection H as <-.
  repeat split; cbn; auto.
  - rewrite elem_of_union, elem_of_list_to_set, list_elem_of_In, prefixes_spec.
    intros [H|[_ H]]; [exact H|contradiction].
  - intros H. apply elem_of_union. now left.
Qed.

Lemma leaves_refl p w : leaves p w w.
Proof. repeat split; auto. Qed.

Lemma leaves_trans p w1 w2 w3 : leaves p w1 w2 -> leaves p w2 w3 -> leaves p w1 w3.
Proof.
  intros (F1 & D1 & I1 & H1) (F2 & D2 & I2 & H2).
  repeat split; try congruence; rewrite ?D2, ?D1; tauto.
Qed.

Lemma mkdir_p_all_leaves ss : forall w w' p,
  mkdir_p_all ss w = Some w' ->
  (forall s, In s ss -> exists q, norm s = Some q /\ ~ (p `prefix_of` q)) ->
  leaves p w w'.
Proof.
  induction ss as [|s ss IH]; intros w w' p H Hall; cbn in H.
  - injection H as <-. apply leaves_refl.
  - destruct (mkdir_p s w) as [w1|] eqn:E; [|discriminate].
    destruct (Hall s (or_introl eq_refl)) as (q & Hq & Hp).
    eapply leaves_trans; [eapply mkdir_p_leaves; eauto|].
    apply IH; [exact H|]. intros s' Hs'. apply Hall. now right.
Qed.

Lemma write_file_leaves s c w w' p q :
  write_file s c w = Some w' -> norm s = Some q -> q <> p -> leaves p w w'.
Proof.
  intros H Hn Hne. apply write_file_inv in H as (q' & Hq' & _ & _ & _ & ->).
  rewrite Hn in Hq'. injection Hq' as <-.
  repeat split; cbn; auto. now rewrite lookup_insert_ne.
Qed.

(** *** [dirname] of a path below a directory *)

Lemma is_empty_app a b : Py.is_empty (a +:+ b) = Py.is_empty a && Py.is_empty b.
Proof. now destruct a. Qed.

Lemma rstrip_plain x : has_slash x = false -> Py.rstrip_by is_slash x = x.
Proof.
  induction x as [|c x IH]; [reflexivity|]. cbn. intros H.
  apply orb_false_iff in H as [Hc Hx]. rewrite (IH Hx).
  unfold is_slash. now rewrite Hc, andb_false_r.
Qed.

Lemma rstrip_app sp a b :
  Py.is_empty (Py.rstrip_by sp b) = false ->
  Py.rstrip_by sp (a +:+ b) = a +:+ Py.rstrip_by sp b.
Proof.
  intros Hb. induction a as [|c a IH]; [reflexivity|].
  cbn. rewrite IH, is_empty_app, Hb, andb_false_r. reflexivity.
Qed.

Lemma rstrip_slash a : Py.rstrip_by is_slash (a +:+ "/") = Py.rstrip_by is_slash a.
Proof. induction a as [|c a IH]; [reflexivity|]. cbn. now rewrite IH. Qed.

Lemma upto_last_slash_plain x : has_slash x = false -> Py.upto_last_slash x = "".
Proof.
  induction x as [|c x IH]; [reflexivity|]. cbn. intros H.
  apply orb_false_iff in H as [Hc Hx]. now rewrite (IH Hx), Hc.
Qed.

Lemma upto_last_slash_app a x :
  has_slash x = false -> Py.upto_last_slash (a +:+ String "/" x) = a +:+ "/".
Proof.
  intros Hx. induction a as [|c a IH].
  - cbn. now rewrite (upto_last_slash_plain x Hx).
  - cbn. rewrite IH, is_empty_app, andb_false_r. reflexivity.
Qed.

Lemma norm_step_empty acc : norm_step acc "" = acc.
Proof. now destruct acc. Qed.

Lemma foldl_norm_step_empties k acc : foldl norm_step acc (repeat ""%string k) = acc.
Proof.
  revert acc. induction k as [|k IH]; intros acc; [reflexivity|].
  cbn [repeat foldl]. now rewrite norm_step_empty.
Qed.

Lemma split_slash_rstrip a :
  exists k, Py.split_slash a
            = Py.split_slash (Py.rstrip_by is_slash a) ++ repeat ""%string k.
Proof.
  induction a as [|c a (k & IH)]; [now exists 0|].
  cbn [Py.rstrip_by Py.split_slash].
  set (r := Py.rstrip_by is_slash a) in *. unfold is_slash.
  destruct (Ascii.eqb c "/") eqn:Ec.
  - destruct (Py.is_empty r) eqn:Er; cbn [andb].
    + destruct r; [|discriminate].
      exists (S k). rewrite IH. reflexivity.
    + exists k. cbn [Py.split_slash]. rewrite Ec, IH. reflexivity.
  - rewrite andb_false_r. exists k. cbn [Py.split_slash]. rewrite Ec, IH.
    pose proof (split_slash_nonempty r) as Hne.
    destruct (Py.split_slash r); [contradiction|reflexivity].
Qed.

Lemma norm_rstrip a p :
  norm a = Some p ->
  Py.is_empty (Py.rstrip_by is_slash a) = false
  /\ norm (Py.rstrip_by is_slash a) = Some p.
Proof.
  unfold norm. destruct a as [|c a]; [discriminate|].
  unfold starts_with. cbn [Py.is_empty orb strip_prefix].
  destruct (Ascii.eqb "/" c) eqn:Ec; [discriminate|]. intros H.
  destruct (split_slash_rstrip (String c a)) as (k & Hk).
  rewrite Hk, foldl_app, foldl_norm_step_empties in H.
  assert (Hr : Py.rstrip_by is_slash (String c a)
               = String c (Py.rstrip_by is_slash a)).
  { cbn [Py.rstrip_by]. unfold is_slash.
    destruct (Ascii.eqb_spec c "/") as [->|Hne]; [discriminate Ec|].
    now rewrite andb_false_r. }
  rewrite Hr in *. cbn [Py.is_empty orb strip_prefix]. rewrite Ec. auto.
Qed.

Lemma norm_dirname a x p :
  norm a = Some p -> has_slash x = false -> x <> ""%string ->
  norm (sh_dirname (a +:+ String "/" x)) = Some p.
Proof.
  intros Ha Hx Hne. unfold sh_dirname.
  assert (Hr : Py.rstrip_by is_slash (String "/" x) = String "/" x).
  { cbn. rewrite (rstrip_plain x Hx). destruct x; [contradiction|reflexivity]. }
  rewrite rstrip_app by now rewrite Hr. rewrite Hr.
  rewrite is_empty_app, andb_false_r, (upto_last_slash_app a x Hx).
  rewrite is_empty_app, andb_false_r, rstrip_slash.
  destruct (norm_rstrip a p Ha) as [-> ->]. reflexivity.
Qed.

Lemma norm_plain x :
  has_slash x = false -> x <> ""%string -> x <> "."%string -> x <> ".."%string ->
  norm x = Some [x].
Proof.
  intros Hx H1 H2 H3. unfold norm.
  assert (Hs : Py.split_slash x = [x]).
  { clear H1 H2 H3. induction x as [|c x IH]; [reflexivity|]. cbn in *.
    apply orb_false_iff in Hx as [-> Hx]. now rewrite (IH Hx). }
  rewrite Hs. destruct x as [|c x]; [contradiction|].
  unfold starts_with. cbn [Py.is_empty orb strip_prefix].
  cbn in Hx. apply orb_false_iff in Hx as [Hc _].
  rewrite Ascii.eqb_sym, Hc. cbn [foldl norm_step].
  apply String.eqb_neq in H1, H2, H3. now rewrite H2, H3.
Qed.

(** What the operating system reaches is what the path says. *)
Lemma resolve_from_norm w cs : forall cur p,
  resolve_from w cur cs = Some p -> foldl norm_step (Some cur) cs = Some p.
Proof.
  induction cs as [|c cs IH]; intros cur p; cbn [resolve_from foldl]; [auto|].
  destruct (negb (is_dir w cur)); [discriminate|]. unfold norm_step at 2.
  destruct (String.eqb c "" || String.eqb c "."); [apply IH|].
  destruct (String.eqb c "..").
  - destruct cur; [discriminate|apply IH].
  - destruct (present w (cur ++ [c])); [apply IH|discriminate].
Qed.

Lemma resolve_norm w s p : resolve w s = Some p -> norm s = Some p.
Proof.
  unfold resolve, norm. destruct (_ || _); [discriminate|]. apply resolve_from_norm.
Qed.

Lemma norm_dirname_below a y x p :
  norm (a +:+ String "/" y) = Some p -> has_slash x = false -> x <> ""%string ->
  norm (sh_dirname (a +:+ String "/" (y +:+ String "/" x))) = Some p.
Proof.
  intros Ha Hx Hne.
  replace (a +:+ String "/" (y +:+ String "/" x))
    with ((a +:+ String "/" y) +:+ String "/" x)
    by (now rewrite app_assoc_s).
  now apply norm_dirname.
Qed.

(** *** One file under the commands of the script *)

(** A tracked file moved to a free place arrives there as it was. *)
Lemma git_mv_moved src dst w w' s d c :
  git_mv src dst w = Some w' -> norm src = Some s -> norm dst = Some d ->
  d <> [] -> holds s c w -> absent d w ->
  holds d c w' /\ head_tree w' = head_tree w.
Proof.
  intros H Hs Hd Hne (Hf & Hsd & Hi) (Af & Ad & Ai).
  unfold git_mv in H. rewrite Hs, Hd in H.
  assert (Hdir : is_dir w d = false).
  { unfold is_dir. rewrite !bool_decide_eq_false_2; auto. }
  rewrite Hdir in H. destruct (_ || _) in H; [discriminate|]. injection H as <-.
  split; [|reflexivity]. repeat split; cbn.
  - now rewrite lookup_rekey_moved.
  - rewrite elem_of_rekey_set. intros (k & Hk & Hr).
    apply retarget_hits in Hr as [-> | ->]; contradiction.
  - now rewrite lookup_rekey_moved.
Qed.

Lemma git_commit_inv msg w w' :
  git_commit msg w = Some w' ->
  files w' = files w /\ dirs w' = dirs w /\ index w' = index w
  /\ head_tree w' = index w.
Proof.
  unfold git_commit. destruct (bool_decide _); [discriminate|]. intros [= <-].
  repeat split. unfold head_tree. cbn. now rewrite lookup_insert_eq.
Qed.

Lemma git_checkout_orphan_inv b w w' :
  git_checkout_orphan b w = Some w' ->
  files w' = files w /\ dirs w' = dirs w /\ index w' = index w
  /\ head_tree w' = ∅.
Proof.
  unfold git_checkout_orphan. case_bool_decide as Hb; [discriminate|]. intros [= <-].
  repeat split. unfold head_tree. cbn.
  destruct (branches w !! b) as [t|] eqn:E; [|reflexivity]. exfalso. apply Hb. now exists t.
Qed.

Lemma take_path_frame t w q p :
  q <> p ->
  files (take_path t w q) !! p = files w !! p
  /\ index (take_path t w q) !! p = index w !! p.
Proof.
  intros Hne. unfold take_path. destruct (t !! q); cbn.
  - now rewrite !lookup_insert_ne.
  - now rewrite !lookup_delete_ne.
Qed.

Lemma foldl_take_path_frame t p qs : forall w,
  ~ In p qs ->
  files (foldl (take_path t) w qs) !! p = files w !! p
  /\ index (foldl (take_path t) w qs) !! p = index w !! p.
Proof.
  induction qs as [|q qs IH]; intros w Hp; cbn [foldl]; [auto|].
  destruct (IH (take_path t w q)) as [-> ->]; [intros H; apply Hp; now right|].
  apply take_path_frame. intros ->. apply Hp. now left.
Qed.

(** A staged path HEAD does not know is not touched by a checkout. *)
Lemma git_checkout_staged b w w' p :
  git_checkout b w = Some w' ->
  is_Some (index w !! p) -> head_tree w !! p = None ->
  files w' !! p = files w !! p /\ index w' !! p = index w !! p.
Proof.
  intros H [v Hi] Hh. unfold git_checkout in H.
  destruct (branches w !! b) as [t|]; [|discriminate].
  destruct (existsb _ _); [discriminate|]. injection H as <-. cbn.
  apply foldl_take_path_frame. rewrite filter_In. intros [_ Hv].
  unfold checkout_verdict in Hv. rewrite Hi, Hh in Hv.
  destruct (bool_decide (None = t !! p)); [discriminate|].
  destruct (bool_decide (Some v = t !! p)); [discriminate|].
  rewrite (bool_decide_eq_false_2 (Some v = None)) in Hv by discriminate.
  discriminate.
Qed.

Lemma find_perl_rewrites rw root w w' r p c :
  find_perl rw root w = Some w' -> norm root = Some r ->
  files w !! p = Some c -> under r p = true -> html_name p = true ->
  files w' !! p = Some (rw c).
Proof.
  intros H Hn Hf Hu Hh. unfold find_perl in H.
  destruct (resolve w root) as [r'|] eqn:E; [|discriminate].
  apply resolve_norm in E. rewrite Hn in E. injection E as <-.
  injection H as <-. cbn [files set_files].
  fold (rewrite_files rw r (files w)).
  rewrite rewrite_files_lookup, Hf. cbn [fmap option_fmap option_map].
  now rewrite Hu, Hh.
Qed.

(* --------------------------------------------------------------------- *)
(** ** C7: the guide through a run *)
(* --------------------------------------------------------------------- *)

Lemma is_dir_top w : is_dir w [] = true.
Proof. unfold is_dir. now rewrite bool_decide_eq_true_2. Qed.

Lemma tracked_move_runs src dst m :
  exists_at (wld m) src = true -> tracked (wld m) src = true ->
  ReorgSite.git_mv_if_exists_and_tracked false src dst m
  = (exec (MkdirP [sh_dirname dst]) ;; exec (GitMv src dst)) m.
Proof.
  intros He Ht. unfold ReorgSite.git_mv_if_exists_and_tracked, ReorgSite.is_tracked.
  sh_unfold. now rewrite He, Ht.
Qed.

Lemma mkdir_p_all_grows ss : forall w w' p,
  mkdir_p_all ss w = Some w' -> p ∈ dirs w -> p ∈ dirs w'.
Proof.
  induction ss as [|s ss IH]; intros w w' p H Hp; cbn in H.
  - now injection H as <-.
  - destruct (mkdir_p s w) as [w1|] eqn:E; [|discriminate].
    apply (IH w1); [exact H|]. unfold mkdir_p in E.
    destruct (norm s); [|discriminate]. destruct (existsb _ _); [discriminate|].
    injection E as <-. cbn. apply elem_of_union. now left.
Qed.

Lemma git_mv_keeps_dir src dst w w' s d p :
  git_mv src dst w = Some w' -> norm src = Some s -> norm dst = Some d ->
  ~ (s `prefix_of` p) -> ~ (d `prefix_of` p) -> p ∈ dirs w -> p ∈ dirs w'.
Proof.
  intros H Hs Hd Hsp Hdp Hp.
  destruct (git_mv_leaves _ _ _ _ _ _ p H Hs Hd Hsp Hdp) as (_ & Hi & _).
  now apply Hi.
Qed.

Lemma mkdir_p_made s w w' q :
  mkdir_p s w = Some w' -> norm s = Some q -> q <> [] -> q ∈ dirs w'.
Proof.
  unfold mkdir_p. intros H Hn Hq. rewrite Hn in H.
  destruct (existsb _ _); [discriminate|]. injection H as <-. cbn.
  apply elem_of_union. right.
  rewrite elem_of_list_to_set, list_elem_of_In, prefixes_spec. auto.
Qed.

Section Guide.
Variable root : string.
Variable c : string.
Hypothesis Hplain : has_slash root = false.
Hypothesis Hroot : norm root = Some [root].
Hypothesis Hr : ~ In root (ReorgSite.top_level_dirs ++ ReorgSite.top_level_files).

Lemma root_child x :
  norm (root +:+ String "/" x) = foldl norm_step (Some [root]) (Py.split_slash x).
Proof. exact (norm_below _ _ _ Hroot). Qed.

Lemma before_move_step here gone m a w' o :
  before_move root c here gone m -> a <> FindPerl Reorg root ->
  ([root] ∈ dirs (wld m) -> [root] ∈ dirs w') ->
  (forall p, In p (here :: gone) -> leaves p (wld m) w') ->
  before_move root c here gone (Machine w' o (ran m ++ [a])).
Proof.
  intros (Hu & Hd & Hh & Hg & Hhead) Ha Hdirs Hl.
  split; [|split; [|split; [|split]]]; cbn [wld ran].
  - unfold unrewritten. cbn [ran]. rewrite in_app_iff.
    intros [H|[H|[]]]; [now apply Hu|congruence].
  - now apply Hdirs.
  - eapply leaves_holds; [apply Hl; now left|exact Hh].
  - rewrite List.Forall_forall in *. intros p Hp.
    eapply leaves_absent; [apply Hl; right; exact Hp|now apply Hg].
  - destruct (Hl here) as (_ & _ & _ & Hh'); [now left|]. now rewrite Hh'.
Qed.

Lemma before_move_commit here gone m msg w' o :
  before_move root c here gone m -> In (guide_index root) gone ->
  effect (GitCommit msg) (wld m) = Some w' ->
  before_move root c here gone (Machine w' o (ran m ++ [GitCommit msg])).
Proof.
  intros (Hu & Hd & Hh & Hg & Hhead) Hin He.
  cbn [effect] in He. apply git_commit_inv in He as (Hf & Hds & Hi & Hhd).
  split; [|split; [|split; [|split]]]; cbn [wld ran].
  - unfold unrewritten. cbn [ran]. rewrite in_app_iff.
    intros [H|[H|[]]]; [now apply Hu|discriminate].
  - now rewrite Hds.
  - unfold holds in *. now rewrite Hf, Hds, Hi.
  - rewrite List.Forall_forall in *. intros p Hp. specialize (Hg p Hp).
    unfold absent in *. now rewrite Hf, Hds, Hi.
  - rewrite Hhd. rewrite List.Forall_forall in Hg. now apply (Hg _ Hin).
Qed.

Ltac in_tops :=
  unfold ReorgSite.top_level_dirs, ReorgSite.top_level_files; cbn [app In];
  repeat (first [left; reflexivity | right]).

Ltac not_prefix :=
  let k := fresh "k" in
  let Hk := fresh "Hk" in
  intros [k Hk]; cbn in Hk;
  first
    [ discriminate Hk
    | injection Hk; intros;
      match goal with
      | H : _ = root |- _ => apply Hr; rewrite <- H; in_tops
      | H : root = _ |- _ => apply Hr; rewrite H; in_tops
      end ].

Ltac norm_tac :=
  first
    [ exact Hroot
    | cbn [String.append]; apply (norm_dirname root _ [root] Hroot);
      [reflexivity|discriminate]
    | cbn [String.append];
      apply (norm_dirname_below root "assets" _ [root; "assets"%string]);
      [rewrite root_child; reflexivity|reflexivity|discriminate]
    | cbn [String.append]; rewrite root_child; reflexivity
    | reflexivity ].

Ltac leaves_tac He :=
  lazymatch type of He with
  | effect (MkdirP _) _ = Some _ =>
      let s := fresh "s" in
      let Hs := fresh "Hs" in
      cbn [effect] in He; eapply mkdir_p_all_leaves; [exact He|];
      intros s Hs; cbn [In] in Hs;
      repeat (destruct Hs as [<-|Hs]); try contradiction;
      eexists; (split; [norm_tac|not_prefix])
  | effect (GitMv _ _) _ = Some _ =>
      cbn [effect] in He;
      eapply git_mv_leaves; [exact He|norm_tac|norm_tac|not_prefix|not_prefix]
  | effect (Cat _ _) _ = Some _ =>
      cbn [effect] in He;
      eapply write_file_leaves; [exact He|norm_tac|discriminate]
  end.

Ltac root_stays He :=
  lazymatch type of He with
  | effect (MkdirP _) _ = Some _ =>
      cbn [effect] in He; eapply mkdir_p_all_grows; exact He
  | effect (GitMv _ _) _ = Some _ =>
      cbn [effect] in He;
      eapply git_mv_keeps_dir; [exact He|norm_tac|norm_tac|not_prefix|not_prefix]
  end.

Ltac before_tac :=
  first
    [ assumption
    | match goal with
      | H : before_move _ _ _ _ ?m |- unrewritten _ ?m => apply H
      end
    | match goal with
      | He : effect (GitCommit _) _ = Some _ |- _ =>
          eapply before_move_commit; [eassumption|cbn; tauto|exact He]
      | He : effect _ _ = Some _ |- _ =>
          apply before_move_step; [assumption|discriminate|root_stays He|];
          let p := fresh "p" in
          let Hp := fresh "Hp" in
          intros p Hp; cbn [In] in Hp;
          repeat (destruct Hp as [<-|Hp]); try contradiction;
          leaves_tac He
      end ].

(** A top-level name other than the guide goes below the root, or stays. *)
Lemma other_into_root here gone x :
  In x (ReorgSite.top_level_dirs ++ ReorgSite.top_level_files) ->
  x <> "jc_guide.html"%string ->
  (here = top_guide /\ gone = [legacy_guide root; guide_index root]
   \/ here = legacy_guide root /\ gone = [guide_index root]) ->
  hoare (before_move root c here gone)
    (ReorgSite.git_mv_if_exists_and_tracked false x (root +:+ "/" +:+ x))
    (fun _ => before_move root c here gone) (unrewritten root).
Proof.
  intros Hx Hne Hcase. unfold ReorgSite.top_level_dirs, ReorgSite.top_level_files in Hx.
  cbn [app In] in Hx.
  repeat (destruct Hx as [<-|Hx]); try contradiction;
    destruct Hcase as [[-> ->]|[-> ->]];
    unfold top_guide, legacy_guide, guide_index;
    unfold_reorg; walk ltac:(assumption) ltac:(before_tac).
Qed.

Lemma resolve_from_step w cur x cs :
  is_dir w cur = true ->
  x <> ""%string -> x <> "."%string -> x <> ".."%string ->
  present w (cur ++ [x]) = true ->
  resolve_from w cur (x :: cs) = resolve_from w (cur ++ [x]) cs.
Proof.
  intros Hd H1 H2 H3 Hp. cbn [resolve_from]. rewrite Hd, Hp.
  apply String.eqb_neq in H1, H2, H3. now rewrite H1, H2, H3.
Qed.

Lemma holds_present p w : holds p c w -> present w p = true.
Proof.
  intros (Hf & _). unfold present, is_file. rewrite Hf.
  rewrite (bool_decide_eq_true_2 (is_Some (Some c))) by eauto. apply orb_true_r.
Qed.

Lemma guide_exists w :
  holds top_guide c w ->
  exists_at w "jc_guide.html" = true /\ tracked w "jc_guide.html" = true.
Proof.
  intros Hh. split.
  - unfold exists_at.
    change (resolve w "jc_guide.html") with (resolve_from w [] ["jc_guide.html"]).
    rewrite resolve_from_step;
      [reflexivity|apply is_dir_top|discriminate..|now apply holds_present].
  - unfold tracked. change (norm "jc_guide.html") with (Some top_guide).
    apply bool_decide_eq_true_2. destruct Hh as (_ & _ & v & Hv).
    exists top_guide, v. split; [exact Hv|reflexivity].
Qed.

Lemma guide_arrives m w' o :
  before_move root c top_guide [legacy_guide root; guide_index root] m ->
  effect (GitMv "jc_guide.html" (root +:+ "/" +:+ "jc_guide.html")) (wld m) = Some w' ->
  before_move root c (legacy_guide root) [guide_index root]
    (Machine w' o (ran m ++ [GitMv "jc_guide.html" (root +:+ "/" +:+ "jc_guide.html")])).
Proof.
  intros (Hu & Hd & Hh & Hg & Hhead) He. cbn [effect] in He.
  inversion Hg as [|? ? A1 Hg']. inversion Hg' as [|? ? A2 _]. subst.
  assert (Hs : norm "jc_guide.html" = Some top_guide) by reflexivity.
  assert (Hdst : norm (root +:+ "/" +:+ "jc_guide.html") = Some (legacy_guide root))
    by norm_tac.
  destruct (git_mv_moved _ _ _ _ _ _ c He Hs Hdst) as [Hh' Hhd];
    [discriminate|exact Hh|exact A1|].
  unfold top_guide, legacy_guide, guide_index in *.
  split; [|split; [|split; [|split]]]; cbn [wld ran].
  - unfold unrewritten. cbn [ran]. rewrite in_app_iff.
    intros [H|[H|[]]]; [now apply Hu|discriminate].
  - eapply git_mv_keeps_dir; [exact He|exact Hs|exact Hdst|not_prefix|not_prefix|exact Hd].
  - exact Hh'.
  - constructor; [|constructor]. eapply leaves_absent; [|exact A2].
    eapply git_mv_leaves; [exact He|exact Hs|exact Hdst|not_prefix|not_prefix].
  - now rewrite Hhd.
Qed.

Lemma guide_into_root :
  hoare (before_move root c top_guide [legacy_guide root; guide_index root])
    (ReorgSite.git_mv_if_exists_and_tracked false "jc_guide.html"
       (root +:+ "/" +:+ "jc_guide.html"))
    (fun _ => before_move root c (legacy_guide root) [guide_index root])
    (unrewritten root).
Proof.
  assert (H2 : hoare
            (before_move root c top_guide [legacy_guide root; guide_index root])
            (exec (MkdirP [sh_dirname (root +:+ "/" +:+ "jc_guide.html")]) ;;
             exec (GitMv "jc_guide.html" (root +:+ "/" +:+ "jc_guide.html")))
            (fun _ => before_move root c (legacy_guide root) [guide_index root])
            (unrewritten root)).
  { apply hoare_bind
      with (Q := fun _ => before_move root c top_guide
                            [legacy_guide root; guide_index root]).
    - unfold top_guide, legacy_guide, guide_index.
      apply hoare_exec; intros; before_tac.
    - intros ?. apply hoare_exec.
      + intros m w' Hm He. now apply guide_arrives.
      + intros m Hm _. apply Hm. }
  intros m Hm. destruct (guide_exists (wld m)) as [He Ht]; [apply Hm|].
  rewrite (tracked_move_runs _ _ _ He Ht). exact (H2 m Hm).
Qed.

Lemma flatten_guide :
  hoare (before_move root c top_guide [legacy_guide root; guide_index root])
    (ReorgSite.flatten false root)
    (fun _ => before_move root c (legacy_guide root) [guide_index root])
    (unrewritten root).
Proof.
  unfold ReorgSite.flatten.
  apply hoare_seq; [apply hoare_emit; auto|]. intros ?.
  apply hoare_seq.
  { apply hoare_for_each. intros x Hx. apply other_into_root.
    - apply in_or_app. now left.
    - intros ->. cbn in Hx. intuition discriminate.
    - now left. }
  intros ?.
  apply hoare_bind
    with (Q := fun _ => before_move root c (legacy_guide root) [guide_index root]).
  { unfold ReorgSite.top_level_files. cbn [for_each].
    apply hoare_seq; [apply other_into_root; [in_tops|discriminate|now left]|].
    intros ?.
    eapply hoare_bind; [apply guide_into_root|]. intros ?.
    repeat (apply hoare_seq;
            [apply other_into_root; [in_tops|discriminate|now right]|intros ?]).
    apply hoare_ret. auto. }
  intros ?. unfold_reorg. walk ltac:(assumption) ltac:(before_tac).
Qed.

(** *** Before the root is made *)

Lemma preflight_guide :
  hoare (at_start root c) ReorgSite.require_clean_git
    (fun _ => checked root c) (unrewritten root).
Proof.
  intros m (Hu & Hc & Hh & A1 & A2). unfold ReorgSite.require_clean_git. sh_unfold.
  destruct (inside_repo (wld m)); cbn [negb]; [|exact Hu].
  destruct (status_clean (wld m)) eqn:Es; cbn [negb]; [|exact Hu].
  split; [exact Hu|]. split; [exact Hc|]. split; [exact Hh|]. split.
  - constructor; [exact A1|]. constructor; [exact A2|constructor].
  - unfold status_clean in Es. apply andb_true_iff in Es as [Es _].
    apply andb_true_iff in Es as [Es _]. apply bool_decide_eq_true_1 in Es.
    rewrite <- Es. apply A2.
Qed.

Lemma backup_norm w :
  has_slash (clock w) = false ->
  norm (ReorgSite.backup_name w) = Some [ReorgSite.backup_name w].
Proof.
  intros Hc. apply norm_plain.
  - unfold ReorgSite.backup_name. now rewrite !has_slash_app, Hc.
  - discriminate.
  - discriminate.
  - discriminate.
Qed.

Lemma checked_backup m w' o a :
  checked root c m -> a = Tar (ReorgSite.backup_name (wld m)) ->
  effect a (wld m) = Some w' ->
  checked root c (Machine w' o (ran m ++ [a])).
Proof.
  intros (Hu & Hc & Hh & Hg & Hhead) -> He. cbn [effect] in He.
  unfold tar_to in He. destruct (tar_ok (wld m)); [|discriminate].
  pose proof (backup_norm (wld m) Hc) as Hn.
  assert (Hl : forall p, p <> [ReorgSite.backup_name (wld m)] -> leaves p (wld m) w').
  { intros p Hp. eapply write_file_leaves; [exact He|exact Hn|congruence]. }
  assert (Hclock : clock w' = clock (wld m)).
  { apply write_file_inv in He as (p & _ & _ & _ & _ & ->). reflexivity. }
  split; [|split; [|split; [|split]]]; cbn [wld ran].
  - unfold unrewritten. cbn [ran]. rewrite in_app_iff.
    intros [H|[H|[]]]; [now apply Hu|discriminate].
  - now rewrite Hclock.
  - eapply leaves_holds; [apply Hl; discriminate|exact Hh].
  - rewrite List.Forall_forall in *. intros p Hp.
    eapply leaves_absent; [apply Hl|now apply Hg].
    cbn in Hp. destruct Hp as [<-|[<-|[]]]; discriminate.
  - destruct (Hl top_guide) as (_ & _ & _ & Hh'); [discriminate|]. now rewrite Hh'.
Qed.

Lemma backup_guide :
  hoare (checked root c) (ReorgSite.backup_repo false)
    (fun _ => checked root c) (unrewritten root).
Proof.
  unfold ReorgSite.backup_repo.
  apply hoare_bind
    with (Q := fun b m => checked root c m /\ b = ReorgSite.backup_name (wld m)).
  { apply hoare_ask. auto. }
  intros b.
  apply hoare_seq; [apply hoare_emit; auto|]. intros ?.
  apply hoare_bind with (Q := fun _ => checked root c).
  { unfold run. apply hoare_exec.
    - intros m w' [Hm Hb] He. subst b. now apply checked_backup.
    - intros m [Hm _] _. apply Hm. }
  intros ?. apply hoare_emit. auto.
Qed.

Lemma root_made m w' o :
  checked root c m -> effect (MkdirP [root]) (wld m) = Some w' ->
  before_move root c top_guide [legacy_guide root; guide_index root]
    (Machine w' o (ran m ++ [MkdirP [root]])).
Proof.
  intros (Hu & Hc & Hh & Hg & Hhead) He.
  assert (Hd : [root] ∈ dirs w').
  { cbn [effect mkdir_p_all] in He.
    destruct (mkdir_p root (wld m)) as [w1|] eqn:E; [|discriminate].
    injection He as <-. eapply mkdir_p_made; [exact E|exact Hroot|discriminate]. }
  assert (Hl : forall p, ~ (p `prefix_of` [root]) -> leaves p (wld m) w').
  { intros p Hp. cbn [effect] in He. eapply mkdir_p_all_leaves; [exact He|].
    intros s [<-|[]]. exists [root]. auto. }
  unfold top_guide, legacy_guide, guide_index in *.
  split; [|split; [|split; [|split]]]; cbn [wld ran].
  - unfold unrewritten. cbn [ran]. rewrite in_app_iff.
    intros [H|[H|[]]]; [now apply Hu|discriminate].
  - exact Hd.
  - eapply leaves_holds; [apply Hl; not_prefix|exact Hh].
  - rewrite List.Forall_forall in *. intros p Hp.
    eapply leaves_absent; [apply Hl|now apply Hg].
    cbn in Hp. destruct Hp as [<-|[<-|[]]]; not_prefix.
  - destruct (Hl ["jc_guide.html"%string]) as (_ & _ & _ & Hh'); [not_prefix|].
    now rewrite Hh'.
Qed.

(** *** The clean structure, up to the guide *)

Lemma mkdirs_guide ps :
  (forall s, In s ps ->
     exists q, norm s = Some q
       /\ ~ (legacy_guide root `prefix_of` q) /\ ~ (guide_index root `prefix_of` q)) ->
  hoare (before_move root c (legacy_guide root) [guide_index root])
    (ReorgSite.mkdirs false ps)
    (fun _ => before_move root c (legacy_guide root) [guide_index root])
    (unrewritten root).
Proof.
  intros Hps. unfold ReorgSite.mkdirs, run. apply hoare_exec.
  - intros m w' Hm He. apply before_move_step; [exact Hm|discriminate| |].
    + cbn [effect] in He. eapply mkdir_p_all_grows. exact He.
    + intros p Hp. cbn [effect] in He. eapply mkdir_p_all_leaves; [exact He|].
      intros s Hs. destruct (Hps s Hs) as (q & Hq & H1 & H2). exists q.
      split; [exact Hq|]. destruct Hp as [<-|[<-|[]]]; assumption.
  - intros m Hm _. apply Hm.
Qed.

Ltac below_root :=
  let s := fresh "s" in
  let Hs := fresh "Hs" in
  intros s Hs; cbn [In] in Hs;
  repeat (destruct Hs as [<-|Hs]); try contradiction;
  eexists; (split; [rewrite root_child; reflexivity|]);
  unfold legacy_guide, guide_index; split; not_prefix.

Lemma move_assets_guide :
  hoare (before_move root c (legacy_guide root) [guide_index root])
    (ReorgSite.move_assets false root)
    (fun _ => before_move root c (legacy_guide root) [guide_index root])
    (unrewritten root).
Proof.
  unfold ReorgSite.move_assets. apply hoare_for_each. intros a Ha.
  cbn [In] in Ha. unfold legacy_guide, guide_index.
  repeat (destruct Ha as [<-|Ha]); try contradiction;
    unfold_reorg; walk ltac:(assumption) ltac:(before_tac).
Qed.

(** *** The relocation of the guide *)

Lemma root_name : root <> ""%string /\ root <> "."%string /\ root <> ".."%string.
Proof.
  repeat split; intros H; pose proof Hroot as Hn; rewrite H in Hn; discriminate Hn.
Qed.

Lemma split_slash_plain x : has_slash x = false -> Py.split_slash x = [x].
Proof.
  induction x as [|a x IH]; [reflexivity|]. cbn. intros H.
  apply orb_false_iff in H as [-> Hx]. now rewrite (IH Hx).
Qed.

Lemma resolve_child w x :
  [root] ∈ dirs w -> has_slash x = false ->
  x <> ""%string -> x <> "."%string -> x <> ".."%string ->
  present w [root; x] = true ->
  resolve w (root +:+ String "/" x) = Some [root; x].
Proof.
  intros Hd Hx H1 H2 H3 Hp. destruct root_name as (R1 & R2 & R3).
  assert (Hdir : is_dir w [root] = true).
  { unfold is_dir. rewrite (bool_decide_eq_true_2 ([root] ∈ dirs w)) by exact Hd.
    apply orb_true_r. }
  unfold resolve. rewrite split_slash_app, (split_slash_plain root Hplain),
    (split_slash_plain x Hx).
  destruct root as [|a rest] eqn:Er; [contradiction|]. rewrite <- Er in *.
  assert (Hst : Py.is_empty (root +:+ String "/" x) || starts_with "/" (root +:+ String "/" x)
                = false).
  { rewrite Er. unfold starts_with. cbn [String.append Py.is_empty orb strip_prefix].
    pose proof Hplain as Hpl. rewrite Er in Hpl. cbn in Hpl.
    apply orb_false_iff in Hpl as [Ha _].
    destruct (Ascii.eqb_spec "/" a) as [<-|Hne]; [discriminate Ha|reflexivity]. }
  rewrite Hst. cbn [app].
  rewrite resolve_from_step; [|apply is_dir_top|assumption..|].
  - cbn [app]. rewrite resolve_from_step; [reflexivity|assumption..].
  - cbn [app]. unfold present. now rewrite Hdir.
Qed.

Lemma guide_is_file m :
  before_move root c (legacy_guide root) [guide_index root] m ->
  isfile_at (wld m) (root +:+ "/jc_guide.html") = true.
Proof.
  intros (_ & Hd & Hh & _). unfold isfile_at.
  cbn [String.append].
  rewrite resolve_child;
    [|exact Hd|reflexivity|discriminate..|now apply holds_present].
  destruct Hh as (Hf & _). unfold is_file, legacy_guide in *. rewrite Hf.
  apply bool_decide_eq_true_2. eauto.
Qed.

Lemma hoare_pure {A} (P : machine -> Prop) (phi : Prop) (k : sh A) Q E :
  (phi -> hoare P k Q E) -> hoare (fun m => P m /\ phi) k Q E.
Proof. intros H m [Hm Hphi]. exact (H Hphi m Hm). Qed.

Lemma after_move_step m a w' o :
  after_move root c m -> a <> FindPerl Reorg root ->
  files w' !! guide_index root = files (wld m) !! guide_index root ->
  after_move root c (Machine w' o (ran m ++ [a])).
Proof.
  intros (Hu & Hm & Hf) Ha Hfr. split; [|split]; cbn [wld ran].
  - unfold unrewritten. cbn [ran]. rewrite in_app_iff.
    intros [H|[H|[]]]; [now apply Hu|congruence].
  - unfold guide_moved. cbn [ran]. apply in_or_app. now left.
  - now rewrite Hfr.
Qed.

Lemma guide_relocated m w' o :
  before_move root c (legacy_guide root) [guide_index root] m ->
  effect (GitMv (root +:+ "/jc_guide.html") (root +:+ "/guide/index.html")) (wld m)
    = Some w' ->
  staged root c
    (Machine w' o
       (ran m ++ [GitMv (root +:+ "/jc_guide.html") (root +:+ "/guide/index.html")])).
Proof.
  intros (Hu & Hd & Hh & Hg & Hhead) He. cbn [effect] in He.
  inversion Hg as [|? ? A2 _]. subst.
  assert (Hs : norm (root +:+ "/jc_guide.html") = Some (legacy_guide root))
    by (rewrite root_child; reflexivity).
  assert (Hdst : norm (root +:+ "/guide/index.html") = Some (guide_index root))
    by (rewrite root_child; reflexivity).
  destruct (git_mv_moved _ _ _ _ _ _ c He Hs Hdst) as [(Hf' & _ & Hi') Hhd];
    [discriminate|exact Hh|exact A2|].
  split; [split; [|split]|split]; cbn [wld ran].
  - unfold unrewritten. cbn [ran]. rewrite in_app_iff.
    intros [H|[H|[]]]; [now apply Hu|discriminate].
  - unfold guide_moved. cbn [ran]. apply in_or_app. right. now left.
  - exact Hf'.
  - exact Hi'.
  - now rewrite Hhd.
Qed.

Lemma staged_orphan m w' o b :
  staged root c m -> effect (GitCheckoutOrphan b) (wld m) = Some w' ->
  staged root c (Machine w' o (ran m ++ [GitCheckoutOrphan b])).
Proof.
  intros (Ha & Hi & Hh) He. cbn [effect] in He.
  apply git_checkout_orphan_inv in He as (Hf & _ & Hix & Hhd).
  split; [|split]; cbn [wld].
  - apply after_move_step; [exact Ha|discriminate|now rewrite Hf].
  - now rewrite Hix.
  - now rewrite Hhd.
Qed.

Lemma staged_checkout m w' o b :
  staged root c m -> effect (GitCheckout b) (wld m) = Some w' ->
  after_move root c (Machine w' o (ran m ++ [GitCheckout b])).
Proof.
  intros (Ha & Hi & Hh) He. cbn [effect] in He.
  apply after_move_step; [exact Ha|discriminate|].
  now destruct (git_checkout_staged _ _ _ _ He Hi Hh) as [-> _].
Qed.

Lemma write_file_files_frame s cnt w w' p q :
  write_file s cnt w = Some w' -> norm s = Some q -> q <> p ->
  files w' !! p = files w !! p.
Proof. intros H Hn Hne. now destruct (write_file_leaves _ _ _ _ _ _ H Hn Hne). Qed.

Ltac files_tac He :=
  lazymatch type of He with
  | effect (GitMv _ _) _ = Some _ =>
      cbn [effect] in He;
      eapply git_mv_files_frame; [exact He|norm_tac|norm_tac|not_prefix|not_prefix]
  | effect (Cat _ _) _ = Some _ =>
      cbn [effect] in He;
      eapply write_file_files_frame; [exact He|norm_tac|discriminate]
  | effect (GitAdd _) _ = Some _ =>
      cbn [effect] in He; now rewrite (git_add_files _ _ _ He)
  | effect (GitCommit _) _ = Some _ =>
      cbn [effect] in He; apply git_commit_inv in He as (Hfiles & _);
      now rewrite Hfiles
  end.

Ltac after_tac :=
  first
    [ assumption
    | match goal with
      | H : after_move _ _ ?m |- unrewritten _ ?m => apply H
      end
    | match goal with
      | He : effect _ _ = Some _ |- _ =>
          apply after_move_step; [assumption|discriminate|];
          unfold guide_index; files_tac He
      end ].

Lemma relocate_guide_moves :
  hoare (before_move root c (legacy_guide root) [guide_index root])
    (ReorgSite.relocate_guide false root)
    (fun _ => after_move root c) (unrewritten root).
Proof.
  unfold ReorgSite.relocate_guide.
  apply hoare_bind
    with (Q := fun g m => before_move root c (legacy_guide root) [guide_index root] m
                          /\ g = true).
  { apply hoare_ask. intros m Hm. split; [exact Hm|now apply guide_is_file]. }
  intros g. apply hoare_pure. intros ->. cbn [when].
  unfold ReorgSite.git_mv_run, ReorgSite.write_redirect_stub,
    ReorgSite.git_add_unless, run, when. cbn [negb].
  apply hoare_bind with (Q := fun _ => staged root c).
  { apply hoare_exec; [|intros m Hm _; apply Hm].
    intros m w' Hm He. now apply guide_relocated. }
  intros ?. apply hoare_bind with (Q := fun _ => staged root c).
  { apply hoare_attempt; [|auto]. intros m w' Hm He. now apply staged_orphan. }
  intros ?. apply hoare_bind with (Q := fun _ => after_move root c).
  { apply hoare_attempt; [|intros m Hm _; apply Hm].
    intros m w' Hm He. now apply staged_checkout. }
  intros ?. apply hoare_seq; [apply hoare_exec; intros; after_tac|]. intros ?.
  apply hoare_exec; intros; after_tac.
Qed.

Lemma relocate_october_after :
  hoare (after_move root c) (ReorgSite.relocate_october false root)
    (fun _ => after_move root c) (unrewritten root).
Proof.
  unfold ReorgSite.relocate_october.
  apply hoare_seq; [apply hoare_ask; auto|]. intros dated.
  apply hoare_seq; [apply hoare_ask; auto|]. intros named.
  destruct dated, named; unfold_reorg; walk ltac:(assumption) ltac:(after_tac).
Qed.

Lemma relocate_page_after l d t :
  In (l, d, t) relocations -> l <> "jc_guide.html"%string ->
  hoare (after_move root c) (ReorgSite.relocate_page false root l d t)
    (fun _ => after_move root c) (unrewritten root).
Proof.
  intros Hin Hl. cbn in Hin.
  repeat (destruct Hin as [[= <- <- <-]|Hin]); try contradiction;
    unfold_reorg; walk ltac:(assumption) ltac:(after_tac).
Qed.

Lemma restructure_guide :
  hoare (before_move root c (legacy_guide root) [guide_index root])
    (ReorgSite.restructure false root)
    (fun _ => after_move root c) (unrewritten root).
Proof.
  unfold ReorgSite.restructure.
  apply hoare_seq; [apply hoare_emit; auto|]. intros ?.
  apply hoare_seq; [apply mkdirs_guide; below_root|]. intros ?.
  apply hoare_seq; [apply mkdirs_guide; below_root|]. intros ?.
  apply hoare_seq; [apply mkdirs_guide; below_root|]. intros ?.
  apply hoare_seq; [apply mkdirs_guide; below_root|]. intros ?.
  apply hoare_seq; [apply move_assets_guide|]. intros ?.
  eapply hoare_bind; [apply relocate_guide_moves|]. intros ?.
  apply hoare_seq; [apply relocate_october_after|]. intros ?.
  apply hoare_seq;
    [apply relocate_page_after; [cbn; tauto|discriminate]|]. intros ?.
  apply relocate_page_after; [cbn; tauto|discriminate].
Qed.

Lemma guide_rewritten m w' o :
  after_move root c m -> effect (FindPerl Reorg root) (wld m) = Some w' ->
  rewritten root c (Machine w' o (ran m ++ [FindPerl Reorg root])).
Proof.
  intros (_ & Hm & Hf) He. split; cbn [wld ran].
  - unfold guide_moved. cbn [ran]. apply in_or_app. now left.
  - cbn [effect rewriter] in He.
    eapply find_perl_rewrites; [exact He|exact Hroot|exact Hf| |reflexivity].
    unfold under. apply bool_decide_eq_true_2.
    now exists ["guide"%string; "index.html"%string].
Qed.

Lemma rewritten_step m a w' o :
  rewritten root c m ->
  files w' !! guide_index root = files (wld m) !! guide_index root ->
  rewritten root c (Machine w' o (ran m ++ [a])).
Proof.
  intros (Hm & Hf) Hfr. split; cbn [wld ran].
  - unfold guide_moved. cbn [ran]. apply in_or_app. now left.
  - now rewrite Hfr.
Qed.

Ltac rewritten_tac :=
  first
    [ assumption
    | match goal with
      | He : effect _ _ = Some _ |- _ =>
          apply rewritten_step; [assumption|files_tac He]
      end ].

(** The whole run, seen from the guide. *)
Lemma main_guide :
  hoare (at_start root c) (ReorgSite.main false root)
    (fun _ => rewritten root c)
    (fun m => unrewritten root m \/ rewritten root c m).
Proof.
  unfold ReorgSite.main.
  assert (HE : forall m, unrewritten root m ->
                 unrewritten root m \/ rewritten root c m) by auto.
  assert (HR : forall m, rewritten root c m ->
                 unrewritten root m \/ rewritten root c m) by auto.
  eapply hoare_bind;
    [apply hoare_exc with (E' := unrewritten root); [apply preflight_guide|auto]|].
  intros ?. eapply hoare_bind;
    [apply hoare_exc with (E' := unrewritten root); [apply backup_guide|auto]|].
  intros ?. apply hoare_seq; [apply hoare_emit; auto|].
  intros ?. apply hoare_bind
    with (Q := fun _ => before_move root c top_guide
                          [legacy_guide root; guide_index root]).
  { unfold ReorgSite.mkdirs, run. apply hoare_exec.
    - intros m w' Hm He. now apply root_made.
    - intros m Hm _. left. apply Hm. }
  intros ?. eapply hoare_bind;
    [apply hoare_exc with (E' := unrewritten root); [apply flatten_guide|auto]|].
  intros ?. eapply hoare_bind;
    [apply hoare_exc with (E' := unrewritten root); [apply restructure_guide|auto]|].
  intros ?. apply hoare_bind with (Q := fun _ => rewritten root c).
  { unfold ReorgSite.rewrite_asset_paths.
    apply hoare_seq; [apply hoare_emit; auto|]. intros ?. cbn iota.
    apply hoare_exec.
    - intros m w' Hm He. now apply guide_rewritten.
    - intros m Hm _. left. apply Hm. }
  intros ?. apply hoare_seq.
  { apply hoare_exc with (E' := rewritten root c); [|auto].
    unfold_reorg. walk ltac:(assumption) ltac:(rewritten_tac). }
  intros ?. apply hoare_seq.
  { apply hoare_exc with (E' := rewritten root c); [|auto].
    unfold_reorg. walk ltac:(assumption) ltac:(rewritten_tac). }
  intros ?. apply hoare_exc with (E' := rewritten root c); [|auto].
  unfold_reorg. walk ltac:(assumption) ltac:(rewritten_tac).
Qed.

End Guide.

Lemma start_underway root dir w : underway root dir [] legacy_names (start w).
Proof.
  split; [|split].
  - intros [].
  - intros l d t _ [].
  - intros l d t _ _ [].
Qed.

Lemma relocations_done l d t : In (l, d, t) relocations -> In l all_done.
Proof.
  cbn. intros H.
  repeat (destruct H as [[= <- _ _]|H]; [tauto|]). destruct H.
Qed.

(** C7, as the code has it.  Take a real run of [scripts/reorg-site.sh] that
    got as far as the rewriting of the asset paths.  For every relocation it
    performed (guide, dated session pages, summary page) the legacy path
    holds, when the run ends, the redirect stub of the relocation, and the
    target of that stub is the site-rooted address of the new place: the
    destination without its [index.html].  In particular, let the publish
    root be one plain directory name that is none of the names the script
    moves, and let the run start with a tracked top-level [jc_guide.html]
    of content [c] and with nothing yet at [root/jc_guide.html] and
    [root/guide/index.html]: then [root/guide/index.html] holds [c] with its
    asset references rewritten, and [root/jc_guide.html] holds the stub
    whose target is [/guide/]. *)
Theorem relocations_leave_stubs (root : string) (dir : path) (w : world) :
  norm root = Some dir ->
  let m' := final (ReorgSite.main false root (start w)) in
  In (FindPerl Reorg root) (ran m') ->
  (forall l d t, In (l, d, t) relocations -> In (relo root l d) (ran m') ->
     files (wld m') !! (dir ++ [l]) = Some (ReorgSite.stub_html t)
     /\ String "/" d = t +:+ "index.html")
  /\ (forall c,
        has_slash root = false -> dir = [root] ->
        ~ In root (ReorgSite.top_level_dirs ++ ReorgSite.top_level_files) ->
        has_slash (clock w) = false ->
        holds top_guide c w ->
        absent (legacy_guide root) w -> absent (guide_index root) w ->
        files (wld m') !! guide_index root = Some (Perl.rewrite_html c)
        /\ files (wld m') !! legacy_guide root = Some (ReorgSite.stub_html "/guide/")).
Proof.
  intros Hroot m' Hran.
  assert (S1 : forall l d t, In (l, d, t) relocations -> In (relo root l d) (ran m') ->
                 files (wld m') !! (dir ++ [l]) = Some (ReorgSite.stub_html t)).
  { intros l d t Hin Hrel.
    pose proof (main_stubs root dir Hroot (start w) (start_underway root dir w)) as H.
    subst m'. destruct (ReorgSite.main false root (start w)) as [[] m1|code m1];
      cbn [final] in *.
    - apply (H l d t Hin); [now apply (relocations_done l d t)|exact Hrel].
    - destruct H as [H|H]; [contradiction|].
      apply (H l d t Hin); [now apply (relocations_done l d t)|exact Hrel]. }
  split.
  - intros l d t Hin Hrel. split; [now apply (S1 l d t)|].
    clear -Hin. cbn in Hin.
    repeat (destruct Hin as [[= <- <- <-]|Hin]; [reflexivity|]). destruct Hin.
  - intros c Hplain -> Hr Hclock Hh A1 A2.
    assert (Hst : at_start root c (start w)).
    { split; [intros []|]. auto. }
    pose proof (main_guide root c Hplain Hroot Hr (start w) Hst) as H.
    assert (Hrw : rewritten root c m').
    { subst m'. destruct (ReorgSite.main false root (start w)) as [[] m1|code m1];
        cbn [final] in *; [exact H|].
      destruct H as [H|H]; [contradiction|exact H]. }
    destruct Hrw as [Hmoved Hfile]. split; [exact Hfile|].
    apply (S1 "jc_guide.html" "guide/index.html" "/guide/")%string;
      [cbn; tauto|exact Hmoved].
Qed.

(** On the styled site the run ends with status 0; the page that arrives
    at [docs/guide/index.html] is not the page that was [jc_guide.html]:
    its reference to the style sheet has been rewritten. *)
Lemma guide_content_rewritten :
  let r := ReorgSite.main false "docs" (start styled_site) in
  status r = 0
  /\ files styled_site !! ["jc_guide.html"]
     = Some ("<link href=" +:+ quoted "css/site.css" +:+ ">")
  /\ files (wld (final r)) !! ["docs"; "guide"; "index.html"]
     = Some ("<link href=" +:+ quoted "/assets/css/site.css" +:+ ">")
  /\ files (wld (final r)) !! ["docs"; "guide"; "index.html"]
     <> files styled_site !! ["jc_guide.html"].
Proof. vm_compute. intuition discriminate. Qed.

Lemma relocations_leave_stubs_witness :
  let m' := final (ReorgSite.main false "docs" (start styled_site)) in
  files (wld m') !! ["docs"; "jc_guide.html"] = Some (ReorgSite.stub_html "/guide/")
  /\ files (wld m') !! ["docs"; "guide"; "index.html"]
     = Some (Perl.rewrite_html ("<link href=" +:+ quoted "css/site.css" +:+ ">")).
Proof.
  cbv zeta.
  destruct (relocations_leave_stubs "docs" ["docs"] styled_site) as [H1 H2].
  - reflexivity.
  - vm_compute. repeat (first [left; reflexivity | right]).
  - split.
    + apply (H1 "jc_guide.html" "guide/index.html" "/guide/")%string.
      * cbn. tauto.
      * vm_compute. repeat (first [left; reflexivity | right]).
    + apply (H2 ("<link href=" +:+ quoted "css/site.css" +:+ ">")).
      * reflexivity.
      * reflexivity.
      * cbn. intuition discriminate.
      * reflexivity.
      * unfold holds. apply (bool_decide_unpack _). vm_compute. exact I.
      * unfold absent. apply (bool_decide_unpack _). vm_compute. exact I.
      * unfold absent. apply (bool_decide_unpack _). vm_compute. exact I.
Defined.

(* ===================================================================== *)
(** * Further properties of the scripts *)
(* ===================================================================== *)

(* --------------------------------------------------------------------- *)
(** ** The two rewriters *)
(* --------------------------------------------------------------------- *)

Lemma occurs_suffix c r s : suffix_of r s -> occurs c r = true -> occurs c s = true.
Proof.
  induction 1 as [|r a s _ IH]; [auto|]. intros H. cbn. rewrite (IH H).
  apply orb_true_r.
Qed.

Lemma occurs_app c a b : occurs c (a +:+ b) = occurs c a || occurs c b.
Proof. induction a as [|x a IH]; [reflexivity|]. cbn. now rewrite IH, orb_assoc. Qed.

(** Every match of a pattern of the rewriters holds a double quote. *)
Lemma match_here_quote tail s a rest :
  Perl.match_here tail s = Some (a, rest) -> occurs dq s = true.
Proof.
  intros H. apply PerlFacts.match_here_inv in H as (r1 & r2 & r3 & Ha & H1 & H2 & _).
  assert (S1 : suffix_of r1 s).
  { apply PerlFacts.attr_name_inv in Ha as [[_ ->]|[_ ->]].
    - apply (strip_prefix_suffix "href"). apply strip_prefix_app.
    - apply (strip_prefix_suffix "src"). apply strip_prefix_app. }
  pose proof (skip_while_suffix Perl.space r1) as S2. rewrite H1 in S2.
  pose proof (skip_while_suffix Perl.space r2) as S3. rewrite H2 in S3.
  apply (occurs_suffix dq (String dq r3)); [|reflexivity].
  eapply suffix_of_trans; [exact S3|].
  eapply suffix_of_trans; [|exact S1].
  eapply suffix_of_trans; [|exact S2]. auto using suffix_of.
Qed.

Lemma unquoted_clean tail s : occurs dq s = false -> Perl.clean tail s.
Proof.
  induction s as [|c s IH]; intros H.
  - split; [reflexivity|exact I].
  - split.
    + destruct (Perl.match_here tail (String c s)) as [[a r]|] eqn:E; [|reflexivity].
      apply match_here_quote in E. congruence.
    + apply IH. cbn in H. now apply orb_false_iff in H as [_ ?].
Qed.

(** X1.  Both rewriters look for references in double quotes only: a text
    without a double quote, such as a page whose attributes are all in
    single quotes, is left exactly as it is by the six substitutions of
    [scripts/reorg-site.sh] and by the three of the copy in [app.js]. *)
Theorem rewriters_need_double_quotes (s : string) :
  occurs dq s = false ->
  Perl.rewrite_html s = s /\ Perl.rewrite_html_appjs s = s.
Proof.
  intros H. split.
  - apply PerlFacts.rewrite_html_fixed; now apply unquoted_clean.
  - unfold Perl.rewrite_html_appjs.
    rewrite !(PerlFacts.clean_sub_id _ _ s) by now apply unquoted_clean.
    reflexivity.
Qed.

Lemma rewriters_need_double_quotes_witness :
  Perl.rewrite_html ("<link href=" +:+ str1 sq +:+ "css/site.css" +:+ str1 sq +:+ ">")
  = "<link href=" +:+ str1 sq +:+ "css/site.css" +:+ str1 sq +:+ ">".
Proof.
  refine (proj1 (rewriters_need_double_quotes
                   ("<link href=" +:+ str1 sq +:+ "css/site.css" +:+ str1 sq +:+ ">") _)).
  vm_compute. reflexivity.
Defined.

(** *** The looser patterns of the copy in [app.js] *)

Lemma opt_suffix c s : suffix_of (Perl.opt c s) s.
Proof. destruct s as [|a s]; cbn; [auto using suffix_of|]. destruct (Ascii.eqb a c); auto using suffix_of. Qed.

Lemma loose_suffix n : Perl.tail_suffix (Perl.loose n).
Proof.
  intros s r H. unfold Perl.loose in H. apply strip_prefix_suffix in H.
  eapply suffix_of_trans; [exact H|].
  eapply suffix_of_trans; apply opt_suffix.
Qed.

Section LooseScan.
Variable tj : string -> option string.
Variable cj : string.
Hypothesis Hj : Perl.tail_suffix tj.

(** An optional character other than [h] and [s] is skipped before the
    scan exactly when it is skipped after it. *)
Lemma opt_through c s :
  c <> "h"%char -> c <> "s"%char ->
  Perl.opt c (Perl.subst tj cj s) = Perl.subst tj cj (Perl.opt c s).
Proof.
  intros Hh Hs. destruct s as [|a s]; [reflexivity|].
  destruct (Perl.match_here tj (String a s)) as [[a' rest]|] eqn:E.
  - rewrite (PerlFacts.subst_hit _ _ _ _ _ _ Hj E).
    pose proof E as E'.
    apply PerlFacts.match_here_inv in E' as (r1 & _ & _ & Ha & _).
    apply PerlFacts.attr_name_inv in Ha as [[-> Hs0]|[-> Hs0]];
      cbn [String.append] in Hs0; injection Hs0 as Ha0 _; subst a;
      cbn [Perl.opt String.append].
    + destruct (Ascii.eqb_spec "h" c) as [<-|_]; [congruence|].
      now rewrite (PerlFacts.subst_hit _ _ _ _ _ _ Hj E).
    + destruct (Ascii.eqb_spec "s" c) as [<-|_]; [congruence|].
      now rewrite (PerlFacts.subst_hit _ _ _ _ _ _ Hj E).
  - rewrite (PerlFacts.subst_miss _ _ _ _ E). cbn [Perl.opt].
    destruct (Ascii.eqb a c); [reflexivity|].
    now rewrite (PerlFacts.subst_miss _ _ _ _ E).
Qed.

Lemma loose_through n s r :
  Perl.safe n = true ->
  Perl.loose n (Perl.subst tj cj s) = Some r ->
  exists r0, Perl.loose n s = Some r0 /\ r = Perl.subst tj cj r0.
Proof.
  intros Hn H. unfold Perl.loose in *.
  rewrite !opt_through in H by discriminate.
  now apply (PerlFacts.lit_through _ _ Hj n Hn) in H.
Qed.

End LooseScan.

Ltac through_loose :=
  apply (PerlFacts.clean_sub _ _ (loose_suffix _));
  [ intros ? ?; apply (loose_through _ _ (loose_suffix _)); reflexivity
  | intros ?; reflexivity
  | reflexivity
  | first [ right; reflexivity | left; through_loose ] ].

Lemma rewrite_html_appjs_clean s :
  Perl.clean (Perl.loose "css/") (Perl.rewrite_html_appjs s)
  /\ Perl.clean (Perl.loose "js/") (Perl.rewrite_html_appjs s)
  /\ Perl.clean (Perl.loose "img/") (Perl.rewrite_html_appjs s).
Proof. unfold Perl.rewrite_html_appjs. repeat split; through_loose. Qed.

Lemma rewrite_html_appjs_idem s :
  Perl.rewrite_html_appjs (Perl.rewrite_html_appjs s) = Perl.rewrite_html_appjs s.
Proof.
  destruct (rewrite_html_appjs_clean s) as (H1 & H2 & H3).
  unfold Perl.rewrite_html_appjs at 1.
  now rewrite (PerlFacts.clean_sub_id _ _ _ H1), (PerlFacts.clean_sub_id _ _ _ H2),
    (PerlFacts.clean_sub_id _ _ _ H3).
Qed.

(** X2.  The rewriter of the copy in [app.js], whose patterns also accept
    [/css/] and [.css/], is idempotent as well: a second run of its
    [rewrite_asset_paths] leaves the world of the first run, because the
    text a pass produces is a fixed point of the three substitutions. *)
Theorem appjs_rewrite_idempotent (dry : bool) (root : string) (m : machine) :
  let once := final (AppJsCopy.rewrite_asset_paths dry root m) in
  let twice := final (AppJsCopy.rewrite_asset_paths dry root once) in
  wld twice = wld once
  /\ forall s, Perl.rewrite_html_appjs (Perl.rewrite_html_appjs s)
               = Perl.rewrite_html_appjs s.
Proof.
  split; [|apply rewrite_html_appjs_idem].
  unfold AppJsCopy.rewrite_asset_paths, exec. sh_unfold.
  destruct dry; [reflexivity|]. cbn [effect rewriter wld].
  destruct (find_perl Perl.rewrite_html_appjs root (wld m)) as [w'|] eqn:E;
    cbn [final wld].
  - rewrite (find_perl_again _ _ _ _ rewrite_html_appjs_idem E). reflexivity.
  - rewrite E. reflexivity.
Qed.

(** A result that is not an exit is the normal return of its final
    machine. *)
Lemma ok_final (r : result unit) :
  match r with Ok _ _ => true | Exit _ _ => false end = true -> r = Ok tt (final r).
Proof. destruct r as [[] m|code m]; [reflexivity|discriminate]. Qed.

(** X3.  When the rewriter of either copy has run, no file has appeared or
    gone, no directory, index entry or commit has changed, and every file
    that does not lie below the publish root, or whose name does not end
    in [.html], holds the bytes it held before. *)
Theorem rewriter_stays_in_html (root : string) (m m' : machine) :
  ReorgSite.rewrite_asset_paths false root m = Ok tt m'
  \/ AppJsCopy.rewrite_asset_paths false root m = Ok tt m' ->
  dirs (wld m') = dirs (wld m) /\ index (wld m') = index (wld m)
  /\ branches (wld m') = branches (wld m) /\ history (wld m') = history (wld m)
  /\ (forall k, is_Some (files (wld m') !! k) <-> is_Some (files (wld m) !! k))
  /\ (forall r k, norm root = Some r ->
        under r k = false \/ html_name k = false ->
        files (wld m') !! k = files (wld m) !! k).
Proof.
  intros H.
  assert (Hf : exists rw, find_perl rw root (wld m) = Some (wld m')).
  { destruct H as [H|H];
      [unfold ReorgSite.rewrite_asset_paths in H
      |unfold AppJsCopy.rewrite_asset_paths in H];
      unfold exec in H; sh_unfold; cbn [wld effect] in H;
      destruct (find_perl _ root (wld m)) as [w1|] eqn:E; try discriminate H;
      injection H as <-; eauto. }
  destruct Hf as (rw & Hf). unfold find_perl in Hf.
  destruct (resolve (wld m) root) as [r|] eqn:Er; [|discriminate].
  apply resolve_norm in Er. injection Hf as Hw. rewrite <- Hw. cbn.
  fold (rewrite_files rw r (files (wld m))).
  repeat split; try (rewrite rewrite_files_lookup; rewrite !is_Some_alt;
                     now destruct (files (wld m) !! k)).
  intros r' k Hr' Hk. rewrite Er in Hr'. injection Hr' as <-.
  rewrite rewrite_files_lookup. destruct (files (wld m) !! k); [|reflexivity].
  cbn. destruct Hk as [-> | ->]; [reflexivity|now rewrite andb_false_r].
Qed.

Lemma rewriter_stays_in_html_witness :
  let m' := final (ReorgSite.rewrite_asset_paths false "docs" (start styled_site)) in
  files (wld m') !! ["jc_guide.html"] = files styled_site !! ["jc_guide.html"].
Proof.
  cbv zeta.
  refine (proj2 (proj2 (proj2 (proj2 (proj2
            (rewriter_stays_in_html "docs" (start styled_site)
               (final (ReorgSite.rewrite_asset_paths false "docs" (start styled_site)))
               _))))) ["docs"] ["jc_guide.html"] _ _).
  - left. apply ok_final. vm_compute. reflexivity.
  - reflexivity.
  - left. vm_compute. reflexivity.
Defined.

(* --------------------------------------------------------------------- *)
(** ** What a run that ends well leaves behind *)
(* --------------------------------------------------------------------- *)

(** The link check reads the working tree only. *)
Lemma is_dir_ext w w' p : dirs w' = dirs w -> is_dir w' p = is_dir w p.
Proof. intros H. unfold is_dir. now rewrite H. Qed.

Lemma tree_ext w w' :
  files w' = files w -> dirs w' = dirs w ->
  (forall s, resolve w' s = resolve w s)
  /\ (forall s, exists_at w' s = exists_at w s)
  /\ (forall s, isdir_at w' s = isdir_at w s).
Proof.
  intros Hf Hd.
  assert (Hr : forall s, resolve w' s = resolve w s).
  { intros s. apply resolve_ext; [exact Hd|]. intros p. unfold is_file. now rewrite Hf. }
  repeat split; [exact Hr| |]; intros s.
  - unfold exists_at. now rewrite Hr.
  - unfold isdir_at. rewrite Hr. destruct (resolve w s); [|reflexivity].
    now apply is_dir_ext.
Qed.

Lemma check_links_ext w w' root :
  files w' = files w -> dirs w' = dirs w ->
  ReorgSite.check_links w' root = ReorgSite.check_links w root
  /\ AppJsCopy.check_links w' root = AppJsCopy.check_links w root.
Proof.
  intros Hf Hd. destruct (tree_ext w w' Hf Hd) as (Hr & He & Hi).
  assert (Hw : walk_html w' root = walk_html w root).
  { unfold walk_html. rewrite Hr, Hf. destruct (resolve w root); [|reflexivity].
    now rewrite (is_dir_ext w w' _ Hd). }
  assert (Hx : forall t, ReorgSite.with_index w' t = ReorgSite.with_index w t).
  { intros t. unfold ReorgSite.with_index. now rewrite Hi. }
  unfold ReorgSite.check_links, AppJsCopy.check_links. rewrite Hw. split.
  - apply flat_map_ext. intros [f h]. apply flat_map_ext. intros raw.
    unfold ReorgSite.check_ref. now rewrite Hx, He.
  - apply flat_map_ext. intros [f h]. apply flat_map_ext. intros raw.
    unfold AppJsCopy.check_ref. now rewrite Hx, He.
Qed.

Lemma hoare_any {A} (c : sh A) :
  hoare (fun _ => True) c (fun _ _ => True) (fun _ => True).
Proof. intros m _. now destruct (c m). Qed.

Lemma hoare_then_exit {A} P (c : sh unit) n (Q : A -> machine -> Prop) :
  hoare P (c ;; exit n) Q (fun _ => True).
Proof.
  intros m _. sh_unfold. now destruct (c m).
Qed.

Lemma link_check_passed root :
  hoare (fun _ => True) (ReorgSite.link_check false root)
    (fun _ m => ReorgSite.check_links (wld m) root = []) (fun _ => True).
Proof.
  unfold ReorgSite.link_check.
  eapply hoare_bind; [apply hoare_any|]. intros ?. cbn iota.
  apply hoare_bind with (Q := fun bad m => bad = ReorgSite.check_links (wld m) root).
  { apply hoare_ask. reflexivity. }
  intros [|v bad]; cbn [truthy].
  - apply hoare_emit. intros m Hm. exact (eq_sym Hm).
  - intros m _. sh_unfold.
    destruct (for_each _ _ _); exact I.
Qed.

Lemma appjs_link_check_passed root :
  hoare (fun _ => True) (AppJsCopy.link_check false root)
    (fun _ m => AppJsCopy.check_links (wld m) root = []) (fun _ => True).
Proof.
  unfold AppJsCopy.link_check.
  eapply hoare_bind; [apply hoare_any|]. intros ?. cbn iota.
  apply hoare_bind with (Q := fun bad m => bad = AppJsCopy.check_links (wld m) root).
  { apply hoare_ask. reflexivity. }
  intros [|v bad]; cbn [truthy].
  - apply hoare_emit. intros m Hm. exact (eq_sym Hm).
  - intros m _. sh_unfold.
    destruct (for_each _ _ _); exact I.
Qed.

(** X4.  A real run that ends normally leaves a tree that passes the link
    check: no HTML file below the publish root holds a local reference
    without a target.  This holds for [scripts/reorg-site.sh], whose last
    commit comes after the check, and for the copy in [app.js]. *)
Theorem finished_run_has_sound_links (root : string) (w : world) (m' : machine) :
  (ReorgSite.main false root (start w) = Ok tt m' ->
     ReorgSite.check_links (wld m') root = [])
  /\ (AppJsCopy.main false root (start w) = Ok tt m' ->
        AppJsCopy.check_links (wld m') root = []).
Proof.
  split; intros H.
  - assert (Hh : hoare (fun _ => True) (ReorgSite.main false root)
                   (fun _ m => ReorgSite.check_links (wld m) root = [])
                   (fun _ => True)).
    { unfold ReorgSite.main.
      do 7 (eapply hoare_bind; [apply hoare_any|]; intros ?).
      eapply hoare_bind; [apply link_check_passed|]. intros ?.
      apply hoare_seq.
      - unfold_reorg.
        walk ltac:(assumption)
             ltac:(first
               [ exact I
               | match goal with
                 | He : effect (GitCommit _) _ = Some _ |- _ =>
                     cbn [effect] in He;
                     apply git_commit_inv in He as (Hf & Hd & _);
                     cbn [wld];
                     now rewrite (proj1 (check_links_ext _ _ root Hf Hd))
                 end ]).
      - intros ?. unfold_reorg. walk ltac:(assumption) ltac:(exact I). }
    specialize (Hh (start w) I). now rewrite H in Hh.
  - assert (Hh : hoare (fun _ => True) (AppJsCopy.main false root)
                   (fun _ m => AppJsCopy.check_links (wld m) root = [])
                   (fun _ => True)).
    { unfold AppJsCopy.main.
      do 7 (eapply hoare_bind; [apply hoare_any|]; intros ?).
      eapply hoare_bind; [apply appjs_link_check_passed|]. intros ?.
      unfold AppJsCopy.next_steps. walk ltac:(assumption) ltac:(exact I). }
    specialize (Hh (start w) I). now rewrite H in Hh.
Qed.

Lemma finished_run_has_sound_links_witness :
  ReorgSite.check_links
    (wld (final (ReorgSite.main false "docs" (start small_site)))) "docs" = [].
Proof.
  refine (proj1 (finished_run_has_sound_links "docs" small_site
                   (final (ReorgSite.main false "docs" (start small_site)))) _).
  assert (Hok : match ReorgSite.main false "docs" (start small_site) with
                | Ok _ _ => true
                | Exit _ _ => false
                end = true) by (vm_compute; reflexivity).
  destruct (ReorgSite.main false "docs" (start small_site)) as [[] m|code m];
    [reflexivity|discriminate Hok].
Defined.

(* --------------------------------------------------------------------- *)
(** ** The tracked move, when it moves *)
(* --------------------------------------------------------------------- *)

(** Nothing stays at the source of a rename, unless the destination is an
    ancestor of the source. *)
Lemma lookup_rekey_source {V} (s d : path) (m : gmap path V) :
  ~ (d `prefix_of` s) -> rekey s d m !! s = None.
Proof.
  intros Hd. unfold rekey.
  apply (map_fold_weak_ind (fun r _ => r !! s = None)); [reflexivity|].
  intros k v m0 r _ IH. rewrite lookup_insert_ne; [exact IH|].
  unfold retarget, under. case_bool_decide as Hu.
  - intros H. apply Hd. exists (drop (length s) k). now rewrite H.
  - intros ->. now apply Hu.
Qed.

Lemma mkdir_p_all_holds ss : forall w w' p c,
  mkdir_p_all ss w = Some w' -> holds p c w -> holds p c w'.
Proof.
  induction ss as [|s ss IH]; intros w w' p c H Hh; cbn in H.
  - now injection H as <-.
  - destruct (mkdir_p s w) as [w1|] eqn:E; [|discriminate].
    apply (IH w1 w' p c H). unfold mkdir_p in E.
    destruct (norm s) as [q|]; [|discriminate].
    destruct (existsb (is_file w) (prefixes q)) eqn:Ex; [discriminate|].
    injection E as <-. destruct Hh as (Hf & Hd & Hi). repeat split; cbn; auto.
    rewrite elem_of_union, elem_of_list_to_set, list_elem_of_In. intros [H1|H1]; [auto|].
    assert (Hfile : is_file w p = true).
    { unfold is_file. rewrite Hf. apply bool_decide_eq_true_2. eauto. }
    assert (Hex : existsb (is_file w) (prefixes q) = true).
    { apply existsb_exists. eauto. }
    congruence.
Qed.

Lemma holds_tracked s src c w :
  norm src = Some s -> holds s c w -> tracked w src = true.
Proof.
  intros Hs (_ & _ & v & Hv). unfold tracked. rewrite Hs.
  apply bool_decide_eq_true_2. exists s, v. split; [exact Hv|reflexivity].
Qed.

(** X5.  The tracked move of a tracked file [src], one that [-e] finds, to
    the free place [a/x]: when it returns normally the file is at the new
    place with the bytes it had, tracked there, and neither the working
    tree nor the index has an entry at the old place; it ran [mkdir -p] and
    [git mv] and nothing else. *)
Theorem tracked_move_moves (src a x c : string) (s p : path) (m m' : machine) :
  norm src = Some s -> norm a = Some p ->
  has_slash x = false -> x <> ""%string -> x <> "."%string -> x <> ".."%string ->
  ~ ((p ++ [x]) `prefix_of` s) ->
  exists_at (wld m) src = true ->
  holds s c (wld m) -> absent (p ++ [x]) (wld m) ->
  ReorgSite.git_mv_if_exists_and_tracked false src (a +:+ "/" +:+ x) m = Ok tt m' ->
  holds (p ++ [x]) c (wld m')
  /\ files (wld m') !! s = None /\ index (wld m') !! s = None
  /\ ran m' = ran m ++ [MkdirP [sh_dirname (a +:+ "/" +:+ x)];
                        GitMv src (a +:+ "/" +:+ x)].
Proof.
  intros Hs Hp Hx X1 X2 X3 Hanc He Hh Ha H.
  assert (Hd : norm (a +:+ "/" +:+ x) = Some (p ++ [x])).
  { apply norm_child; auto. now apply split_slash_plain. }
  rewrite (tracked_move_runs _ _ _ He (holds_tracked _ _ _ _ Hs Hh)) in H.
  unfold exec in H. sh_unfold. cbn [wld out ran effect] in H.
  destruct (mkdir_p_all _ (wld m)) as [w1|] eqn:E1; [|discriminate].
  cbn [wld out ran effect] in H.
  destruct (git_mv src _ w1) as [w2|] eqn:E2; [|discriminate].
  injection H as <-. cbn [wld ran].
  assert (Hh1 : holds s c w1) by (eapply mkdir_p_all_holds; eauto).
  assert (Ha1 : absent (p ++ [x]) w1).
  { eapply leaves_absent; [|exact Ha]. eapply mkdir_p_all_leaves; [exact E1|].
    intros s0 [<-|[]]. exists p. split.
    - cbn [String.append]. now apply norm_dirname.
    - intros [k Hk]. apply (f_equal length) in Hk.
      rewrite !length_app in Hk. cbn in Hk. lia. }
  destruct (git_mv_moved _ _ _ _ _ _ c E2 Hs Hd) as [Hnew _];
    [now destruct p|exact Hh1|exact Ha1|].
  split; [exact Hnew|].
  apply git_mv_inv in E2 as (s0 & d0 & d' & Hs0 & Hd0 & Hd' & _ & ->).
  rewrite Hs in Hs0. rewrite Hd in Hd0. injection Hs0 as <-. injection Hd0 as <-.
  assert (Hd'' : ~ (d' `prefix_of` s)).
  { destruct Hd' as [-> | ->]; [exact Hanc|].
    intros Hpre. apply Hanc. eapply prefix_app_l. exact Hpre. }
  cbn. rewrite !lookup_rekey_source by exact Hd''.
  rewrite <- app_assoc. auto.
Qed.

Lemma tracked_move_moves_witness :
  let m' := final (ReorgSite.git_mv_if_exists_and_tracked false "jc_guide.html"
                     "docs/jc_guide.html" (start small_site)) in
  holds ["docs"; "jc_guide.html"] (anchor "index.html" "home") (wld m')
  /\ files (wld m') !! ["jc_guide.html"] = None.
Proof.
  cbv zeta.
  destruct (tracked_move_moves "jc_guide.html" "docs" "jc_guide.html"
              (anchor "index.html" "home") ["jc_guide.html"] ["docs"]
              (start small_site)
              (final (ReorgSite.git_mv_if_exists_and_tracked false "jc_guide.html"
                        "docs/jc_guide.html" (start small_site))))
    as (H1 & H2 & _).
  - reflexivity.
  - reflexivity.
  - reflexivity.
  - discriminate.
  - discriminate.
  - discriminate.
  - intros [k Hk]. discriminate Hk.
  - vm_compute. reflexivity.
  - unfold holds. apply (bool_decide_unpack _). vm_compute. exact I.
  - unfold absent. apply (bool_decide_unpack _). vm_compute. exact I.
  - apply ok_final. vm_compute. reflexivity.
  - split; [exact H1|exact H2].
Defined.

(* --------------------------------------------------------------------- *)
(** ** Relocating what is already relocated *)
(* --------------------------------------------------------------------- *)

Lemma git_mv_occupied src dst w d :
  resolve w dst = Some d -> is_file w d = true -> is_dir w d = false ->
  git_mv src dst w = None.
Proof.
  intros Hr Hf Hd. apply resolve_norm in Hr. unfold git_mv. rewrite Hr.
  destruct (norm src) as [s|]; [|reflexivity]. rewrite Hd.
  unfold present at 2. rewrite Hf, Hd. cbn [orb].
  now rewrite !orb_true_r.
Qed.

(** X6.  A relocation does not overwrite.  When the legacy page is a file
    and the new place already holds a file, as after an earlier run, the
    relocation of the guide and that of a page end the script with status
    128, the status of the [git mv] that refused, and change nothing. *)
Theorem relocation_not_repeatable (root l d t : string) (m : machine) :
  isfile_at (wld m) (root +:+ "/" +:+ l) = true ->
  isfile_at (wld m) (root +:+ "/" +:+ d) = true ->
  isdir_at (wld m) (root +:+ "/" +:+ d) = false ->
  ReorgSite.relocate_page false root l d t m = Exit 128 m
  /\ (l = "jc_guide.html"%string -> d = "guide/index.html"%string ->
      ReorgSite.relocate_guide false root m = Exit 128 m).
Proof.
  intros Hl Hd Hnd.
  assert (Hmv : git_mv (root +:+ "/" +:+ l) (root +:+ "/" +:+ d) (wld m) = None).
  { unfold isfile_at, isdir_at in Hd, Hnd.
    destruct (resolve (wld m) (root +:+ "/" +:+ d)) as [q|] eqn:E; [|discriminate].
    now apply (git_mv_occupied _ _ _ q). }
  split.
  - unfold ReorgSite.relocate_page, ReorgSite.git_mv_run, exec. sh_unfold.
    rewrite Hl. cbn [effect wld]. now rewrite Hmv.
  - intros -> ->. unfold ReorgSite.relocate_guide, ReorgSite.git_mv_run, exec.
    sh_unfold. cbn [String.append] in Hl, Hmv. rewrite Hl. cbn [effect wld].
    now rewrite Hmv.
Qed.

(** The tree a run on the small site leaves: the guide cannot be relocated
    a second time. *)
Lemma relocation_not_repeatable_witness :
  let w1 := wld (final (ReorgSite.main false "docs" (start small_site))) in
  ReorgSite.relocate_guide false "docs" (start w1) = Exit 128 (start w1).
Proof.
  cbv zeta.
  refine (proj2 (relocation_not_repeatable "docs" "jc_guide.html" "guide/index.html"
                   "/guide/"
                   (start (wld (final (ReorgSite.main false "docs" (start small_site)))))
                   _ _ _) eq_refl eq_refl);
    vm_compute; reflexivity.
Defined.

(* --------------------------------------------------------------------- *)
(** ** Which October page becomes the session page *)
(* --------------------------------------------------------------------- *)

Lemma plain_head r y :
  has_slash r = false -> r <> ""%string ->
  Py.is_empty (r +:+ y) || starts_with "/" (r +:+ y) = false.
Proof.
  intros H Hne. destruct r as [|a r]; [contradiction|].
  cbn in H. apply orb_false_iff in H as [Ha _].
  unfold starts_with. cbn [String.append Py.is_empty orb strip_prefix].
  destruct (Ascii.eqb_spec "/" a) as [<-|_]; [discriminate Ha|reflexivity].
Qed.

Lemma plain_name r :
  norm r = Some [r] -> r <> ""%string /\ r <> "."%string /\ r <> ".."%string.
Proof.
  intros Hn. repeat split; intros ->; discriminate Hn.
Qed.

Section Pages.
Variable root : string.
Hypothesis Hplain : has_slash root = false.
Hypothesis Hroot : norm root = Some [root].

Lemma resolve_below w x :
  [root] ∈ dirs w -> has_slash x = false ->
  x <> ""%string -> x <> "."%string -> x <> ".."%string ->
  present w [root; x] = true ->
  resolve w (root +:+ String "/" x) = Some [root; x].
Proof.
  intros Hd Hx H1 H2 H3 Hp. destruct (plain_name root Hroot) as (R1 & R2 & R3).
  assert (Hdir : is_dir w [root] = true).
  { unfold is_dir. rewrite (bool_decide_eq_true_2 ([root] ∈ dirs w)) by exact Hd.
    apply orb_true_r. }
  unfold resolve. rewrite (plain_head root _ Hplain R1).
  rewrite split_slash_app, (split_slash_plain root Hplain), (split_slash_plain x Hx).
  cbn [app]. rewrite resolve_from_step; [|apply is_dir_top|assumption..|].
  - cbn [app]. rewrite resolve_from_step; [reflexivity|assumption..].
  - cbn [app]. unfold present. now rewrite Hdir.
Qed.

Lemma page_is_file w x c :
  [root] ∈ dirs w -> has_slash x = false ->
  x <> ""%string -> x <> "."%string -> x <> ".."%string ->
  holds [root; x] c w -> isfile_at w (root +:+ String "/" x) = true.
Proof.
  intros Hd Hx H1 H2 H3 Hh. unfold isfile_at.
  rewrite resolve_below; auto; [|now apply (holds_present c)].
  destruct Hh as (Hf & _). unfold is_file. rewrite Hf.
  apply bool_decide_eq_true_2. eauto.
Qed.

(** What the block does once the source is chosen. *)
Lemma october_from x c m m' :
  has_slash x = false -> x <> ""%string -> x <> "."%string -> x <> ".."%string ->
  holds [root; x] c (wld m) ->
  absent [root; "sessions"; "2025"; "10"; "index.html"] (wld m) ->
  (exec (GitMv (root +:+ String "/" x) (root +:+ "/sessions/2025/10/index.html")) ;;
   exec (Cat (root +:+ "/JC-2025-10-14.html") (ReorgSite.stub_html "/sessions/2025/10/")) ;;
   exec (Cat (root +:+ "/jc-october-2025.html") (ReorgSite.stub_html "/sessions/2025/10/")) ;;
   exec (GitAdd [root +:+ "/JC-2025-10-14.html"; root +:+ "/jc-october-2025.html"]))
    m = Ok tt m' ->
  files (wld m') !! [root; "sessions"; "2025"; "10"; "index.html"] = Some c
  /\ files (wld m') !! [root; "JC-2025-10-14.html"]
     = Some (ReorgSite.stub_html "/sessions/2025/10/")
  /\ files (wld m') !! [root; "jc-october-2025.html"]
     = Some (ReorgSite.stub_html "/sessions/2025/10/").
Proof.
  intros Hx X1 X2 X3 Hh Ha H. unfold exec in H. sh_unfold. cbn [wld out ran effect] in H.
  destruct (git_mv _ _ (wld m)) as [w1|] eqn:E1; [|discriminate].
  cbn [wld out ran effect] in H.
  destruct (write_file _ _ w1) as [w2|] eqn:E2; [|discriminate].
  cbn [wld out ran effect] in H.
  destruct (write_file _ _ w2) as [w3|] eqn:E3; [|discriminate].
  cbn [wld out ran effect] in H.
  destruct (git_add _ w3) as [w4|] eqn:E4; [|discriminate].
  injection H as <-. cbn [wld].
  assert (Hs : norm (root +:+ String "/" x) = Some [root; x]).
  { rewrite (root_child root Hroot), (split_slash_plain x Hx). cbn.
    apply String.eqb_neq in X1, X2, X3. now rewrite X1, X2, X3. }
  destruct (git_mv_moved _ _ _ _ _ _ c E1 Hs
              (eq_trans (root_child root Hroot _) eq_refl))
    as [(Hf1 & _) _]; [discriminate|exact Hh|exact Ha|].
  apply write_file_inv in E2 as (p2 & Hp2 & _ & _ & _ & ->).
  rewrite (root_child root Hroot) in Hp2. injection Hp2 as <-.
  apply write_file_inv in E3 as (p3 & Hp3 & _ & _ & _ & ->).
  rewrite (root_child root Hroot) in Hp3. injection Hp3 as <-.
  rewrite (git_add_files _ _ _ E4). cbn.
  rewrite !lookup_insert_eq.
  rewrite (lookup_insert_ne _ [root; "jc-october-2025.html"%string]
             [root; "JC-2025-10-14.html"%string]) by discriminate.
  rewrite !lookup_insert_eq.
  rewrite !lookup_insert_ne by discriminate.
  auto.
Qed.

End Pages.

(** X7.  The October block of [scripts/reorg-site.sh] takes the dated page
    when there is one and the named page otherwise.  Whichever it takes
    arrives at [sessions/2025/10/index.html] with its bytes, and both legacy
    names end as redirect stubs: when both pages exist, what the named page
    held is replaced by the stub. *)
Theorem october_prefers_dated (root c1 c2 : string) (m m' : machine) :
  has_slash root = false -> norm root = Some [root] ->
  [root] ∈ dirs (wld m) ->
  absent [root; "sessions"; "2025"; "10"; "index.html"] (wld m) ->
  ReorgSite.relocate_october false root m = Ok tt m' ->
  let served := files (wld m') !! [root; "sessions"; "2025"; "10"; "index.html"] in
  let stubs :=
    files (wld m') !! [root; "JC-2025-10-14.html"]
    = Some (ReorgSite.stub_html "/sessions/2025/10/")
    /\ files (wld m') !! [root; "jc-october-2025.html"]
       = Some (ReorgSite.stub_html "/sessions/2025/10/") in
  (holds [root; "JC-2025-10-14.html"] c1 (wld m) -> served = Some c1 /\ stubs)
  /\ (isfile_at (wld m) (root +:+ "/JC-2025-10-14.html") = false ->
      holds [root; "jc-october-2025.html"] c2 (wld m) -> served = Some c2 /\ stubs).
Proof.
  intros Hplain Hroot Hd Ha H served stubs. subst served stubs.
  unfold ReorgSite.relocate_october in H.
  erewrite bind_ok in H by reflexivity. erewrite bind_ok in H by reflexivity.
  cbv zeta in H. cbn [wld] in H.
  unfold ReorgSite.git_mv_run, ReorgSite.write_redirect_stub, ReorgSite.git_add_unless,
    run in H.
  split.
  - intros Hh.
    rewrite (page_is_file root Hplain Hroot _ "JC-2025-10-14.html" c1) in H;
      [|exact Hd|reflexivity|discriminate..|exact Hh].
    rewrite is_empty_app in H. cbn [Py.is_empty andb negb when] in H.
    rewrite andb_false_r in H. cbn [negb when] in H.
    now apply (october_from root Hroot "JC-2025-10-14.html" c1 m m').
  - intros Hno Hh. rewrite Hno in H.
    rewrite (page_is_file root Hplain Hroot _ "jc-october-2025.html" c2) in H;
      [|exact Hd|reflexivity|discriminate..|exact Hh].
    rewrite is_empty_app in H. cbn [Py.is_empty andb negb when] in H.
    rewrite andb_false_r in H. cbn [negb when] in H.
    now apply (october_from root Hroot "jc-october-2025.html" c2 m m').
Qed.

Lemma october_prefers_dated_witness :
  let m' := final (ReorgSite.relocate_october false "docs" (start october_site)) in
  files (wld m') !! ["docs"; "sessions"; "2025"; "10"; "index.html"]
  = Some "<h1>14 October</h1>"
  /\ files (wld m') !! ["docs"; "jc-october-2025.html"]
     = Some (ReorgSite.stub_html "/sessions/2025/10/").
Proof.
  cbv zeta.
  destruct (october_prefers_dated "docs" "<h1>14 October</h1>" "<h1>October</h1>"
              (start october_site)
              (final (ReorgSite.relocate_october false "docs" (start october_site))))
    as [H _].
  - reflexivity.
  - reflexivity.
  - apply (bool_decide_unpack _). vm_compute. exact I.
  - unfold absent. apply (bool_decide_unpack _). vm_compute. exact I.
  - apply ok_final. vm_compute. reflexivity.
  - destruct H as (H1 & _ & H2).
    + unfold holds. apply (bool_decide_unpack _). vm_compute. exact I.
    + split; [exact H1|exact H2].
Defined.

(* --------------------------------------------------------------------- *)
(** ** Where the asset directories end up *)
(* --------------------------------------------------------------------- *)

(** A subtree renamed to a free place arrives there entry by entry. *)
Lemma lookup_rekey_below {V} (s d rest : path) (m : gmap path V) :
  m !! (d ++ rest) = None -> rekey s d m !! (d ++ rest) = m !! (s ++ rest).
Proof.
  unfold rekey.
  apply (map_fold_weak_ind
           (fun r m => m !! (d ++ rest) = None -> r !! (d ++ rest) = m !! (s ++ rest)));
    [reflexivity|].
  intros k v m0 r Hk IH Hd.
  destruct (decide (k = d ++ rest)) as [->|Hkd]; [now rewrite lookup_insert_eq in Hd|].
  rewrite lookup_insert_ne in Hd by exact Hkd.
  destruct (decide (k = s ++ rest)) as [->|Hks].
  - unfold retarget, under.
    rewrite bool_decide_eq_true_2 by (now exists rest).
    now rewrite drop_app_length, !lookup_insert_eq.
  - rewrite (lookup_insert_ne m0) by exact Hks.
    rewrite lookup_insert_ne; [now apply IH|].
    unfold retarget, under. case_bool_decide as Hu; [|exact Hkd].
    destruct Hu as [t ->]. rewrite drop_app_length. intros Heq.
    apply app_inv_head in Heq. congruence.
Qed.

Lemma retarget_below (s d rest k : path) :
  retarget s d k = d ++ rest -> k = s ++ rest \/ k = d ++ rest.
Proof.
  unfold retarget, under. case_bool_decide as Hu; [|auto].
  destruct Hu as [t ->]. rewrite drop_app_length. intros Heq.
  apply app_inv_head in Heq. left. congruence.
Qed.

(** [git mv] with a directory as destination puts the source inside it. *)
Lemma git_mv_into src dst w w' s d rest c :
  git_mv src dst w = Some w' -> norm src = Some s -> norm dst = Some d ->
  is_dir w d = true ->
  holds (s ++ rest) c w -> absent (d ++ [List.last s ""%string] ++ rest) w ->
  holds (d ++ [List.last s ""%string] ++ rest) c w'.
Proof.
  intros H Hs Hd Hdir (Hf & Hnd & Hi) (Af & Ad & Ai).
  unfold git_mv in H. rewrite Hs, Hd, Hdir in H.
  destruct (_ || _) in H; [discriminate|]. injection H as <-.
  rewrite app_assoc in *. repeat split; cbn.
  - now rewrite lookup_rekey_below.
  - rewrite elem_of_rekey_set. intros (k & Hk & Hr).
    apply retarget_below in Hr as [-> | ->]; contradiction.
  - now rewrite lookup_rekey_below.
Qed.

Section Assets.
Variable root : string.
Variable c : string.
Variable rest : path.
Hypothesis Hplain : has_slash root = false.
Hypothesis Hroot : norm root = Some [root].

Lemma asset_waiting_step a m w' o r :
  asset_waiting root a rest c m ->
  (forall p, In p [[root]; [root; a]; [root; "assets"%string; a]] ->
     p ∈ dirs (wld m) -> p ∈ dirs w') ->
  (forall p, In p [[root; a] ++ rest; [root; "assets"%string; a; a] ++ rest] ->
     leaves p (wld m) w') ->
  asset_waiting root a rest c (Machine w' o r).
Proof.
  intros (D1 & D2 & D3 & Hh & Ha) Hd Hl.
  split; [|split; [|split; [|split]]]; cbn [wld].
  - apply (Hd [root]); [cbn; tauto|exact D1].
  - apply (Hd [root; a]); [cbn; tauto|exact D2].
  - apply (Hd [root; "assets"%string; a]); [cbn; tauto|exact D3].
  - eapply leaves_holds; [apply Hl; cbn; tauto|exact Hh].
  - eapply leaves_absent; [apply Hl; cbn; tauto|exact Ha].
Qed.

Ltac nm :=
  first
    [ cbn [String.append];
      apply (norm_dirname_below root "assets" _ [root; "assets"%string]);
      [rewrite (root_child root Hroot); reflexivity|reflexivity|discriminate]
    | cbn [String.append]; rewrite (root_child root Hroot); reflexivity ].

Ltac np :=
  let k := fresh "k" in
  let Hk := fresh "Hk" in
  intros [k Hk]; cbn in Hk; discriminate Hk.

Ltac dir_tac He :=
  lazymatch type of He with
  | effect (MkdirP _) _ = Some _ =>
      cbn [effect] in He; eapply mkdir_p_all_grows; exact He
  | effect (GitMv _ _) _ = Some _ =>
      cbn [effect] in He; eapply git_mv_keeps_dir; [exact He|nm|nm|np|np]
  end.

Ltac leaf_tac He :=
  lazymatch type of He with
  | effect (MkdirP _) _ = Some _ =>
      let s := fresh "s" in
      let Hs := fresh "Hs" in
      cbn [effect] in He; eapply mkdir_p_all_leaves; [exact He|];
      intros s Hs; cbn [In] in Hs;
      repeat (destruct Hs as [<-|Hs]); try contradiction;
      eexists; (split; [nm|np])
  | effect (GitMv _ _) _ = Some _ =>
      cbn [effect] in He; eapply git_mv_leaves; [exact He|nm|nm|np|np]
  end.

Ltac cases Hp :=
  cbn [In] in Hp; repeat (destruct Hp as [<-|Hp]); try contradiction.

Ltac waiting_tac :=
  first
    [ assumption
    | exact I
    | match goal with
      | Hm : asset_waiting _ _ _ _ ?m, He : effect _ (wld ?m) = Some _ |- _ =>
          let p := fresh "p" in
          let Hp := fresh "Hp" in
          apply (asset_waiting_step _ _ _ _ _ Hm);
          [ intros p Hp; cases Hp; dir_tac He
          | intros p Hp; cases Hp; leaf_tac He ]
      end ].

Ltac nested_tac :=
  first
    [ assumption
    | exact I
    | match goal with
      | Hm : asset_nested _ _ _ _ ?m, He : effect _ (wld ?m) = Some _ |- _ =>
          unfold asset_nested in *; cbn [wld];
          eapply leaves_holds; [|exact Hm]; leaf_tac He
      end ].

(** The loop body for another asset directory. *)
Lemma other_asset a a' :
  In a ["css"; "js"; "img"]%string -> In a' ["css"; "js"; "img"]%string -> a' <> a ->
  let body :=
    d ← ask (fun w => isdir_at w (root +:+ "/" +:+ a'));
    when d (ReorgSite.git_mv_if_exists_and_tracked false (root +:+ "/" +:+ a')
              (root +:+ "/assets/" +:+ a')) in
  hoare (asset_waiting root a rest c) body (fun _ => asset_waiting root a rest c)
    (fun _ => True)
  /\ hoare (asset_nested root a rest c) body (fun _ => asset_nested root a rest c)
       (fun _ => True).
Proof.
  intros Ha Ha' Hne body. subst body. cases Ha; cases Ha'; try congruence;
    (split; unfold_reorg;
     [walk ltac:(assumption) ltac:(waiting_tac)
     |walk ltac:(assumption) ltac:(nested_tac)]).
Qed.

Lemma dir_present w p : p ∈ dirs w -> is_dir w p = true /\ present w p = true.
Proof.
  intros H. assert (Hd : is_dir w p = true).
  { unfold is_dir. rewrite (bool_decide_eq_true_2 (p ∈ dirs w)) by exact H.
    apply orb_true_r. }
  split; [exact Hd|]. unfold present. now rewrite Hd.
Qed.

Lemma asset_found a m :
  In a ["css"; "js"; "img"]%string ->
  asset_waiting root a rest c m ->
  isdir_at (wld m) (root +:+ "/" +:+ a) = true
  /\ exists_at (wld m) (root +:+ "/" +:+ a) = true
  /\ tracked (wld m) (root +:+ "/" +:+ a) = true.
Proof.
  intros Ha (D1 & D2 & D3 & Hh & _).
  destruct (dir_present _ _ D2) as [Hd Hp].
  assert (Hr : resolve (wld m) (root +:+ "/" +:+ a) = Some [root; a]).
  { cases Ha; cbn [String.append];
      (rewrite (resolve_below root Hplain Hroot);
       [reflexivity|exact D1|reflexivity|discriminate..|exact Hp]). }
  assert (Hn : norm (root +:+ "/" +:+ a) = Some [root; a])
    by now apply resolve_norm in Hr.
  unfold isdir_at, exists_at, tracked. rewrite Hr, Hn, Hd.
  repeat split. apply bool_decide_eq_true_2.
  destruct Hh as (_ & _ & v & Hv). exists ([root; a] ++ rest), v.
  split; [exact Hv|]. now exists rest.
Qed.

Lemma this_asset a :
  In a ["css"; "js"; "img"]%string ->
  hoare (asset_waiting root a rest c)
    (d ← ask (fun w => isdir_at w (root +:+ "/" +:+ a));
     when d (ReorgSite.git_mv_if_exists_and_tracked false (root +:+ "/" +:+ a)
               (root +:+ "/assets/" +:+ a)))
    (fun _ => asset_nested root a rest c) (fun _ => True).
Proof.
  intros Ha.
  apply hoare_bind with (Q := fun d m => asset_waiting root a rest c m /\ d = true).
  { apply hoare_ask. intros m Hm. split; [exact Hm|]. now apply asset_found. }
  intros d. apply hoare_pure. intros ->. cbn [when].
  assert (H2 : hoare (asset_waiting root a rest c)
            (exec (MkdirP [sh_dirname (root +:+ "/assets/" +:+ a)]) ;;
             exec (GitMv (root +:+ "/" +:+ a) (root +:+ "/assets/" +:+ a)))
            (fun _ => asset_nested root a rest c) (fun _ => True)).
  { apply hoare_bind with (Q := fun _ => asset_waiting root a rest c).
    - cases Ha; apply hoare_exec; intros; waiting_tac.
    - intros ?. apply hoare_exec; [|auto].
      intros m w' (D1 & D2 & D3 & Hh & Hab) He. cbn [effect] in He.
      destruct (dir_present _ _ D3) as [Hd _].
      unfold asset_nested. cbn [wld].
      cases Ha;
        (eapply (git_mv_into _ _ _ _ [root; _] [root; "assets"%string; _] rest c He);
         [nm|nm|exact Hd|exact Hh|exact Hab]). }
  intros m Hm. destruct (asset_found a m Ha Hm) as (_ & He & Ht).
  rewrite (tracked_move_runs _ _ _ He Ht). exact (H2 m Hm).
Qed.

End Assets.

(** X8.  [move_assets] runs after [mkdir -p] has made [assets/css],
    [assets/js] and [assets/img], so each [git mv] finds a directory at its
    destination and puts the source inside it: a tracked file [css/f]
    below the root is at [assets/css/css/f] when [move_assets] returns, and
    likewise for [js] and [img]. *)
Theorem assets_end_nested (root a c : string) (rest : path) (m m' : machine) :
  has_slash root = false -> norm root = Some [root] ->
  In a ["css"; "js"; "img"]%string ->
  asset_waiting root a rest c m ->
  ReorgSite.move_assets false root m = Ok tt m' ->
  asset_nested root a rest c m'.
Proof.
  intros Hplain Hroot Ha Hw H.
  assert (Hh : hoare (asset_waiting root a rest c) (ReorgSite.move_assets false root)
                 (fun _ => asset_nested root a rest c) (fun _ => True)).
  { unfold ReorgSite.move_assets. cbn [for_each].
    pose proof (this_asset root c rest Hplain Hroot a Ha) as Hthis.
    pose proof (fun a' H1 H2 => other_asset root c rest Hroot a a' Ha H1 H2) as Hother.
    cbv zeta in Hother.
    cbn [In] in Ha. destruct Ha as [<-|[<-|[<-|[]]]].
    - eapply hoare_bind; [exact Hthis|]. intros ?.
      apply hoare_seq; [apply (Hother "js"%string); [cbn; tauto|discriminate]|].
      intros ?.
      apply hoare_seq; [apply (Hother "img"%string); [cbn; tauto|discriminate]|].
      intros ?. apply hoare_ret. auto.
    - eapply hoare_bind;
        [apply (Hother "css"%string); [cbn; tauto|discriminate]|]. intros ?.
      eapply hoare_bind; [exact Hthis|]. intros ?.
      apply hoare_seq; [apply (Hother "img"%string); [cbn; tauto|discriminate]|].
      intros ?. apply hoare_ret. auto.
    - eapply hoare_bind;
        [apply (Hother "css"%string); [cbn; tauto|discriminate]|]. intros ?.
      eapply hoare_bind;
        [apply (Hother "js"%string); [cbn; tauto|discriminate]|]. intros ?.
      eapply hoare_bind; [exact Hthis|]. intros ?. apply hoare_ret. auto. }
  specialize (Hh m Hw). now rewrite H in Hh.
Qed.

Lemma assets_end_nested_witness :
  let m' := final (ReorgSite.move_assets false "docs" (start assets_site)) in
  files (wld m') !! ["docs"; "assets"; "css"; "css"; "site.css"] = Some "body{}"
  /\ files (wld m') !! ["docs"; "assets"; "css"; "site.css"] = None.
Proof.
  cbv zeta. split; [|vm_compute; reflexivity].
  refine (proj1 (assets_end_nested "docs" "css" "body{}" ["site.css"]
                   (start assets_site)
                   (final (ReorgSite.move_assets false "docs" (start assets_site)))
                   _ _ _ _ _)).
  - reflexivity.
  - reflexivity.
  - cbn. tauto.
  - unfold asset_waiting, holds, absent. apply (bool_decide_unpack _).
    vm_compute. exact I.
  - apply ok_final. vm_compute. reflexivity.
Defined.

(* --------------------------------------------------------------------- *)
(** ** The values the link check reads *)
(* --------------------------------------------------------------------- *)

Lemma take_value_plain s :
  occurs dq (Py.take_value s).1 = false /\ occurs sq (Py.take_value s).1 = false.
Proof.
  induction s as [|a s IH]; [split; reflexivity|]. cbn [Py.take_value].
  destruct (Py.is_quote a) eqn:Eq; [split; reflexivity|].
  destruct (Py.take_value s) as [v r]. cbn [fst] in *.
  unfold Py.is_quote in Eq. apply orb_false_iff in Eq as [E1 E2].
  destruct IH as [I1 I2]. cbn. now rewrite E1, E2, I1, I2.
Qed.

Lemma attr_here_value spaced s v rest :
  Py.attr_here spaced s = Some (v, rest) ->
  v <> ""%string /\ occurs dq v = false /\ occurs sq v = false.
Proof.
  unfold Py.attr_here. destruct (Py.attr_name_ci s) as [r1|]; [|discriminate].
  destruct (if spaced then skip_while Py.space r1 else r1) as [|e r2]; [discriminate|].
  destruct (Ascii.eqb_spec e "=") as [->|Hne].
  2:{ destruct e as [[] [] [] [] [] [] [] []]; try discriminate. now destruct Hne. }
  unfold Py.quoted_value.
  destruct (if spaced then skip_while Py.space r2 else r2) as [|q r3]; [discriminate|].
  destruct (Py.is_quote q); [|discriminate].
  pose proof (take_value_plain r3) as [H1 H2].
  destruct (Py.take_value r3) as [[|x v'] [|y r4]]; try discriminate.
  intros [= <- <-]. cbn [fst] in *. repeat split; [discriminate|exact H1|exact H2].
Qed.

(** X9.  The attribute pattern of both link checks asks for at least one
    character between the quotes and stops at the first quote of either
    kind: every value the check reads is non-empty and holds no quote, so
    an empty [href] is never examined. *)
Theorem findall_values (spaced : bool) (s v : string) :
  In v (Py.findall spaced s) ->
  v <> ""%string /\ occurs dq v = false /\ occurs sq v = false.
Proof.
  unfold Py.findall. generalize (String.length s) as n. intros n. revert s.
  induction n as [|n IH]; intros s H; [destruct H|].
  cbn [Py.findall_from] in H. destruct s as [|a s']; [destruct H|].
  destruct (Py.attr_here spaced (String a s')) as [[v0 rest]|] eqn:E.
  - destruct H as [<-|H]; [now apply attr_here_value in E|now apply (IH rest)].
  - now apply (IH s').
Qed.

Lemma findall_values_witness :
  "css/site.css"%string <> ""%string
  /\ occurs dq "css/site.css" = false /\ occurs sq "css/site.css" = false.
Proof.
  apply (findall_values true ("<link href=" +:+ quoted "css/site.css" +:+ ">")).
  vm_compute. left. reflexivity.
Defined.

(** *** The reference a violation reports *)

Lemma occurs_before c d s : occurs c s = false -> occurs c (Py.before d s) = false.
Proof.
  induction s as [|a s IH]; [auto|]. cbn. intros H.
  apply orb_false_iff in H as [Ha Hs]. destruct (Ascii.eqb a d); [reflexivity|].
  cbn. now rewrite Ha, IH.
Qed.

Lemma occurs_before_self c s : occurs c (Py.before c s) = false.
Proof.
  induction s as [|a s IH]; [reflexivity|]. cbn.
  destruct (Ascii.eqb a c) eqn:E; [reflexivity|]. cbn. now rewrite E, IH.
Qed.

Lemma before_absent c s : occurs c s = false -> Py.before c s = s.
Proof.
  induction s as [|a s IH]; [reflexivity|]. cbn. intros H.
  apply orb_false_iff in H as [-> Hs]. now rewrite IH.
Qed.

Lemma occurs_skip_while c sp s : occurs c s = false -> occurs c (skip_while sp s) = false.
Proof.
  induction s as [|a s IH]; [auto|]. cbn. intros H.
  destruct (sp a); [|exact H]. apply IH. now apply orb_false_iff in H as [_ ?].
Qed.

Lemma occurs_rstrip c sp s : occurs c s = false -> occurs c (Py.rstrip_by sp s) = false.
Proof.
  induction s as [|a s IH]; [auto|]. cbn. intros H.
  apply orb_false_iff in H as [Ha Hs].
  destruct (Py.is_empty (Py.rstrip_by sp s) && sp a); [reflexivity|].
  cbn. now rewrite Ha, IH.
Qed.

Lemma rstrip_idem sp s : Py.rstrip_by sp (Py.rstrip_by sp s) = Py.rstrip_by sp s.
Proof.
  induction s as [|a s IH]; [reflexivity|]. cbn.
  destruct (Py.is_empty (Py.rstrip_by sp s) && sp a) eqn:E; [reflexivity|].
  cbn. now rewrite IH, E.
Qed.

Lemma skip_while_idem sp s : skip_while sp (skip_while sp s) = skip_while sp s.
Proof.
  induction s as [|a s IH]; [reflexivity|]. cbn.
  destruct (sp a) eqn:E; [exact IH|]. cbn. now rewrite E.
Qed.

Lemma skip_while_head sp s :
  skip_while sp s = s -> match s with String a _ => sp a = false | EmptyString => True end.
Proof.
  destruct s as [|a s]; [auto|]. cbn. destruct (sp a); [|auto]. intros H.
  pose proof (skip_while_suffix sp s) as Hs. rewrite H in Hs.
  apply suffix_of_length in Hs. cbn in Hs. lia.
Qed.

Lemma strip_idem s : Py.strip (Py.strip s) = Py.strip s.
Proof.
  unfold Py.strip. set (t := skip_while Py.space s).
  assert (Ht : skip_while Py.space t = t) by apply skip_while_idem.
  apply skip_while_head in Ht.
  assert (Hs : skip_while Py.space (Py.rstrip_by Py.space t) = Py.rstrip_by Py.space t).
  { destruct t as [|a t']; [reflexivity|]. cbn [Py.rstrip_by].
    rewrite Ht, andb_false_r. cbn. now rewrite Ht. }
  now rewrite Hs, rstrip_idem.
Qed.

(** X10.  [normalize_url] of [scripts/reorg-site.sh] yields a reference
    without fragment or query mark, and applying it again changes nothing:
    the reference a violation reports is in normal form. *)
Theorem normalize_url_normal (u : string) :
  occurs "#" (ReorgSite.normalize_url u) = false
  /\ occurs "?" (ReorgSite.normalize_url u) = false
  /\ ReorgSite.normalize_url (ReorgSite.normalize_url u) = ReorgSite.normalize_url u.
Proof.
  unfold ReorgSite.normalize_url, Py.strip.
  set (x := Py.before "?" (Py.before "#" u)).
  assert (H1 : occurs "#" x = false) by apply occurs_before, occurs_before_self.
  assert (H2 : occurs "?" x = false) by apply occurs_before_self.
  set (n := Py.rstrip_by Py.space (skip_while Py.space x)).
  assert (N1 : occurs "#" n = false) by now apply occurs_rstrip, occurs_skip_while.
  assert (N2 : occurs "?" n = false) by now apply occurs_rstrip, occurs_skip_while.
  repeat split; [exact N1|exact N2|].
  rewrite (before_absent "#" n N1), (before_absent "?" n N2).
  apply strip_idem.
Qed.

(* --------------------------------------------------------------------- *)
(** ** The link check of the copy in [app.js] *)
(* --------------------------------------------------------------------- *)





(* --------------------------------------------------------------------- *)
(** ** A run with nothing to move *)
(* --------------------------------------------------------------------- *)

Lemma resolve_from_miss w cur x cs :
  is_dir w cur = true ->
  x <> ""%string -> x <> "."%string -> x <> ".."%string ->
  present w (cur ++ [x]) = false ->
  resolve_from w cur (x :: cs) = None.
Proof.
  intros Hd H1 H2 H3 Hp. cbn [resolve_from]. rewrite Hd, Hp.
  apply String.eqb_neq in H1, H2, H3. now rewrite H1, H2, H3.
Qed.

Lemma top_level_missing w x :
  In x (ReorgSite.top_level_dirs ++ ReorgSite.top_level_files) ->
  present w [x] = false -> exists_at w x = false.
Proof.
  intros Hx Hp. unfold exists_at.
  unfold ReorgSite.top_level_dirs, ReorgSite.top_level_files in Hx. cbn [app In] in Hx.
  repeat (destruct Hx as [<-|Hx];
          [ match goal with
            | |- context [resolve w ?s] =>
                change (resolve w s) with (resolve_from w [] [s])
            end;
            rewrite resolve_from_miss;
            [reflexivity|apply is_dir_top|discriminate..|exact Hp]
          | ]).
  destruct Hx.
Qed.

Lemma top_level_not_archive w x :
  In x (ReorgSite.top_level_dirs ++ ReorgSite.top_level_files) ->
  x <> ReorgSite.backup_name w.
Proof.
  intros Hx. unfold ReorgSite.top_level_dirs, ReorgSite.top_level_files in Hx.
  cbn [app In] in Hx. unfold ReorgSite.backup_name.
  repeat (destruct Hx as [<-|Hx]; [discriminate|]). destruct Hx.
Qed.

Section Idle.
Variable root : string.
Variable b : string.
Hypothesis Hroot : norm root = Some [root].
Hypothesis Hr : ~ In root (ReorgSite.top_level_dirs ++ ReorgSite.top_level_files).

Lemma idle_preflight :
  hoare (fun m => ReorgSite.backup_name (wld m) = b
                  /\ has_slash (clock (wld m)) = false
                  /\ nothing_to_move b (wld m))
    ReorgSite.require_clean_git
    (fun _ m => ReorgSite.backup_name (wld m) = b
                /\ has_slash (clock (wld m)) = false
                /\ index (wld m) = head_tree (wld m)
                /\ nothing_to_move b (wld m))
    (fun _ => True).
Proof.
  intros m (Hb & Hc & Hn). unfold ReorgSite.require_clean_git. sh_unfold.
  destruct (inside_repo (wld m)); cbn [negb]; [|exact I].
  destruct (status_clean (wld m)) eqn:Es; cbn [negb]; [|exact I].
  repeat split; try assumption; try apply Hn.
  unfold status_clean in Es. apply andb_true_iff in Es as [Es _].
  apply andb_true_iff in Es as [Es _]. now apply bool_decide_eq_true_1 in Es.
Qed.

Lemma idle_backup :
  hoare (fun m => ReorgSite.backup_name (wld m) = b
                  /\ has_slash (clock (wld m)) = false
                  /\ index (wld m) = head_tree (wld m)
                  /\ nothing_to_move b (wld m))
    (ReorgSite.backup_repo false)
    (fun _ => archive_untracked b) (fun _ => True).
Proof.
  intros m (Hb & Hc & Hi & Hx & Hg & Hn). unfold ReorgSite.backup_repo, exec.
  sh_unfold. cbn [wld out ran effect]. rewrite Hb. unfold tar_to.
  destruct (tar_ok (wld m)); [|exact I].
  destruct (write_file b "" (wld m)) as [w1|] eqn:E; [|exact I]. cbn [wld].
  apply write_file_inv in E as (p & Hp & _ & _ & _ & ->).
  rewrite <- Hb, (backup_norm _ Hc) in Hp. injection Hp as <-. rewrite Hb.
  split; [|split; [|split; [|split]]]; cbn.
  - rewrite lookup_insert_eq. eauto.
  - exact Hi.
  - exact Hx.
  - exact Hg.
  - intros x Hin. specialize (Hn x Hin).
    apply orb_false_iff in Hn as [Hd Hf]. apply orb_false_iff. split; [exact Hd|].
    unfold is_file in *. cbn [files set_files].
    rewrite lookup_insert_ne; [exact Hf|].
    intros [= Heq]. apply (top_level_not_archive (wld m) x Hin). congruence.
Qed.

Lemma idle_mkdir m w' o r :
  archive_untracked b m -> effect (MkdirP [root]) (wld m) = Some w' ->
  archive_untracked b (Machine w' o r).
Proof.
  intros (Hf & Hi & Hx & Hg & Hn) He. cbn [effect mkdir_p_all] in He.
  destruct (mkdir_p root (wld m)) as [w1|] eqn:E; [|discriminate]. injection He as <-.
  unfold mkdir_p in E. rewrite Hroot in E.
  destruct (existsb _ _); [discriminate|]. injection E as <-.
  split; [|split; [|split; [|split]]]; cbn; auto.
  intros x Hin. specialize (Hn x Hin).
  apply orb_false_iff in Hn as [Hd Hfile]. apply orb_false_iff. split; [|exact Hfile].
  apply orb_false_iff in Hd as [_ Hd]. apply bool_decide_eq_false_1 in Hd.
  apply orb_false_iff. split; [apply bool_decide_eq_false_2; discriminate|].
  apply bool_decide_eq_false_2. cbn [dirs set_dirs].
  rewrite elem_of_union. intros [H|H]; [auto|].
  apply elem_of_union in H as [H|H]; [|now apply elem_of_empty in H].
  apply elem_of_singleton in H. injection H as <-. auto.
Qed.

Lemma idle_skip x :
  In x (ReorgSite.top_level_dirs ++ ReorgSite.top_level_files) ->
  hoare (archive_untracked b)
    (ReorgSite.git_mv_if_exists_and_tracked false x (root +:+ "/" +:+ x))
    (fun _ => archive_untracked b) (fun _ => True).
Proof.
  intros Hx m Hm. unfold ReorgSite.git_mv_if_exists_and_tracked. sh_unfold.
  rewrite (top_level_missing _ x Hx); [exact Hm|]. now apply Hm.
Qed.

Lemma idle_commit msg otherwise (Q : unit -> machine -> Prop) :
  hoare (archive_untracked b) (ReorgSite.commit_if_changed false msg otherwise)
    Q (fun _ => True).
Proof.
  intros m ((v & Hf) & Hi & Hx & Hg & _).
  unfold ReorgSite.commit_if_changed, exec. sh_unfold. cbn [negb].
  assert (Hs : status_clean (wld m) = false).
  { unfold status_clean. apply andb_false_iff. right.
    apply bool_decide_eq_false_2. intros Hall.
    destruct (Hall [b] v Hf) as [[i Hsome]|Hig]; congruence. }
  rewrite Hs. cbn [negb effect]. unfold git_commit.
  now rewrite (bool_decide_eq_true_2 _ Hi).
Qed.

Lemma idle_main :
  hoare (fun m => ReorgSite.backup_name (wld m) = b
                  /\ has_slash (clock (wld m)) = false
                  /\ nothing_to_move b (wld m))
    (ReorgSite.main false root) (fun _ _ => False) (fun _ => True).
Proof.
  unfold ReorgSite.main.
  eapply hoare_bind; [apply idle_preflight|]. intros ?.
  eapply hoare_bind; [apply idle_backup|]. intros ?.
  apply hoare_seq; [apply hoare_emit; auto|]. intros ?.
  apply hoare_seq.
  { unfold ReorgSite.mkdirs, run. apply hoare_exec; [|auto].
    intros m w' Hm He. now apply (idle_mkdir m). }
  intros ?. apply hoare_bind with (Q := fun _ _ => False).
  { unfold ReorgSite.flatten.
    apply hoare_seq; [apply hoare_emit; auto|]. intros ?.
    apply hoare_seq.
    { apply hoare_for_each. intros x Hx. apply idle_skip. apply in_or_app. now left. }
    intros ?. apply hoare_seq.
    { apply hoare_for_each. intros x Hx. apply idle_skip. apply in_or_app. now right. }
    intros ?. apply idle_commit. }
  intros ? m [].
Qed.

End Idle.

(** X12.  In a repository that holds none of the top-level names the script
    moves, an already reorganised one for instance, and whose ignore rules
    do not cover the backup archive, a real run of [scripts/reorg-site.sh]
    never ends normally: the archive it has just written makes
    [git status] report a change, and [git commit] then finds nothing
    staged. *)
Theorem idle_run_cannot_finish (root : string) (w : world) (m' : machine) :
  norm root = Some [root] ->
  ~ In root (ReorgSite.top_level_dirs ++ ReorgSite.top_level_files) ->
  has_slash (clock w) = false ->
  nothing_to_move (ReorgSite.backup_name w) w ->
  ReorgSite.main false root (start w) <> Ok tt m'.
Proof.
  intros Hroot Hr Hc Hn H.
  pose proof (idle_main root (ReorgSite.backup_name w) Hroot Hr (start w)) as Hh.
  rewrite H in Hh. apply Hh. auto.
Qed.

Lemma idle_run_cannot_finish_witness :
  status_clean unignored_site = true
  /\ ReorgSite.main false "docs" (start unignored_site) <> Ok tt (start unignored_site).
Proof.
  split; [vm_compute; reflexivity|].
  apply (idle_run_cannot_finish "docs" unignored_site (start unignored_site)).
  - reflexivity.
  - cbn. intuition discriminate.
  - reflexivity.
  - split; [vm_compute; reflexivity|]. split; [reflexivity|].
    intros x Hx. unfold ReorgSite.top_level_dirs, ReorgSite.top_level_files in Hx.
    cbn [app In] in Hx.
    repeat (destruct Hx as [<-|Hx]; [vm_compute; reflexivity|]). destruct Hx.
Defined.

(* --------------------------------------------------------------------- *)
(** ** Where a relative reference is looked up *)
(* --------------------------------------------------------------------- *)

Lemma last_char_app a c x : Py.last_char (a +:+ String c x) = Py.last_char (String c x).
Proof.
  induction a as [|b a IH]; [reflexivity|].
  change ((String b a) +:+ String c x) with (String b (a +:+ String c x)).
  cbn [Py.last_char]. destruct (a +:+ String c x) eqn:E; [|exact IH].
  destruct a; discriminate.
Qed.

Lemma last_char_plain x c : has_slash x = false -> Py.last_char x = Some c -> is_slash c = false.
Proof.
  induction x as [|b x IH]; [discriminate|]. cbn [has_slash Py.last_char].
  intros H. apply orb_false_iff in H as [Hb Hx]. destruct x as [|b' x'].
  - now intros [= <-].
  - now apply IH.
Qed.

Lemma ends_plain a x :
  has_slash x = false -> x <> "" -> Py.ends_with_slash (a +:+ x) = false.
Proof.
  intros Hx Hn. destruct x as [|c x]; [congruence|].
  unfold Py.ends_with_slash. rewrite last_char_app.
  destruct (Py.last_char (String c x)) as [l|] eqn:E; [|reflexivity].
  exact (last_char_plain _ _ Hx E).
Qed.

Lemma starts_plain x : has_slash x = false -> starts_with "/" x = false.
Proof.
  destruct x as [|c x]; [reflexivity|]. cbn [has_slash]. intros H.
  apply orb_false_iff in H as [Hc _]. unfold starts_with. cbn.
  destruct c as [[] [] [] [] [] [] [] []]; try reflexivity; discriminate.
Qed.

Lemma join_below a x :
  a <> "" -> Py.ends_with_slash a = false -> starts_with "/" x = false ->
  Py.join a x = a +:+ String "/" x.
Proof.
  intros Ha He Hx. unfold Py.join. rewrite Hx, He. now destruct a.
Qed.

Lemma lstrip_keeps a :
  a <> "" -> Py.ends_with_slash a = false -> Py.is_empty (Py.lstrip_slash (a +:+ "/")) = false.
Proof.
  unfold Py.lstrip_slash.
  induction a as [|c a IH]; [congruence|]. intros _ He.
  change ((String c a) +:+ "/") with (String c (a +:+ "/")). cbn [skip_while].
  destruct (Ascii.eqb c "/") eqn:Ec; [|reflexivity].
  apply IH.
  - intros ->. unfold Py.ends_with_slash in He. cbn in He. congruence.
  - destruct a as [|b a']; [|exact He].
    unfold Py.ends_with_slash in He. cbn in He. congruence.
Qed.

Lemma rstrip_keeps a :
  Py.ends_with_slash a = false -> Py.rstrip_by is_slash a = a.
Proof.
  induction a as [|c a IH]; [reflexivity|]. intros He. cbn [Py.rstrip_by].
  destruct a as [|b a'].
  - unfold Py.ends_with_slash in He. cbn in He. cbn. unfold is_slash. now rewrite He.
  - rewrite IH by exact He. reflexivity.
Qed.

Lemma dirname_join a x :
  a <> "" -> Py.ends_with_slash a = false -> has_slash x = false ->
  Py.dirname (Py.join a x) = a.
Proof.
  intros Ha He Hx. rewrite (join_below a x Ha He (starts_plain x Hx)).
  unfold Py.dirname. rewrite (upto_last_slash_app a x Hx).
  rewrite (lstrip_keeps a Ha He).
  change (fun c : ascii => Ascii.eqb c "/") with is_slash.
  rewrite rstrip_slash. now apply rstrip_keeps.
Qed.

Lemma walked_dir root ds :
  root <> "" -> Py.ends_with_slash root = false ->
  Forall (fun d => has_slash d = false /\ d <> "") ds ->
  foldl Py.join root ds <> "" /\ Py.ends_with_slash (foldl Py.join root ds) = false.
Proof.
  intros Hr He Hds. revert root Hr He.
  induction Hds as [|d ds [Hd Hn] _ IH]; intros root Hr He; [now split|].
  cbn [foldl]. apply IH.
  - rewrite (join_below root d Hr He (starts_plain d Hd)). now destruct root.
  - rewrite (join_below root d Hr He (starts_plain d Hd)).
    replace (root +:+ String "/" d) with ((root +:+ "/") +:+ d).
    + now apply ends_plain.
    + apply app_assoc_s.
Qed.

(** X13.  For a page the walk reaches below [root] through the directories
    [ds], a reference that does not start with a slash is looked up
    relative to the page's own directory: the candidate is the normalised
    join of that directory and the reference, whatever the page is called.
    A reference that starts with a slash is looked up below [root]
    instead, wherever the page lies. *)
Theorem relative_reference_target (root name url : string) (ds : list string) :
  root <> "" -> Py.ends_with_slash root = false ->
  Forall (fun d => has_slash d = false /\ d <> "") ds ->
  has_slash name = false ->
  ReorgSite.candidate root (foldl Py.join root (ds ++ [name])) url
  = if starts_with "/" url then Py.join root (Py.lstrip_slash url)
    else Py.normpath (Py.join (foldl Py.join root ds) url).
Proof.
  intros Hr He Hds Hn. unfold ReorgSite.candidate.
  destruct (starts_with "/" url); [reflexivity|].
  rewrite foldl_app. cbn [foldl].
  destruct (walked_dir root ds Hr He Hds) as [Hd Hs].
  now rewrite (dirname_join _ name Hd Hs Hn).
Qed.

Lemma relative_reference_target_witness :
  ReorgSite.candidate "docs" "docs/journals/2025/october.html" "../../assets/css/site.css"
  = "docs/assets/css/site.css".
Proof.
  refine (eq_trans
            (relative_reference_target "docs" "october.html" "../../assets/css/site.css"
               ["journals"; "2025"] _ _ _ _) _).
  - discriminate.
  - reflexivity.
  - repeat constructor; discriminate.
  - reflexivity.
  - vm_compute. reflexivity.
Defined.

(* ===================================================================== *)
(** * Properties of the page scripts *)
(* ===================================================================== *)

(* --------------------------------------------------------------------- *)
(** ** The title of the print frame *)
(* --------------------------------------------------------------------- *)

Lemma replace_all_app c rep a b :
  Dom.replace_all c rep (a +:+ b) = Dom.replace_all c rep a +:+ Dom.replace_all c rep b.
Proof.
  induction a as [|x a IH]; [reflexivity|].
  change (String x a +:+ b) with (String x (a +:+ b)). cbn [Dom.replace_all].
  destruct (Ascii.eqb x c); rewrite IH; [now rewrite app_assoc_s|reflexivity].
Qed.

Lemma replace_each s :
  Dom.replace_all ">" "&gt;" (Dom.replace_all "<" "&lt;" (Dom.replace_all "&" "&amp;" s))
  = escape_each s.
Proof.
  induction s as [|a s IH]; [reflexivity|].
  cbn [Dom.replace_all escape_each]. unfold escaped.
  destruct (Ascii.eqb a "&") eqn:Ea.
  { rewrite !replace_all_app, IH. reflexivity. }
  cbn [Dom.replace_all]. destruct (Ascii.eqb a "<") eqn:El.
  { rewrite !replace_all_app, IH. reflexivity. }
  cbn [Dom.replace_all]. destruct (Ascii.eqb a ">") eqn:Eg.
  { now rewrite IH. }
  now rewrite IH.
Qed.

Lemma safe_title_each t : t <> "" -> AppJs.safeTitle t = escape_each t.
Proof. intros Ht. unfold AppJs.safeTitle. rewrite replace_each. now destruct t. Qed.

Lemma escape_each_clean c s :
  (c = "<" \/ c = ">")%char -> occurs c (escape_each s) = false.
Proof.
  intros Hc. induction s as [|a s IH]; [reflexivity|].
  cbn [escape_each]. rewrite occurs_app, IH, orb_false_r. unfold escaped.
  destruct (Ascii.eqb a "&"); [now destruct Hc as [-> | ->]|].
  destruct (Ascii.eqb a "<") eqn:El; [now destruct Hc as [-> | ->]|].
  destruct (Ascii.eqb a ">") eqn:Eg; [now destruct Hc as [-> | ->]|].
  cbn [occurs]. rewrite orb_false_r. destruct Hc as [-> | ->]; assumption.
Qed.

(** X14.  The title [printSection] writes into the print frame holds no
    [<] and no [>], whatever the title of the page is: the title cannot
    close the [title] element or open another one. *)
Theorem safe_title_has_no_markup (title : string) :
  occurs "<" (AppJs.safeTitle title) = false
  /\ occurs ">" (AppJs.safeTitle title) = false.
Proof.
  unfold AppJs.safeTitle. rewrite replace_each.
  split; apply escape_each_clean; auto.
Qed.

Lemma escape_each_inj s s' : escape_each s = escape_each s' -> s = s'.
Proof.
  revert s'. induction s as [|a s IH]; intros [|b s'].
  - reflexivity.
  - cbn [escape_each]. unfold escaped.
    destruct (Ascii.eqb b "&"); [discriminate|].
    destruct (Ascii.eqb b "<"); [discriminate|].
    destruct (Ascii.eqb b ">"); discriminate.
  - cbn [escape_each]. unfold escaped.
    destruct (Ascii.eqb a "&"); [discriminate|].
    destruct (Ascii.eqb a "<"); [discriminate|].
    destruct (Ascii.eqb a ">"); discriminate.
  - cbn [escape_each]. unfold escaped.
    destruct (Ascii.eqb_spec a "&") as [->|Ha1];
      [|destruct (Ascii.eqb_spec a "<") as [->|Ha2];
        [|destruct (Ascii.eqb_spec a ">") as [->|Ha3]]];
    (destruct (Ascii.eqb_spec b "&") as [->|Hb1];
      [|destruct (Ascii.eqb_spec b "<") as [->|Hb2];
        [|destruct (Ascii.eqb_spec b ">") as [->|Hb3]]]);
    cbn; intros H; try discriminate H;
    try (injection H as H; f_equal; now apply IH);
    try (injection H as H0 H; congruence).
    change (String a (escape_each s) = String b (escape_each s')) in H.
    injection H as -> H. f_equal. now apply IH.
Qed.

(** X15.  The escaping loses nothing: two pages with different, non-empty
    titles get different titles in the print frame.  (An empty title is
    printed as [Print], as a page of that very title is.) *)
Theorem safe_title_injective (t t' : string) :
  t <> "" -> t' <> "" -> t <> t' -> AppJs.safeTitle t <> AppJs.safeTitle t'.
Proof.
  intros Ht Ht' Hd. rewrite (safe_title_each t Ht), (safe_title_each t' Ht').
  intros H. apply Hd. now apply escape_each_inj.
Qed.

Lemma safe_title_injective_witness :
  AppJs.safeTitle "a<b" <> AppJs.safeTitle "a&lt;b".
Proof.
  apply (safe_title_injective "a<b" "a&lt;b"); discriminate.
Defined.

(* --------------------------------------------------------------------- *)
(** ** The theme *)
(* --------------------------------------------------------------------- *)

Lemma set_set t t' pg :
  AppJs.ThemeManager.set t (AppJs.ThemeManager.set t' pg) = AppJs.ThemeManager.set t pg.
Proof.
  destruct pg as [d [its r w] su mo la tp mp].
  unfold AppJs.ThemeManager.set, Dom.setItem.
  cbn [AppJs.ThemeManager.data_theme AppJs.ThemeManager.storage AppJs.ThemeManager.sun
       AppJs.ThemeManager.moon AppJs.ThemeManager.labels
       AppJs.ThemeManager.toggle_pressed AppJs.ThemeManager.mobile_pressed
       Dom.writes Dom.items Dom.reads].
  f_equal.
  - destruct w; cbn [Dom.writes Dom.items Dom.reads]; [|reflexivity].
    now rewrite insert_insert_eq.
  - rewrite map_map. reflexivity.
  - rewrite map_map. reflexivity.
  - rewrite map_map. apply map_ext. intros [tag txt]. cbn.
    destruct (String.eqb tag "SPAN") eqn:E; cbn; now rewrite E.
  - now destruct tp.
  - now destruct mp.
Qed.

Lemma init_sets pg :
  AppJs.ThemeManager.init pg
  = AppJs.ThemeManager.set (initial_theme (AppJs.ThemeManager.storage pg)) pg.
Proof.
  unfold AppJs.ThemeManager.init, AppJs.ThemeManager.applyInitial, initial_theme.
  destruct (Dom.getItem _ _) as [[[|a p]|]|]; reflexivity.
Qed.

Lemma toggle_set t pg :
  AppJs.ThemeManager.toggle (AppJs.ThemeManager.set t pg)
  = AppJs.ThemeManager.set
      (if String.eqb t AppJs.ThemeManager.DARK
       then AppJs.ThemeManager.LIGHT else AppJs.ThemeManager.DARK) pg.
Proof.
  unfold AppJs.ThemeManager.toggle. rewrite set_set. f_equal.
  cbn [AppJs.ThemeManager.data_theme AppJs.ThemeManager.set].
  destruct (String.eqb_spec t AppJs.ThemeManager.DARK) as [->|Hn].
  - now rewrite bool_decide_eq_true_2.
  - rewrite bool_decide_eq_false_2; [reflexivity|]. intros [= H]. auto.
Qed.

Lemma theme_after_step n t0 :
  theme_after (S n) t0
  = if String.eqb (theme_after n t0) AppJs.ThemeManager.DARK
    then AppJs.ThemeManager.LIGHT else AppJs.ThemeManager.DARK.
Proof.
  destruct n as [|n].
  - cbn. now destruct (String.eqb t0 AppJs.ThemeManager.DARK).
  - unfold theme_after. rewrite (Nat.odd_succ (S n)), <- Nat.negb_odd.
    destruct (Nat.odd (S n)), (String.eqb t0 AppJs.ThemeManager.DARK); reflexivity.
Qed.

(** X16.  After [init] and [n] clicks on the theme buttons the page is
    exactly what one call of [set] gives: the icons, labels, buttons and
    the stored value follow the theme alone, not the way it was reached.
    From the first click on the theme alternates between dark and light,
    starting with dark unless the page came up dark; a stored value that
    is neither is applied as it is until then. *)
Theorem clicks_closed_form (n : nat) (pg : AppJs.ThemeManager.page) :
  AppJs.ThemeManager.clicks n pg
  = AppJs.ThemeManager.set
      (theme_after n (initial_theme (AppJs.ThemeManager.storage pg))) pg.
Proof.
  unfold AppJs.ThemeManager.clicks. induction n as [|n IH].
  - apply init_sets.
  - rewrite Nat.iter_succ, IH, toggle_set, theme_after_step. reflexivity.
Qed.

Lemma theme_after_not_empty n ls : theme_after n (initial_theme ls) <> "".
Proof.
  destruct n as [|n]; cbn [theme_after].
  - unfold initial_theme. destruct (Dom.getItem _ _) as [[[|a p]|]|]; discriminate.
  - destruct (xorb _ _); discriminate.
Qed.

(** X17.  Where the storage can be written and read, a reload brings the
    page up with the theme it showed last, after [init] and any number of
    clicks. *)
Theorem theme_survives_reload (n : nat) (pg pg' : AppJs.ThemeManager.page) :
  Dom.writes (AppJs.ThemeManager.storage pg) = true ->
  Dom.reads (AppJs.ThemeManager.storage pg') = true ->
  Dom.items (AppJs.ThemeManager.storage pg')
  = Dom.items (AppJs.ThemeManager.storage (AppJs.ThemeManager.clicks n pg)) ->
  AppJs.ThemeManager.data_theme (AppJs.ThemeManager.init pg')
  = AppJs.ThemeManager.data_theme (AppJs.ThemeManager.clicks n pg).
Proof.
  intros Hw Hr Hi. rewrite clicks_closed_form in Hi |- *.
  rewrite init_sets. cbn [AppJs.ThemeManager.data_theme AppJs.ThemeManager.set].
  f_equal. unfold initial_theme at 1. unfold Dom.getItem. rewrite Hr, Hi.
  cbn [AppJs.ThemeManager.storage AppJs.ThemeManager.set]. unfold Dom.setItem.
  rewrite Hw. cbn [Dom.items]. rewrite lookup_insert_eq.
  pose proof (theme_after_not_empty n (AppJs.ThemeManager.storage pg)) as Hne.
  destruct (theme_after n _); [congruence|reflexivity].
Qed.

Lemma theme_survives_reload_witness :
  let shown := AppJs.ThemeManager.clicks 3 (fresh_page empty_storage) in
  AppJs.ThemeManager.data_theme
    (AppJs.ThemeManager.init (fresh_page (AppJs.ThemeManager.storage shown)))
  = Some "dark".
Proof.
  refine (eq_trans
            (theme_survives_reload 3 (fresh_page empty_storage)
               (fresh_page (AppJs.ThemeManager.storage
                              (AppJs.ThemeManager.clicks 3 (fresh_page empty_storage))))
               _ _ _) _).
  - reflexivity.
  - reflexivity.
  - reflexivity.
  - vm_compute. reflexivity.
Defined.

(* --------------------------------------------------------------------- *)
(** ** The mobile menu *)
(* --------------------------------------------------------------------- *)

Lemma contains_add tok l : Dom.contains tok (Dom.add tok l) = true.
Proof.
  unfold Dom.add. destruct (Dom.contains tok l) eqn:E; [exact E|].
  unfold Dom.contains. apply bool_decide_eq_true_2, elem_of_app. right.
  apply list_elem_of_singleton. reflexivity.
Qed.

Lemma contains_remove tok l : Dom.contains tok (Dom.remove tok l) = false.
Proof.
  unfold Dom.contains, Dom.remove. apply bool_decide_eq_false_2.
  intros H. apply list_elem_of_filter in H as [H _]. now apply H.
Qed.

Lemma elem_of_add c tok l : c <> tok -> c ∈ Dom.add tok l <-> c ∈ l.
Proof.
  intros Hc. unfold Dom.add. destruct (Dom.contains tok l); [reflexivity|].
  rewrite elem_of_app, list_elem_of_singleton. tauto.
Qed.

Lemma elem_of_remove c tok l : c <> tok -> c ∈ Dom.remove tok l <-> c ∈ l.
Proof. intros Hc. unfold Dom.remove. rewrite list_elem_of_filter. tauto. Qed.

Lemma open_in_sync s : in_sync (AppJs.MobileMenu.open s).
Proof.
  unfold in_sync, AppJs.MobileMenu.open. cbn.
  rewrite !contains_add. repeat split.
Qed.

Lemma close_in_sync s : in_sync (AppJs.MobileMenu.close s).
Proof.
  unfold in_sync, AppJs.MobileMenu.close. cbn.
  rewrite !contains_remove. repeat split.
Qed.

Lemma handle_cases s e :
  (AppJs.MobileMenu.handle s e = s /\ decisive e = false)
  \/ AppJs.MobileMenu.handle s e = AppJs.MobileMenu.open s
  \/ AppJs.MobileMenu.handle s e = AppJs.MobileMenu.close s.
Proof.
  destruct e as [[]|key]; cbn [AppJs.MobileMenu.handle decisive].
  - unfold AppJs.MobileMenu.toggle. destruct (AppJs.MobileMenu.isOpen s); auto.
  - right. right. reflexivity.
  - left. split; [|reflexivity]. unfold AppJs.MobileMenu.onDocClick.
    now destruct (AppJs.MobileMenu.isOpen s).
  - unfold AppJs.MobileMenu.onDocClick. destruct (AppJs.MobileMenu.isOpen s); cbn; auto.
  - unfold AppJs.MobileMenu.onKeyDown.
    destruct (String.eqb key "Escape" && AppJs.MobileMenu.isOpen s); auto.
Qed.

Lemma handle_other_classes s e c :
  c <> "active" ->
  (c ∈ AppJs.MobileMenu.hamburger_class (AppJs.MobileMenu.handle s e)
   <-> c ∈ AppJs.MobileMenu.hamburger_class s)
  /\ (c ∈ AppJs.MobileMenu.menu_class (AppJs.MobileMenu.handle s e)
      <-> c ∈ AppJs.MobileMenu.menu_class s).
Proof.
  intros Hc. destruct (handle_cases s e) as [[-> _]|[-> | ->]].
  - tauto.
  - cbn. now rewrite !elem_of_add.
  - cbn. now rewrite !elem_of_remove.
Qed.

(** X18.  Through any sequence of clicks and key presses the page keeps
    showing what the menu object believes: the [active] class of both
    elements, [aria-expanded], [aria-hidden] and the scroll lock of the
    body all agree with [isOpen], provided they agreed at the start or one
    of the events was a click on the hamburger or on a menu link.  No other
    class of the two elements is added or removed. *)
Theorem menu_stays_in_sync (s : AppJs.MobileMenu.state)
    (evs : list AppJs.MobileMenu.event) (c : string) :
  in_sync s \/ existsb decisive evs = true ->
  let s' := foldl AppJs.MobileMenu.handle s evs in
  in_sync s'
  /\ (c <> "active" ->
      (c ∈ AppJs.MobileMenu.hamburger_class s' <-> c ∈ AppJs.MobileMenu.hamburger_class s)
      /\ (c ∈ AppJs.MobileMenu.menu_class s' <-> c ∈ AppJs.MobileMenu.menu_class s)).
Proof.
  revert s. induction evs as [|e evs IH]; intros s H.
  - cbn. split; [|tauto]. destruct H as [H|H]; [exact H|discriminate].
  - cbn [foldl]. destruct (IH (AppJs.MobileMenu.handle s e)) as [Hs Hc].
    + destruct (handle_cases s e) as [[-> Hd]|[-> | ->]].
      * destruct H as [H|H]; [now left|]. right. cbn [existsb] in H. now rewrite Hd in H.
      * left. apply open_in_sync.
      * left. apply close_in_sync.
    + cbn zeta. split; [exact Hs|]. intros Hn.
      destruct (Hc Hn) as [H1 H2]. destruct (handle_other_classes s e c Hn) as [H3 H4].
      rewrite <- H3, <- H4. now split.
Qed.

Lemma menu_stays_in_sync_witness :
  let evs := [AppJs.MobileMenu.KeyDown "Escape";
              AppJs.MobileMenu.Click AppJs.MobileMenu.Hamburger;
              AppJs.MobileMenu.Click AppJs.MobileMenu.MenuElsewhere] in
  in_sync (foldl AppJs.MobileMenu.handle stale_menu evs).
Proof.
  refine (proj1 (menu_stays_in_sync stale_menu
                   [AppJs.MobileMenu.KeyDown "Escape";
                    AppJs.MobileMenu.Click AppJs.MobileMenu.Hamburger;
                    AppJs.MobileMenu.Click AppJs.MobileMenu.MenuElsewhere] "btn" _)).
  right. reflexivity.
Defined.

(* --------------------------------------------------------------------- *)
(** ** The stand-alone theme toggle *)
(* --------------------------------------------------------------------- *)

(** X19.  A click on the stand-alone toggle flips the [dark] class of the
    root element and nothing else in its class list, and the value it
    stores, where the storage takes it, names the theme the class list
    then shows. *)
Theorem dark_class_toggles (s : ThemeToggle.state) (c : string) :
  let s' := ThemeToggle.toggle s in
  (c ∈ ThemeToggle.root_class s'
   <-> if bool_decide (c = "dark") then c ∉ ThemeToggle.root_class s
       else c ∈ ThemeToggle.root_class s)
  /\ Dom.items (ThemeToggle.storage s') !! "theme"
     = if Dom.writes (ThemeToggle.storage s)
       then Some (if Dom.contains "dark" (ThemeToggle.root_class s') then "dark" else "light")
       else Dom.items (ThemeToggle.storage s) !! "theme".
Proof.
  cbn zeta. unfold ThemeToggle.toggle, ThemeToggle.apply.
  cbn [ThemeToggle.root_class ThemeToggle.storage].
  destruct (Dom.contains "dark" (ThemeToggle.root_class s)) eqn:Ed;
    cbn [String.eqb Ascii.eqb Bool.eqb Dom.toggle_force]; split.
  - destruct (bool_decide (c = "dark")) eqn:Ec.
    + apply bool_decide_eq_true in Ec as ->. split.
      * intros H. apply list_elem_of_filter in H as [H _]. now contradiction H.
      * intros H. contradiction H. unfold Dom.contains in Ed.
        now apply bool_decide_eq_true in Ed.
    + apply bool_decide_eq_false in Ec. now apply elem_of_remove.
  - rewrite contains_remove. unfold Dom.setItem.
    destruct (Dom.writes (ThemeToggle.storage s)); [|reflexivity].
    cbn [Dom.items]. apply lookup_insert_eq.
  - destruct (bool_decide (c = "dark")) eqn:Ec.
    + apply bool_decide_eq_true in Ec as ->. split.
      * intros _ H. unfold Dom.contains in Ed. apply bool_decide_eq_false in Ed. auto.
      * intros _. pose proof (contains_add "dark" (ThemeToggle.root_class s)) as H.
        unfold Dom.contains in H. now apply bool_decide_eq_true in H.
    + apply bool_decide_eq_false in Ec. now apply elem_of_add.
  - rewrite contains_add. unfold Dom.setItem.
    destruct (Dom.writes (ThemeToggle.storage s)); [|reflexivity].
    cbn [Dom.items]. apply lookup_insert_eq.
Qed.
